(** * The task and shared-memory layer of the kernel (kernel/tasking.c)

    A shallow embedding of [kernel/tasking.c]: every C function becomes a
    computation over an explicit kernel state.  Heap objects (tasks, blockers,
    memory objects) live in typed heaps indexed by non-null pointers, a
    nullable pointer is an [option], and [scheduler_yield] is a suspension
    point at which the rest of the system may change the kernel state before
    the caller is resumed. *)

From Stdlib Require Import Ascii String.
From stdpp Require Import gmap list strings.

Local Open Scope Z_scope.

(** ** Machine integers (i686: [int], [uint], [uintptr_t], [size_t] are 32 bits) *)

Definition wrap32 (z : Z) : Z := z mod 2 ^ 32.

(** A signed [int] in two's complement. *)
Definition wrap_int (z : Z) : Z := (z + 2 ^ 31) mod 2 ^ 32 - 2 ^ 31.

(** [(Timeout)-1], the "no timeout" sentinel. *)
Definition TIMEOUT_NONE : Z := wrap32 (-1).

Global Arguments wrap32 : simpl never.
Global Arguments wrap_int : simpl never.
Global Arguments TIMEOUT_NONE : simpl never.

(** The [n] low bytes of [v], least significant first. *)
Fixpoint le_bytes (n : nat) (v : Z) : list Z :=
  match n with
  | O => []
  | S n' => (v mod 256) :: le_bytes n' (v / 256)
  end.

(** A C string as the bytes [memcpy] sees for [strlen(s) + 1]. *)
Fixpoint cstring_bytes (s : string) : list Z :=
  match s with
  | EmptyString => [0]
  | String c s' => Z.of_N (Ascii.N_of_ascii c) :: cstring_bytes s'
  end.

(** [strlcpy(dst, src, size)]: at most [size - 1] characters are kept. *)
Fixpoint strlcpy (src : string) (size : nat) : string :=
  match size, src with
  | S (S n), String c s' => String c (strlcpy s' (S n))
  | _, _ => EmptyString
  end.

(** ** Enumerations *)

Inductive TaskState :=
| TASK_STATE_NONE
| TASK_STATE_HANG
| TASK_STATE_RUNNING
| TASK_STATE_BLOCKED
| TASK_STATE_CANCELED.

Inductive Result :=
| SUCCESS
| TIMEOUT
| ERR_NO_SUCH_TASK
| ERR_NO_SUCH_FILE_OR_DIRECTORY
| ERR_NOT_A_DIRECTORY
| ERR_BAD_ADDRESS.

Inductive BlockerResult :=
| BLOCKER_UNBLOCKED
| BLOCKER_TIMEOUT
| BLOCKER_CANCELLED.

Inductive FileType :=
| FILE_TYPE_REGULAR
| FILE_TYPE_DIRECTORY
| FILE_TYPE_OTHER.

Global Instance TaskState_eq_dec : EqDecision TaskState.
Proof. solve_decision. Defined.
Global Instance Result_eq_dec : EqDecision Result.
Proof. solve_decision. Defined.
Global Instance BlockerResult_eq_dec : EqDecision BlockerResult.
Proof. solve_decision. Defined.
Global Instance FileType_eq_dec : EqDecision FileType.
Proof. solve_decision. Defined.

(** ** Pointers

    A [ptr] is the address of a live-or-freed heap object and is never null;
    C's nullable [T *] is [option ptr]. *)

Definition ptr := positive.
Definition PageDirectory := Z.
Definition uintptr_t := Z.

Record MemoryRange := { base : uintptr_t; size : Z }.

Global Instance MemoryRange_eq_dec : EqDecision MemoryRange.
Proof. solve_decision. Defined.

(** ** Data structures of kernel/tasking.h *)

Record MemoryObject := {
  mo_id : Z;
  mo_refcount : Z;
  mo_address : uintptr_t;
  mo_size : Z;
}.

Record MemoryMapping := {
  mm_object : ptr;
  mm_address : uintptr_t;
  mm_size : Z;
}.

Global Instance MemoryMapping_eq_dec : EqDecision MemoryMapping.
Proof. solve_decision. Defined.

(** ** External collaborators

    The path algebra, the address-space manager, the physical allocator, the
    file system and the C allocator are outside [tasking.c].  Their answers
    are functions of the calls made so far (the trace); nothing else is
    assumed of them, except that the allocator hands out an address that is
    not in use. *)

Inductive Event {Path : Type} :=
| EvSchedulerDidChangeTaskState (task : ptr) (old new : TaskState)
| EvSchedulerYield
| EvArchSaveContext (task : ptr)
| EvFshandleCloseAll (task : ptr)
| EvMemoryPdirCreate (ret : PageDirectory)
| EvMemoryPdirDestroy (pdir : PageDirectory)
| EvMemoryPdirSwitch (pdir : PageDirectory)
| EvMemoryAlloc (pdir : PageDirectory) (sz flags : Z) (ret : uintptr_t)
| EvMemoryFree (pdir : PageDirectory) (range : MemoryRange)
| EvVirtualAlloc (pdir : PageDirectory) (range : MemoryRange) (flags : Z) (ret : MemoryRange)
| EvVirtualFree (pdir : PageDirectory) (range : MemoryRange)
| EvPhysicalAlloc (pages : Z) (ret : uintptr_t)
| EvPhysicalFree (address : uintptr_t) (pages : Z)
| EvFilesystemFindAndRef (path : Path) (ret : option (ptr * FileType))
| EvFsnodeDeref (node : ptr).
Global Arguments Event : clear implicits.

Class Externals := {
  (* compile-time constants of the tree *)
  PROCESS_NAME_SIZE : nat;
  PROCESS_HANDLE_COUNT : nat;
  PROCESS_ARG_COUNT : nat;
  PROCESS_STACK_SIZE : Z;
  PAGE_SIZE : Z;
  MEMORY_CLEAR : Z;
  MEMORY_USER : Z;
  (* path algebra *)
  Path : Type;
  path_create : string → Path;
  path_is_relative : Path → bool;
  path_combine : Path → Path → Path;
  path_normalize : Path → Path;
  (* address spaces, frames, files *)
  memory_kpdir : PageDirectory;
  memory_pdir_create_ret : list (Event Path) → PageDirectory;
  memory_alloc_ret : list (Event Path) → PageDirectory → Z → Z → uintptr_t;
  virtual_alloc_ret : list (Event Path) → PageDirectory → MemoryRange → Z → MemoryRange;
  physical_alloc_ret : list (Event Path) → Z → uintptr_t;
  filesystem_find_and_ref_ret : list (Event Path) → Path → option (ptr * FileType);
  (* the C allocator: [__create(T)] answers an address not in use *)
  malloc_ret : gset ptr → ptr;
  malloc_ret_fresh : ∀ used, malloc_ret used ∉ used;
}.

Declare Scope op_scope.
Delimit Scope op_scope with op.

Section Tasking.
Context `{Externals}.

Record Task := {
  t_id : Z;
  t_name : string;
  t_state : TaskState;
  t_pdir : PageDirectory;
  t_user : bool;
  t_entry : uintptr_t;
  t_stack : uintptr_t;
  t_stack_pointer : uintptr_t;
  t_memory_mapping : list MemoryMapping;
  t_cwd_lock : bool;
  t_cwd_path : Path;
  t_handles_lock : bool;
  t_handles : list (option ptr);
  t_blocker : option ptr;
  t_exit_value : Z;
}.

(** What a blocker callback can see: the tick counter, the task table and
    memory.  A hook may store into memory (an out-parameter of the blocked
    call); the task table is written by this layer only. *)
Record View := {
  v_tick : Z;
  v_tasks : gmap ptr Task;
  v_memory : gmap Z Z;
}.

(** Modelled from the spec: [struct Blocker] (kernel/tasking/Blocker.h is not
    part of the sources at hand).  "Attributes: a [can_unblock(task) → bool]
    predicate, an optional [on_unblock(task)] side-effecting hook, an
    absolute-tick [timeout] and a [result] field."  A callback answers [None]
    when it dereferences a dangling pointer. *)
Record Blocker := {
  b_result : BlockerResult;
  b_timeout : Z;
  b_can_unblock : View → ptr → option bool;
  b_on_unblock : option (View → ptr → option (gmap Z Z));
}.

(** ** The kernel state *)

Record Kernel := {
  atomic_depth : nat;                 (* nesting of atomic_begin() *)
  TID : Z;                            (* static int TID *)
  all_tasks : list ptr;               (* static List *all_tasks *)
  tasks : gmap ptr Task;              (* heap: Task objects *)
  blockers : gmap ptr Blocker;        (* heap: Blocker objects *)
  _memory_object_id : Z;
  _memory_objects : list ptr;
  _memory_objects_lock : bool;
  objects : gmap ptr MemoryObject;    (* heap: MemoryObject objects *)
  memory : gmap Z Z;                  (* bytes, by address *)
  tick : Z;                           (* system_get_tick() *)
  running : option ptr;               (* scheduler_running() *)
  trace : list (Event Path);          (* calls to the collaborators, oldest first *)
}.

Definition view (k : Kernel) : View :=
  {| v_tick := wrap32 (tick k); v_tasks := tasks k; v_memory := memory k |}.

Definition set_atomic_depth (f : nat → nat) (k : Kernel) : Kernel :=
  {| atomic_depth := f (atomic_depth k); TID := TID k; all_tasks := all_tasks k;
     tasks := tasks k; blockers := blockers k;
     _memory_object_id := _memory_object_id k; _memory_objects := _memory_objects k;
     _memory_objects_lock := _memory_objects_lock k; objects := objects k;
     memory := memory k; tick := tick k; running := running k; trace := trace k |}.

Definition set_TID (f : Z → Z) (k : Kernel) : Kernel :=
  {| atomic_depth := atomic_depth k; TID := f (TID k); all_tasks := all_tasks k;
     tasks := tasks k; blockers := blockers k;
     _memory_object_id := _memory_object_id k; _memory_objects := _memory_objects k;
     _memory_objects_lock := _memory_objects_lock k; objects := objects k;
     memory := memory k; tick := tick k; running := running k; trace := trace k |}.

Definition set_all_tasks (f : list ptr → list ptr) (k : Kernel) : Kernel :=
  {| atomic_depth := atomic_depth k; TID := TID k; all_tasks := f (all_tasks k);
     tasks := tasks k; blockers := blockers k;
     _memory_object_id := _memory_object_id k; _memory_objects := _memory_objects k;
     _memory_objects_lock := _memory_objects_lock k; objects := objects k;
     memory := memory k; tick := tick k; running := running k; trace := trace k |}.

Definition set_tasks (f : gmap ptr Task → gmap ptr Task) (k : Kernel) : Kernel :=
  {| atomic_depth := atomic_depth k; TID := TID k; all_tasks := all_tasks k;
     tasks := f (tasks k); blockers := blockers k;
     _memory_object_id := _memory_object_id k; _memory_objects := _memory_objects k;
     _memory_objects_lock := _memory_objects_lock k; objects := objects k;
     memory := memory k; tick := tick k; running := running k; trace := trace k |}.

Definition set_blockers (f : gmap ptr Blocker → gmap ptr Blocker) (k : Kernel) : Kernel :=
  {| atomic_depth := atomic_depth k; TID := TID k; all_tasks := all_tasks k;
     tasks := tasks k; blockers := f (blockers k);
     _memory_object_id := _memory_object_id k; _memory_objects := _memory_objects k;
     _memory_objects_lock := _memory_objects_lock k; objects := objects k;
     memory := memory k; tick := tick k; running := running k; trace := trace k |}.

Definition set_memory_object_id (f : Z → Z) (k : Kernel) : Kernel :=
  {| atomic_depth := atomic_depth k; TID := TID k; all_tasks := all_tasks k;
     tasks := tasks k; blockers := blockers k;
     _memory_object_id := f (_memory_object_id k); _memory_objects := _memory_objects k;
     _memory_objects_lock := _memory_objects_lock k; objects := objects k;
     memory := memory k; tick := tick k; running := running k; trace := trace k |}.

Definition set_memory_objects (f : list ptr → list ptr) (k : Kernel) : Kernel :=
  {| atomic_depth := atomic_depth k; TID := TID k; all_tasks := all_tasks k;
     tasks := tasks k; blockers := blockers k;
     _memory_object_id := _memory_object_id k; _memory_objects := f (_memory_objects k);
     _memory_objects_lock := _memory_objects_lock k; objects := objects k;
     memory := memory k; tick := tick k; running := running k; trace := trace k |}.

Definition set_memory_objects_lock (b : bool) (k : Kernel) : Kernel :=
  {| atomic_depth := atomic_depth k; TID := TID k; all_tasks := all_tasks k;
     tasks := tasks k; blockers := blockers k;
     _memory_object_id := _memory_object_id k; _memory_objects := _memory_objects k;
     _memory_objects_lock := b; objects := objects k;
     memory := memory k; tick := tick k; running := running k; trace := trace k |}.

Definition set_objects (f : gmap ptr MemoryObject → gmap ptr MemoryObject) (k : Kernel) : Kernel :=
  {| atomic_depth := atomic_depth k; TID := TID k; all_tasks := all_tasks k;
     tasks := tasks k; blockers := blockers k;
     _memory_object_id := _memory_object_id k; _memory_objects := _memory_objects k;
     _memory_objects_lock := _memory_objects_lock k; objects := f (objects k);
     memory := memory k; tick := tick k; running := running k; trace := trace k |}.

Definition set_memory (f : gmap Z Z → gmap Z Z) (k : Kernel) : Kernel :=
  {| atomic_depth := atomic_depth k; TID := TID k; all_tasks := all_tasks k;
     tasks := tasks k; blockers := blockers k;
     _memory_object_id := _memory_object_id k; _memory_objects := _memory_objects k;
     _memory_objects_lock := _memory_objects_lock k; objects := objects k;
     memory := f (memory k); tick := tick k; running := running k; trace := trace k |}.

Definition log (e : Event Path) (k : Kernel) : Kernel :=
  {| atomic_depth := atomic_depth k; TID := TID k; all_tasks := all_tasks k;
     tasks := tasks k; blockers := blockers k;
     _memory_object_id := _memory_object_id k; _memory_objects := _memory_objects k;
     _memory_objects_lock := _memory_objects_lock k; objects := objects k;
     memory := memory k; tick := tick k; running := running k; trace := trace k ++ [e] |}.

(** Field updates of a task, one per assignment form of the source. *)

Definition with_state (s : TaskState) (t : Task) : Task :=
  {| t_id := t_id t; t_name := t_name t; t_state := s; t_pdir := t_pdir t;
     t_user := t_user t; t_entry := t_entry t; t_stack := t_stack t;
     t_stack_pointer := t_stack_pointer t; t_memory_mapping := t_memory_mapping t;
     t_cwd_lock := t_cwd_lock t; t_cwd_path := t_cwd_path t;
     t_handles_lock := t_handles_lock t; t_handles := t_handles t;
     t_blocker := t_blocker t; t_exit_value := t_exit_value t |}.

Definition with_entry (entry : uintptr_t) (user : bool) (t : Task) : Task :=
  {| t_id := t_id t; t_name := t_name t; t_state := t_state t; t_pdir := t_pdir t;
     t_user := user; t_entry := entry; t_stack := t_stack t;
     t_stack_pointer := t_stack_pointer t; t_memory_mapping := t_memory_mapping t;
     t_cwd_lock := t_cwd_lock t; t_cwd_path := t_cwd_path t;
     t_handles_lock := t_handles_lock t; t_handles := t_handles t;
     t_blocker := t_blocker t; t_exit_value := t_exit_value t |}.

Definition with_pdir (pdir : PageDirectory) (t : Task) : Task :=
  {| t_id := t_id t; t_name := t_name t; t_state := t_state t; t_pdir := pdir;
     t_user := t_user t; t_entry := t_entry t; t_stack := t_stack t;
     t_stack_pointer := t_stack_pointer t; t_memory_mapping := t_memory_mapping t;
     t_cwd_lock := t_cwd_lock t; t_cwd_path := t_cwd_path t;
     t_handles_lock := t_handles_lock t; t_handles := t_handles t;
     t_blocker := t_blocker t; t_exit_value := t_exit_value t |}.

Definition with_stack_pointer (sp : uintptr_t) (t : Task) : Task :=
  {| t_id := t_id t; t_name := t_name t; t_state := t_state t; t_pdir := t_pdir t;
     t_user := t_user t; t_entry := t_entry t; t_stack := t_stack t;
     t_stack_pointer := sp; t_memory_mapping := t_memory_mapping t;
     t_cwd_lock := t_cwd_lock t; t_cwd_path := t_cwd_path t;
     t_handles_lock := t_handles_lock t; t_handles := t_handles t;
     t_blocker := t_blocker t; t_exit_value := t_exit_value t |}.

Definition with_memory_mapping (l : list MemoryMapping) (t : Task) : Task :=
  {| t_id := t_id t; t_name := t_name t; t_state := t_state t; t_pdir := t_pdir t;
     t_user := t_user t; t_entry := t_entry t; t_stack := t_stack t;
     t_stack_pointer := t_stack_pointer t; t_memory_mapping := l;
     t_cwd_lock := t_cwd_lock t; t_cwd_path := t_cwd_path t;
     t_handles_lock := t_handles_lock t; t_handles := t_handles t;
     t_blocker := t_blocker t; t_exit_value := t_exit_value t |}.

Definition with_cwd_lock (b : bool) (t : Task) : Task :=
  {| t_id := t_id t; t_name := t_name t; t_state := t_state t; t_pdir := t_pdir t;
     t_user := t_user t; t_entry := t_entry t; t_stack := t_stack t;
     t_stack_pointer := t_stack_pointer t; t_memory_mapping := t_memory_mapping t;
     t_cwd_lock := b; t_cwd_path := t_cwd_path t;
     t_handles_lock := t_handles_lock t; t_handles := t_handles t;
     t_blocker := t_blocker t; t_exit_value := t_exit_value t |}.

Definition with_cwd_path (p : Path) (t : Task) : Task :=
  {| t_id := t_id t; t_name := t_name t; t_state := t_state t; t_pdir := t_pdir t;
     t_user := t_user t; t_entry := t_entry t; t_stack := t_stack t;
     t_stack_pointer := t_stack_pointer t; t_memory_mapping := t_memory_mapping t;
     t_cwd_lock := t_cwd_lock t; t_cwd_path := p;
     t_handles_lock := t_handles_lock t; t_handles := t_handles t;
     t_blocker := t_blocker t; t_exit_value := t_exit_value t |}.

Definition with_blocker (b : option ptr) (t : Task) : Task :=
  {| t_id := t_id t; t_name := t_name t; t_state := t_state t; t_pdir := t_pdir t;
     t_user := t_user t; t_entry := t_entry t; t_stack := t_stack t;
     t_stack_pointer := t_stack_pointer t; t_memory_mapping := t_memory_mapping t;
     t_cwd_lock := t_cwd_lock t; t_cwd_path := t_cwd_path t;
     t_handles_lock := t_handles_lock t; t_handles := t_handles t;
     t_blocker := b; t_exit_value := t_exit_value t |}.

Definition with_exit_value (v : Z) (t : Task) : Task :=
  {| t_id := t_id t; t_name := t_name t; t_state := t_state t; t_pdir := t_pdir t;
     t_user := t_user t; t_entry := t_entry t; t_stack := t_stack t;
     t_stack_pointer := t_stack_pointer t; t_memory_mapping := t_memory_mapping t;
     t_cwd_lock := t_cwd_lock t; t_cwd_path := t_cwd_path t;
     t_handles_lock := t_handles_lock t; t_handles := t_handles t;
     t_blocker := t_blocker t; t_exit_value := v |}.

Definition with_refcount (f : Z → Z) (o : MemoryObject) : MemoryObject :=
  {| mo_id := mo_id o; mo_refcount := f (mo_refcount o);
     mo_address := mo_address o; mo_size := mo_size o |}.

Definition with_timeout (timeout : Z) (b : Blocker) : Blocker :=
  {| b_result := b_result b; b_timeout := timeout;
     b_can_unblock := b_can_unblock b; b_on_unblock := b_on_unblock b |}.

(** ** Computations

    A computation runs from a kernel state to one of three outcomes: it
    returns, it stops the kernel (a failed [assert], a dangling pointer, a
    lock that is held), or it reaches [scheduler_yield()] and goes on from
    whatever state the kernel is in when the scheduler resumes it. *)

Inductive Failure := ASSERT_FAILED | INVALID_POINTER | LOCK_HELD.

Inductive Outcome (A : Type) :=
| Done (a : A) (k : Kernel)
| Yield (k : Kernel) (resume : Kernel → Outcome A)
| Abort (why : Failure).
Global Arguments Done {A}.
Global Arguments Yield {A}.
Global Arguments Abort {A}.

Definition Op (A : Type) := Kernel → Outcome A.

Fixpoint bind_outcome {A B} (o : Outcome A) (f : A → Op B) : Outcome B :=
  match o with
  | Done a k => f a k
  | Yield k resume => Yield k (λ k', bind_outcome (resume k') f)
  | Abort why => Abort why
  end.

Definition ret {A} (a : A) : Op A := λ k, Done a k.
Definition bind {A B} (m : Op A) (f : A → Op B) : Op B := λ k, bind_outcome (m k) f.

Notation "x ← y ; z" := (bind y (λ x, z))
  (at level 20, y at level 100, z at level 200, only parsing) : op_scope.
Notation "x ;; z" := (bind x (λ _, z))
  (at level 100, z at level 200, only parsing, right associativity) : op_scope.
Local Open Scope op_scope.

Definition get {A} (f : Kernel → A) : Op A := λ k, Done (f k) k.
Definition modify (f : Kernel → Kernel) : Op unit := λ k, Done () (f k).
Definition abort {A} (why : Failure) : Op A := λ _, Abort why.
Definition assert (b : bool) : Op unit := if b then ret () else abort ASSERT_FAILED.
Definition when (b : bool) (m : Op unit) : Op unit := if b then m else ret ().

(** ** libsystem helpers used by the source *)

(** [list_remove(list, value)]: unlink the first cell holding [value]. *)
Fixpoint list_remove {A} `{EqDecision A} (value : A) (l : list A) : list A :=
  match l with
  | [] => []
  | x :: l' => if decide (x = value) then l' else x :: list_remove value l'
  end.

(** [memcpy(dst, src, n)] into kernel-visible memory. *)
Fixpoint store_bytes (dst : Z) (bytes : list Z) (m : gmap Z Z) : gmap Z Z :=
  match bytes with
  | [] => m
  | b :: bytes' => store_bytes (dst + 1) bytes' (<[dst := b]> m)
  end.

Definition memcpy (dst : Z) (bytes : list Z) : Op unit :=
  modify (set_memory (store_bytes dst bytes)).

(** ** Heap access *)

Definition deref_task (task : ptr) : Op Task :=
  λ k, match tasks k !! task with
       | Some t => Done t k
       | None => Abort INVALID_POINTER
       end.

Definition update_task (task : ptr) (f : Task → Task) : Op unit :=
  t ← deref_task task;
  modify (set_tasks <[task := f t]>).

Definition deref_blocker (blocker : ptr) : Op Blocker :=
  λ k, match blockers k !! blocker with
       | Some b => Done b k
       | None => Abort INVALID_POINTER
       end.

Definition update_blocker (blocker : ptr) (f : Blocker → Blocker) : Op unit :=
  b ← deref_blocker blocker;
  modify (set_blockers <[blocker := f b]>).

Definition free_blocker (blocker : ptr) : Op unit :=
  modify (set_blockers (delete blocker)).

Definition deref_object (object : ptr) : Op MemoryObject :=
  λ k, match objects k !! object with
       | Some o => Done o k
       | None => Abort INVALID_POINTER
       end.

Definition update_object (object : ptr) (f : MemoryObject → MemoryObject) : Op unit :=
  o ← deref_object object;
  modify (set_objects <[object := f o]>).

(** ** Atomic sections and locks

    Modelled from the spec: "atomic sections nest by counter and must be
    strictly balanced"; [ASSERT_ATOMIC] halts the kernel outside of one.  A
    lock is a flag; acquiring a held lock cannot succeed in a run without
    interleaving and stops the computation. *)

Definition atomic_begin : Op unit := modify (set_atomic_depth S).
Definition atomic_end : Op unit := modify (set_atomic_depth Nat.pred).
Definition ASSERT_ATOMIC : Op unit :=
  d ← get atomic_depth;
  assert (bool_decide (0 < d)%nat).

Definition lock_acquire_cwd (task : ptr) : Op unit :=
  t ← deref_task task;
  if t_cwd_lock t then abort LOCK_HELD else update_task task (with_cwd_lock true).

Definition lock_release_cwd (task : ptr) : Op unit :=
  update_task task (with_cwd_lock false).

Definition lock_acquire_memory_objects : Op unit :=
  held ← get _memory_objects_lock;
  if held then abort LOCK_HELD else modify (set_memory_objects_lock true).

Definition lock_release_memory_objects : Op unit :=
  modify (set_memory_objects_lock false).

(** ** Calls to the collaborators *)

Definition scheduler_did_change_task_state (task : ptr) (old new : TaskState) : Op unit :=
  modify (log (EvSchedulerDidChangeTaskState task old new)).

Definition scheduler_yield : Op unit :=
  λ k, Yield (log EvSchedulerYield k) (λ k', Done () k').

Definition scheduler_running : Op (option ptr) := get running.

Definition system_get_tick : Op Z := get (λ k, v_tick (view k)).

Definition arch_save_context (task : ptr) : Op unit :=
  modify (log (EvArchSaveContext task)).

Definition task_fshandle_close_all (task : ptr) : Op unit :=
  modify (log (EvFshandleCloseAll task)).

Definition memory_pdir_create : Op PageDirectory :=
  pdir ← get (λ k, memory_pdir_create_ret (trace k));
  modify (log (EvMemoryPdirCreate pdir));;
  ret pdir.

Definition memory_pdir_destroy (pdir : PageDirectory) : Op unit :=
  modify (log (EvMemoryPdirDestroy pdir)).

Definition memory_pdir_switch (pdir : PageDirectory) : Op unit :=
  modify (log (EvMemoryPdirSwitch pdir)).

Definition memory_alloc (pdir : PageDirectory) (sz flags : Z) : Op uintptr_t :=
  address ← get (λ k, memory_alloc_ret (trace k) pdir sz flags);
  modify (log (EvMemoryAlloc pdir sz flags address));;
  ret address.

Definition memory_free (pdir : PageDirectory) (range : MemoryRange) : Op unit :=
  modify (log (EvMemoryFree pdir range)).

Definition virtual_alloc (pdir : PageDirectory) (range : MemoryRange) (flags : Z)
  : Op MemoryRange :=
  r ← get (λ k, virtual_alloc_ret (trace k) pdir range flags);
  modify (log (EvVirtualAlloc pdir range flags r));;
  ret r.

Definition virtual_free (pdir : PageDirectory) (range : MemoryRange) : Op unit :=
  modify (log (EvVirtualFree pdir range)).

Definition physical_alloc (pages : Z) : Op uintptr_t :=
  address ← get (λ k, physical_alloc_ret (trace k) pages);
  modify (log (EvPhysicalAlloc pages address));;
  ret address.

Definition physical_free (address : uintptr_t) (pages : Z) : Op unit :=
  modify (log (EvPhysicalFree address pages)).

Definition filesystem_find_and_ref (path : Path) : Op (option (ptr * FileType)) :=
  node ← get (λ k, filesystem_find_and_ref_ret (trace k) path);
  modify (log (EvFilesystemFindAndRef path node));;
  ret node.

Definition fsnode_deref (node : ptr) : Op unit :=
  modify (log (EvFsnodeDeref node)).

(** Modelled from the spec: [PAGE_ALIGN_UP] (the macro is not part of the
    sources at hand): "round [size] up to a multiple of page size". *)
Definition PAGE_ALIGN_UP (x : Z) : Z :=
  wrap32 ((x + PAGE_SIZE - 1) / PAGE_SIZE * PAGE_SIZE).

(** ** TASKS *)

Definition task_set_state (task : ptr) (state : TaskState) : Op unit :=
  ASSERT_ATOMIC;;
  t ← deref_task task;
  scheduler_did_change_task_state task (t_state t) state;;
  update_task task (with_state state).

Definition task_set_entry (task : ptr) (entry : uintptr_t) (user : bool) : Op unit :=
  update_task task (with_entry entry user).

Definition task_stack_push (task : ptr) (value : list Z) : Op uintptr_t :=
  t ← deref_task task;
  let sp := wrap32 (t_stack_pointer t - Z.of_nat (length value)) in
  update_task task (with_stack_pointer sp);;
  memcpy sp value;;
  ret sp.

Definition task_create (parent : option ptr) (name : string) (user : bool) : Op ptr :=
  ASSERT_ATOMIC;;
  task ← get (λ k, malloc_ret (dom (tasks k)));
  id ← get TID;
  modify (set_TID (λ n, wrap_int (n + 1)));;
  pdir ← (if user then memory_pdir_create else ret memory_kpdir);
  cwd_path ← match parent with
             | Some parent => p ← deref_task parent; ret (t_cwd_path p)
             | None => ret (path_create "/")
             end;
  stack ← memory_alloc pdir PROCESS_STACK_SIZE MEMORY_CLEAR;
  modify (set_tasks <[task := {|
    t_id := id;
    t_name := strlcpy name PROCESS_NAME_SIZE;
    t_state := TASK_STATE_NONE;
    t_pdir := pdir;
    t_user := false;
    t_entry := 0;
    t_stack := stack;
    t_stack_pointer := wrap32 (stack + PROCESS_STACK_SIZE - 1);
    t_memory_mapping := [];
    t_cwd_lock := false;
    t_cwd_path := cwd_path;
    t_handles_lock := false;
    t_handles := replicate PROCESS_HANDLE_COUNT None;
    t_blocker := None;
    t_exit_value := 0 |}]>);;
  arch_save_context task;;
  modify (set_all_tasks (λ l, l ++ [task]));;
  ret task.

Definition task_by_id_loop (id : Z) : list ptr → Op (option ptr) :=
  fix go l :=
    match l with
    | [] => ret None
    | task :: l' =>
        t ← deref_task task;
        if bool_decide (t_id t = id) then ret (Some task) else go l'
    end.

Definition task_by_id (id : Z) : Op (option ptr) :=
  l ← get all_tasks;
  task_by_id_loop id l.

Definition task_count : Op Z :=
  atomic_begin;;
  result ← get (λ k, Z.of_nat (length (all_tasks k)));
  atomic_end;;
  ret result.

Definition task_spawn (parent : option ptr) (name : string) (entry : uintptr_t)
    (arg : Z) (user : bool) : Op ptr :=
  ASSERT_ATOMIC;;
  task ← task_create parent name user;
  task_set_entry task entry user;;
  task_stack_push task (le_bytes 4 arg);;
  ret task.

(** The [for] loop of [task_spawn_with_argv]: push [argv[argc]] while it is
    not the terminating null and [argc < PROCESS_ARG_COUNT]. *)
Definition push_argv (task : ptr) : nat → list string → Op (list uintptr_t) :=
  fix go room argv :=
    match room, argv with
    | S room', a :: argv' =>
        p ← task_stack_push task (cstring_bytes a);
        ps ← go room' argv';
        ret (p :: ps)
    | _, _ => ret []
    end.

Definition task_spawn_with_argv (parent : option ptr) (name : string)
    (entry : uintptr_t) (argv : list string) (user : bool) : Op ptr :=
  atomic_begin;;
  task ← task_create parent name user;
  task_set_entry task entry true;;
  pushed ← push_argv task PROCESS_ARG_COUNT argv;
  let argc := length pushed in
  let argv_list := pushed ++ replicate (PROCESS_ARG_COUNT - argc) 0 in
  argv_list_ref ← task_stack_push task (mjoin (le_bytes 4 <$> argv_list));
  task_stack_push task (le_bytes 4 argv_list_ref);;
  task_stack_push task (le_bytes 4 (Z.of_nat argc));;
  atomic_end;;
  ret task.

(** ** Task memory management *)

Definition task_switch_pdir (task : ptr) (pdir : PageDirectory) : Op PageDirectory :=
  t ← deref_task task;
  let oldpdir := t_pdir t in
  update_task task (with_pdir pdir);;
  memory_pdir_switch pdir;;
  ret oldpdir.

(** ** Blockers *)

(** Modelled from the spec: [blocker_time_create] (kernel/tasking/Blocker.c is
    not part of the sources at hand): "[can_unblock] = current_tick ≥
    deadline", no hook. *)
Definition blocker_time_create (wakeup_tick : Z) : Op ptr :=
  blocker ← get (λ k, malloc_ret (dom (blockers k)));
  modify (set_blockers <[blocker := {|
    b_result := BLOCKER_UNBLOCKED;
    b_timeout := 0;
    b_can_unblock := λ v _, Some (bool_decide (wakeup_tick ≤ v_tick v));
    b_on_unblock := None |}]>);;
  ret blocker.

(** Modelled from the spec: [blocker_wait_create] (same missing file):
    "[can_unblock] = target's state is CANCELED; [on_unblock] writes
    [target.exit_value] into [out_exit_value]". *)
Definition blocker_wait_create (task : ptr) (exit_value : Z) : Op ptr :=
  blocker ← get (λ k, malloc_ret (dom (blockers k)));
  modify (set_blockers <[blocker := {|
    b_result := BLOCKER_UNBLOCKED;
    b_timeout := 0;
    b_can_unblock := λ v _,
      match v_tasks v !! task with
      | Some t => Some (bool_decide (t_state t = TASK_STATE_CANCELED))
      | None => None
      end;
    b_on_unblock := Some (λ v _,
      match v_tasks v !! task with
      | Some t => Some (store_bytes exit_value (le_bytes 4 (t_exit_value t)) (v_memory v))
      | None => None
      end) |}]>);;
  ret blocker.

Definition call_can_unblock (b : Blocker) (task : ptr) : Op bool :=
  λ k, match b_can_unblock b (view k) task with
       | Some r => Done r k
       | None => Abort INVALID_POINTER
       end.

Definition call_on_unblock (hook : View → ptr → option (gmap Z Z)) (task : ptr) : Op unit :=
  λ k, match hook (view k) task with
       | Some m => Done () (set_memory (λ _, m) k)
       | None => Abort INVALID_POINTER
       end.

Definition task_block (task : ptr) (blocker : ptr) (timeout : Z) : Op BlockerResult :=
  t ← deref_task task;
  assert (bool_decide (t_blocker t = None));;
  atomic_begin;;
  update_task task (with_blocker (Some blocker));;
  b ← deref_blocker blocker;
  can ← call_can_unblock b task;
  if can then
    match b_on_unblock b with
    | Some hook => call_on_unblock hook task
    | None => ret ()
    end;;
    update_task task (with_blocker None);;
    free_blocker blocker;;
    atomic_end;;
    ret BLOCKER_UNBLOCKED
  else
    (if bool_decide (wrap32 timeout = TIMEOUT_NONE)
     then update_blocker blocker (with_timeout TIMEOUT_NONE)
     else now ← system_get_tick;
          update_blocker blocker (with_timeout (wrap32 (now + timeout))));;
    task_set_state task TASK_STATE_BLOCKED;;
    atomic_end;;
    scheduler_yield;;
    b ← deref_blocker blocker;
    let result := b_result b in
    free_blocker blocker;;
    update_task task (with_blocker None);;
    ret result.

Definition task_sleep (task : ptr) (timeout : Z) : Op Result :=
  now ← system_get_tick;
  blocker ← blocker_time_create (wrap32 (now + timeout));
  task_block task blocker (-1);;
  ret TIMEOUT.

Definition task_wait (task_id : Z) (exit_value : Z) : Op Result :=
  atomic_begin;;
  task ← task_by_id task_id;
  match task with
  | None =>
      atomic_end;;
      ret ERR_NO_SUCH_TASK
  | Some task =>
      atomic_end;;
      current ← scheduler_running;
      match current with
      | None => abort INVALID_POINTER
      | Some current =>
          blocker ← blocker_wait_create task exit_value;
          task_block current blocker (-1);;
          ret SUCCESS
      end
  end.

(** ** Stopping and cancelling *)

(** [assert(task)] holds by typing: a [ptr] is not null. *)
Definition task_cancel (task : ptr) (exit_value : Z) : Op Result :=
  atomic_begin;;
  update_task task (with_exit_value exit_value);;
  task_set_state task TASK_STATE_CANCELED;;
  atomic_end;;
  ret SUCCESS.

Definition task_exit (exit_value : Z) : Op unit :=
  current ← scheduler_running;
  match current with
  | None => abort ASSERT_FAILED
  | Some current =>
      task_cancel current exit_value;;
      scheduler_yield;;
      abort ASSERT_FAILED       (* ASSERT_NOT_REACHED() *)
  end.

(** ** Current working directory *)

Definition task_cwd_resolve (task : ptr) (buffer : string) : Op Path :=
  let path := path_create buffer in
  path ← (if path_is_relative path then
            lock_acquire_cwd task;;
            t ← deref_task task;
            let combined := path_combine (t_cwd_path t) path in
            lock_release_cwd task;;
            ret combined
          else ret path);
  ret (path_normalize path).

Definition task_set_cwd (task : ptr) (buffer : string) : Op Result :=
  path ← task_cwd_resolve task buffer;
  node ← filesystem_find_and_ref path;
  match node with
  | None => ret ERR_NO_SUCH_FILE_OR_DIRECTORY
  | Some (node, type) =>
      if bool_decide (type ≠ FILE_TYPE_DIRECTORY) then
        fsnode_deref node;;
        ret ERR_NOT_A_DIRECTORY
      else
        lock_acquire_cwd task;;
        update_task task (with_cwd_path path);;
        lock_release_cwd task;;
        fsnode_deref node;;
        ret SUCCESS
  end.

(** ** SHARED MEMORY *)

(** Modelled from the spec: the [refcount] field of [struct MemoryObject]
    (kernel/tasking.h is not part of the sources at hand) is a counter of
    references; its machine width is unknown and it is not wrapped. *)
Definition memory_object_create (sz : Z) : Op ptr :=
  let sz := PAGE_ALIGN_UP sz in
  memory_object ← get (λ k, malloc_ret (dom (objects k)));
  id ← get _memory_object_id;
  modify (set_memory_object_id (λ n, wrap_int (n + 1)));;
  address ← physical_alloc (sz / PAGE_SIZE);
  modify (set_objects <[memory_object := {|
    mo_id := id; mo_refcount := 1; mo_address := address; mo_size := sz |}]>);;
  lock_acquire_memory_objects;;
  modify (set_memory_objects (λ l, l ++ [memory_object]));;
  lock_release_memory_objects;;
  ret memory_object.

Definition memory_object_destroy (memory_object : ptr) : Op unit :=
  modify (set_memory_objects (list_remove memory_object));;
  o ← deref_object memory_object;
  physical_free (mo_address o) (PAGE_ALIGN_UP (mo_size o) / PAGE_SIZE);;
  modify (set_objects (delete memory_object)).

Definition memory_object_ref (memory_object : ptr) : Op ptr :=
  update_object memory_object (with_refcount (λ n, n + 1));;
  ret memory_object.

Definition memory_object_deref (memory_object : ptr) : Op unit :=
  lock_acquire_memory_objects;;
  update_object memory_object (with_refcount (λ n, n - 1));;
  o ← deref_object memory_object;
  when (bool_decide (mo_refcount o = 0)) (memory_object_destroy memory_object);;
  lock_release_memory_objects.

Definition memory_object_by_id_loop (id : Z) : list ptr → Op (option ptr) :=
  fix go l :=
    match l with
    | [] =>
        lock_release_memory_objects;;
        ret None
    | memory_object :: l' =>
        o ← deref_object memory_object;
        if bool_decide (mo_id o = id) then
          memory_object_ref memory_object;;
          lock_release_memory_objects;;
          ret (Some memory_object)
        else go l'
    end.

Definition memory_object_by_id (id : Z) : Op (option ptr) :=
  lock_acquire_memory_objects;;
  l ← get _memory_objects;
  memory_object_by_id_loop id l.

Definition task_memory_mapping_create (task : ptr) (memory_object : ptr)
  : Op MemoryMapping :=
  object ← memory_object_ref memory_object;
  t ← deref_task task;
  o ← deref_object memory_object;
  range ← virtual_alloc (t_pdir t)
            {| base := mo_address o; size := mo_size o |} MEMORY_USER;
  let memory_mapping :=
    {| mm_object := object; mm_address := base range; mm_size := mo_size o |} in
  update_task task
    (λ t, with_memory_mapping (t_memory_mapping t ++ [memory_mapping]) t);;
  ret memory_mapping.

Definition task_memory_mapping_destroy (task : ptr) (memory_mapping : MemoryMapping)
  : Op unit :=
  t ← deref_task task;
  virtual_free (t_pdir t)
    {| base := mm_address memory_mapping; size := mm_size memory_mapping |};;
  memory_object_deref (mm_object memory_mapping);;
  update_task task
    (λ t, with_memory_mapping (list_remove memory_mapping (t_memory_mapping t)) t).

Definition memory_mapping_by_address_loop (address : uintptr_t)
  : list MemoryMapping → option MemoryMapping :=
  fix go l :=
    match l with
    | [] => None
    | memory_mapping :: l' =>
        if bool_decide (mm_address memory_mapping = address)
        then Some memory_mapping
        else go l'
    end.

Definition task_memory_mapping_by_address (task : ptr) (address : uintptr_t)
  : Op (option MemoryMapping) :=
  t ← deref_task task;
  ret (memory_mapping_by_address_loop address (t_memory_mapping t)).

(** The user-facing calls return their out-parameters next to the result. *)

Definition task_shared_memory_alloc (task : ptr) (sz : Z) : Op (Result * uintptr_t) :=
  memory_object ← memory_object_create sz;
  memory_mapping ← task_memory_mapping_create task memory_object;
  memory_object_deref memory_object;;
  ret (SUCCESS, mm_address memory_mapping).

Definition task_shared_memory_free (task : ptr) (address : uintptr_t) : Op Result :=
  memory_mapping ← task_memory_mapping_by_address task address;
  match memory_mapping with
  | None => ret ERR_BAD_ADDRESS
  | Some memory_mapping =>
      task_memory_mapping_destroy task memory_mapping;;
      ret SUCCESS
  end.

Definition task_shared_memory_include (task : ptr) (handle : Z)
  : Op (Result * option (uintptr_t * Z)) :=
  memory_object ← memory_object_by_id handle;
  match memory_object with
  | None => ret (ERR_BAD_ADDRESS, None)
  | Some memory_object =>
      memory_mapping ← task_memory_mapping_create task memory_object;
      memory_object_deref memory_object;;
      ret (SUCCESS, Some (mm_address memory_mapping, mm_size memory_mapping))
  end.

Definition task_shared_memory_get_handle (task : ptr) (address : uintptr_t)
  : Op (Result * option Z) :=
  memory_mapping ← task_memory_mapping_by_address task address;
  match memory_mapping with
  | None => ret (ERR_BAD_ADDRESS, None)
  | Some memory_mapping =>
      o ← deref_object (mm_object memory_mapping);
      ret (SUCCESS, Some (mo_id o))
  end.

(** ** Destruction *)

(** [list_foreach] over the mapping list as it stands when the loop starts;
    each iteration destroys, and unlinks, the mapping it visits. *)
Definition destroy_mappings (task : ptr) : list MemoryMapping → Op unit :=
  fix go l :=
    match l with
    | [] => ret ()
    | memory_mapping :: l' =>
        task_memory_mapping_destroy task memory_mapping;;
        go l'
    end.

Definition task_destroy (task : ptr) : Op unit :=
  atomic_begin;;
  t ← deref_task task;
  when (bool_decide (t_state t ≠ TASK_STATE_NONE))
       (task_set_state task TASK_STATE_NONE);;
  modify (set_all_tasks (list_remove task));;
  atomic_end;;
  t ← deref_task task;
  destroy_mappings task (t_memory_mapping t);;
  task_fshandle_close_all task;;
  lock_acquire_cwd task;;
  t ← deref_task task;
  memory_free (t_pdir t) {| base := t_stack t; size := PROCESS_STACK_SIZE |};;
  when (bool_decide (t_pdir t ≠ memory_kpdir)) (memory_pdir_destroy (t_pdir t));;
  modify (set_tasks (delete task)).

(** ** GARBAGE COLLECTOR *)

Definition destroy_task_if_canceled (task : ptr) : Op unit :=
  t ← deref_task task;
  when (bool_decide (t_state t = TASK_STATE_CANCELED)) (task_destroy task).

(** [list_iterate(list, target, callback)] with a callback that always
    answers ITERATION_CONTINUE: the cells are visited in order, each one's
    successor being read before the callback runs, so that the callback may
    unlink the cell it is given. *)
Definition list_iterate {A} (callback : A → Op unit) : list A → Op unit :=
  fix go l :=
    match l with
    | [] => ret ()
    | x :: l' => callback x;; go l'
    end.

(** The atomic section of the collector's loop body. *)
Definition garbage_collector_sweep : Op unit :=
  atomic_begin;;
  l ← get all_tasks;
  list_iterate destroy_task_if_canceled l;;
  atomic_end.

(** One turn of the [while (true)] loop of [garbage_collector]. *)
Definition garbage_collector_turn : Op unit :=
  current ← scheduler_running;
  match current with
  | None => abort INVALID_POINTER
  | Some current =>
      task_sleep current 100;;
      garbage_collector_sweep
  end.

(** [task_all] and [task_shared_memory_setup]. *)
Definition task_all : Op (list ptr) := get all_tasks.

Definition task_shared_memory_setup : Op unit :=
  modify (set_memory_objects_lock false);;
  modify (set_memory_objects (λ _, [])).

End Tasking.

(** ** A reference platform

    Concrete collaborators on which the operations can be run: paths are an
    absolute flag with a list of components, and every allocator answers
    from the number of calls made so far. *)

Module Reference.

Fixpoint split_slash (acc : string) (s : string) : list string :=
  match s with
  | EmptyString => [String.rev acc]
  | String c s' =>
      if Ascii.eqb c "/"%char
      then String.rev acc :: split_slash EmptyString s'
      else split_slash (String c acc) s'
  end.

Definition is_component (s : string) : bool :=
  negb (String.eqb s "") && negb (String.eqb s ".").

Fixpoint resolve (stack : list string) (l : list string) : list string :=
  match l with
  | [] => rev stack
  | c :: l' =>
      if String.eqb c ".." then resolve (tail stack) l' else resolve (c :: stack) l'
  end.

Definition path := (bool * list string)%type.

Definition parse (s : string) : path :=
  (match s with String "/" _ => false | _ => true end,
   filter (λ c, is_component c = true) (split_slash EmptyString s)).

Definition combine (l r : path) : path := (l.1, l.2 ++ r.2).
Definition normalize (p : path) : path := (p.1, resolve [] p.2).

Definition lookup_dir (p : path) : option (ptr * FileType) :=
  match p.2 with
  | [] => Some (1%positive, FILE_TYPE_DIRECTORY)
  | ["home"%string] => Some (2%positive, FILE_TYPE_DIRECTORY)
  | ["home"%string; "motd"%string] => Some (3%positive, FILE_TYPE_REGULAR)
  | _ => None
  end.

Global Instance externals : Externals := {|
  PROCESS_NAME_SIZE := 128;
  PROCESS_HANDLE_COUNT := 32;
  PROCESS_ARG_COUNT := 4;
  PROCESS_STACK_SIZE := 16384;
  PAGE_SIZE := 4096;
  MEMORY_CLEAR := 1;
  MEMORY_USER := 2;
  Path := path;
  path_create := parse;
  path_is_relative := fst;
  path_combine := combine;
  path_normalize := normalize;
  memory_kpdir := 4096;
  memory_pdir_create_ret := λ tr, 8192 + 4096 * Z.of_nat (length tr);
  memory_alloc_ret := λ tr _ _ _, 1048576 + 65536 * Z.of_nat (length tr);
  virtual_alloc_ret := λ tr _ r _,
    {| base := 1073741824 + 65536 * Z.of_nat (length tr); size := size r |};
  physical_alloc_ret := λ tr _, 16777216 + 65536 * Z.of_nat (length tr);
  filesystem_find_and_ref_ret := λ _ p, lookup_dir p;
  malloc_ret := fresh;
  malloc_ret_fresh := is_fresh;
|}.

(** The state after [tasking_initialize] has created its lists. *)
Definition boot : Kernel :=
  {| atomic_depth := 0; TID := 0; all_tasks := []; tasks := ∅; blockers := ∅;
     _memory_object_id := 0; _memory_objects := []; _memory_objects_lock := false;
     objects := ∅; memory := ∅; tick := 0; running := None; trace := [] |}.

(** A task record with everything but its state, blocker and mappings fixed. *)
Definition sample_task (id : Z) (state : TaskState) (blocker : option ptr)
    (mappings : list MemoryMapping) : Task :=
  {| t_id := id; t_name := "sample"; t_state := state; t_pdir := 4096;
     t_user := false; t_entry := 0; t_stack := 1048576;
     t_stack_pointer := 1064959; t_memory_mapping := mappings;
     t_cwd_lock := false; t_cwd_path := (false, []);
     t_handles_lock := false; t_handles := replicate 32 None;
     t_blocker := blocker; t_exit_value := 0 |}.

(** One registered task, at address 1, which is also the running one. *)
Definition one_task (state : TaskState) (blocker : option ptr) : Kernel :=
  {| atomic_depth := 0; TID := 1; all_tasks := [1%positive];
     tasks := {[ 1%positive := sample_task 0 state blocker [] ]};
     blockers := ∅;
     _memory_object_id := 0; _memory_objects := []; _memory_objects_lock := false;
     objects := ∅; memory := ∅; tick := 10; running := Some 1%positive; trace := [] |}.

(** A blocker that is satisfied at once and whose hook stores one byte. *)
Definition ready_blocker : Blocker :=
  {| b_result := BLOCKER_TIMEOUT; b_timeout := 0;
     b_can_unblock := λ _ _, Some true;
     b_on_unblock := Some (λ v _, Some (<[100 := 1]> (v_memory v))) |}.

(** A blocker that is never satisfied. *)
Definition pending_blocker : Blocker :=
  {| b_result := BLOCKER_CANCELLED; b_timeout := 0;
     b_can_unblock := λ _ _, Some false;
     b_on_unblock := None |}.

(** One task that maps, at 0x40000000, the only memory object (two pages,
    at heap address 7). *)
Definition sample_mapping : MemoryMapping :=
  {| mm_object := 7%positive; mm_address := 1073741824; mm_size := 8192 |}.

Definition sample_object (refcount : Z) : MemoryObject :=
  {| mo_id := 0; mo_refcount := refcount; mo_address := 16777216; mo_size := 8192 |}.

Definition one_mapping : Kernel :=
  {| atomic_depth := 0; TID := 1; all_tasks := [1%positive];
     tasks := {[ 1%positive := sample_task 0 TASK_STATE_CANCELED None [sample_mapping] ]};
     blockers := ∅;
     _memory_object_id := 1; _memory_objects := [7%positive];
     _memory_objects_lock := false;
     objects := {[ 7%positive := sample_object 1 ]};
     memory := ∅; tick := 10; running := Some 1%positive; trace := [] |}.

(** Two registered tasks: the running one (id 0, at address 1) and one that
    was cancelled with exit value 42 (id 1, at address 2). *)
Definition two_tasks : Kernel :=
  {| atomic_depth := 0; TID := 2; all_tasks := [1%positive; 2%positive];
     tasks := {[ 1%positive := sample_task 0 TASK_STATE_RUNNING None [];
                 2%positive := with_exit_value 42
                                 (sample_task 1 TASK_STATE_CANCELED None []) ]};
     blockers := ∅;
     _memory_object_id := 0; _memory_objects := []; _memory_objects_lock := false;
     objects := ∅; memory := ∅; tick := 10; running := Some 1%positive; trace := [] |}.

End Reference.

(** * Properties *)

Section Facts.
Context `{Externals}.

Lemma deref_task_live (k : Kernel) task t :
  tasks k !! task = Some t → deref_task task k = Done t k.
Proof. intros E. unfold deref_task. by rewrite E. Qed.

End Facts.

(** Symbolic execution: unfold the sequencing, compute, and resolve heap
    lookups and decided tests from the hypotheses. *)
Ltac run_unfold :=
  unfold bind, ret, get, modify, assert, when, abort,
         atomic_begin, atomic_end, ASSERT_ATOMIC,
         deref_task, update_task, deref_blocker, update_blocker, free_blocker,
         deref_object, update_object,
         lock_acquire_cwd, lock_release_cwd,
         lock_acquire_memory_objects, lock_release_memory_objects,
         scheduler_did_change_task_state, scheduler_running, system_get_tick,
         arch_save_context, task_fshandle_close_all, memory_pdir_create,
         memory_pdir_destroy, memory_alloc, memory_free, virtual_alloc,
         virtual_free, physical_alloc, physical_free, filesystem_find_and_ref,
         fsnode_deref, memcpy in *.

Ltac run_lookup :=
  first
    [ rewrite lookup_insert_eq
    | rewrite lookup_delete_eq
    | rewrite lookup_insert_ne by (first [done | congruence])
    | rewrite lookup_delete_ne by (first [done | congruence])
    | match goal with
      | E : ?m !! ?p = _ |- context [?m !! ?p] => rewrite E
      | E : ?b = _ |- context [if ?b then _ else _] => rewrite E
      end
    | rewrite bool_decide_eq_true_2 by (first [done | lia | congruence])
    | rewrite bool_decide_eq_false_2 by (first [done | lia | congruence]) ].

Ltac run := repeat (progress (run_unfold; cbn; try run_lookup)).

Lemma kernel_ext `{Externals} (k k' : Kernel) :
  atomic_depth k = atomic_depth k' →
  TID k = TID k' →
  all_tasks k = all_tasks k' →
  tasks k = tasks k' →
  blockers k = blockers k' →
  _memory_object_id k = _memory_object_id k' →
  _memory_objects k = _memory_objects k' →
  _memory_objects_lock k = _memory_objects_lock k' →
  objects k = objects k' →
  memory k = memory k' →
  tick k = tick k' →
  running k = running k' →
  trace k = trace k' →
  k = k'.
Proof. destruct k, k'; cbn; intros; by subst. Qed.

(** Equality of two kernel states, field by field; the fields that agree
    by computation are discharged. *)
Ltac kernel_eq := apply kernel_ext; cbn; try done.

(** ** Cancellation *)

Definition canceled `{Externals} (task : ptr) (exit_value : Z) (t : Task) (k : Kernel)
  : Kernel :=
  log (EvSchedulerDidChangeTaskState task (t_state t) TASK_STATE_CANCELED)
    (set_tasks
       <[task := with_state TASK_STATE_CANCELED (with_exit_value exit_value t)]> k).

Lemma task_cancel_run `{Externals} (k : Kernel) (task : ptr) (t : Task) (v : Z) :
  tasks k !! task = Some t →
  task_cancel task v k = Done SUCCESS (canceled task v t k).
Proof.
  intros E. unfold task_cancel, task_set_state. run.
  f_equal. unfold canceled. kernel_eq. apply insert_insert_eq.
Qed.

(** C10: [task_cancel] on a live task in any state stores the exit value,
    reports [old → CANCELED] to the scheduler with the state the task had
    before the call, leaves the task CANCELED and returns SUCCESS; a second
    cancellation succeeds again and overwrites the exit value. *)
Theorem task_cancel_any_state `{Externals} (k : Kernel) (task : ptr) (t : Task) (v : Z) :
  tasks k !! task = Some t →
  let k' := canceled task v t k in
  task_cancel task v k = Done SUCCESS k'
  ∧ (∃ t', tasks k' !! task = Some t'
           ∧ t_exit_value t' = v ∧ t_state t' = TASK_STATE_CANCELED)
  ∧ trace k' = trace k ++
      [EvSchedulerDidChangeTaskState task (t_state t) TASK_STATE_CANCELED]
  ∧ atomic_depth k' = atomic_depth k
  ∧ ∀ v', ∃ k'' t'',
      task_cancel task v' k' = Done SUCCESS k''
      ∧ tasks k'' !! task = Some t''
      ∧ t_exit_value t'' = v' ∧ t_state t'' = TASK_STATE_CANCELED
      ∧ trace k'' = trace k' ++
          [EvSchedulerDidChangeTaskState task TASK_STATE_CANCELED TASK_STATE_CANCELED].
Proof.
  intros E k'. split; [by apply task_cancel_run|].
  assert (E' : tasks k' !! task
               = Some (with_state TASK_STATE_CANCELED (with_exit_value v t))).
  { subst k'. unfold canceled. cbn. apply lookup_insert_eq. }
  split; [by eexists|]. split; [done|]. split; [done|].
  intros v'. eexists _, _. split; [by apply task_cancel_run|].
  split; [apply lookup_insert_eq|]. done.
Qed.

Lemma task_cancel_any_state_witness :
  let k := Reference.one_task TASK_STATE_BLOCKED (Some 5%positive) in
  let t := Reference.sample_task 0 TASK_STATE_BLOCKED (Some 5%positive) [] in
  let k' := canceled 1%positive 42 t k in
  task_cancel 1%positive 42 k = Done SUCCESS k'
  ∧ (∃ t', tasks k' !! 1%positive = Some t'
           ∧ t_exit_value t' = 42 ∧ t_state t' = TASK_STATE_CANCELED)
  ∧ trace k' = trace k ++
      [EvSchedulerDidChangeTaskState 1%positive (t_state t) TASK_STATE_CANCELED]
  ∧ atomic_depth k' = atomic_depth k
  ∧ ∀ v', ∃ k'' t'',
      task_cancel 1%positive v' k' = Done SUCCESS k''
      ∧ tasks k'' !! 1%positive = Some t''
      ∧ t_exit_value t'' = v' ∧ t_state t'' = TASK_STATE_CANCELED
      ∧ trace k'' = trace k' ++
          [EvSchedulerDidChangeTaskState 1%positive TASK_STATE_CANCELED TASK_STATE_CANCELED].
Proof.
  apply (task_cancel_any_state
           (Reference.one_task TASK_STATE_BLOCKED (Some 5%positive)) 1%positive
           (Reference.sample_task 0 TASK_STATE_BLOCKED (Some 5%positive) []) 42).
  reflexivity.
Defined.

(** ** Spawning *)

Lemma task_stack_push_run `{Externals} (k : Kernel) (task : ptr) (t : Task) value :
  tasks k !! task = Some t →
  let sp := wrap32 (t_stack_pointer t - Z.of_nat (length value)) in
  task_stack_push task value k
  = Done sp (set_memory (store_bytes sp value)
               (set_tasks <[task := with_stack_pointer sp t]> k)).
Proof. intros E sp. unfold task_stack_push. run. done. Qed.

Lemma push_argv_user `{Externals} (task : ptr) (room : nat) (argv : list string) :
  ∀ (k : Kernel) (t : Task),
    tasks k !! task = Some t →
    ∃ pushed k' t',
      push_argv task room argv k = Done pushed k'
      ∧ tasks k' !! task = Some t'
      ∧ t_user t' = t_user t
      ∧ t_pdir t' = t_pdir t
      ∧ atomic_depth k' = atomic_depth k.
Proof.
  revert argv. induction room as [|room IH]; intros argv k t E.
  - exists [], k, t. by destruct argv.
  - destruct argv as [|a argv]; [by exists [], k, t|].
    cbn [push_argv]. unfold bind at 1.
    rewrite (task_stack_push_run k task t _ E). cbn [bind_outcome].
    set (k1 := set_memory _ _).
    destruct (IH argv k1 (with_stack_pointer
                (wrap32 (t_stack_pointer t - Z.of_nat (length (cstring_bytes a)))) t))
      as (ps & k' & t' & R & E' & U & P & D).
    { subst k1. cbn. apply lookup_insert_eq. }
    exists (wrap32 (t_stack_pointer t - Z.of_nat (length (cstring_bytes a))) :: ps), k', t'.
    unfold bind. fold (push_argv task). rewrite R. cbn. done.
Qed.

Definition parent_cwd `{Externals} (k : Kernel) (parent : option ptr) : option Path :=
  match parent with
  | Some parent => t_cwd_path <$> tasks k !! parent
  | None => Some (path_create "/")
  end.

Lemma task_create_run `{Externals} (k : Kernel) parent name user cwd :
  (0 < atomic_depth k)%nat →
  parent_cwd k parent = Some cwd →
  ∃ k' t,
    task_create parent name user k = Done (malloc_ret (dom (tasks k))) k'
    ∧ tasks k' = <[malloc_ret (dom (tasks k)) := t]> (tasks k)
    ∧ all_tasks k' = all_tasks k ++ [malloc_ret (dom (tasks k))]
    ∧ atomic_depth k' = atomic_depth k
    ∧ TID k' = wrap_int (TID k + 1)
    ∧ t_id t = TID k
    ∧ t_state t = TASK_STATE_NONE
    ∧ t_user t = false
    ∧ t_blocker t = None
    ∧ t_memory_mapping t = []
    ∧ t_cwd_path t = cwd
    ∧ t_pdir t = (if user then memory_pdir_create_ret (trace k) else memory_kpdir).
Proof.
  intros A C. unfold task_create. run.
  destruct user, parent as [parent|]; cbn in C.
  all: try (destruct (tasks k !! parent) as [p|] eqn:E; [|done]).
  all: run.
  all: injection C as <-.
  all: eexists _, _; split; [reflexivity|]; cbn; repeat split; done.
Qed.

Lemma bind_run `{Externals} {A B} (m : Op A) (f : A → Op B) k a k' :
  m k = Done a k' → bind m f k = f a k'.
Proof. intros E. unfold bind. by rewrite E. Qed.

Lemma bind_abort `{Externals} {A B} (m : Op A) (f : A → Op B) k why :
  m k = Abort why → bind m f k = Abort why.
Proof. intros E. unfold bind. by rewrite E. Qed.

Lemma task_create_dangling_parent `{Externals} (k : Kernel) parent name user :
  parent_cwd k parent = None →
  task_create parent name user k = Abort INVALID_POINTER
  ∨ task_create parent name user k = Abort ASSERT_FAILED.
Proof.
  intros C. destruct parent as [parent|]; [|done]. cbn in C.
  destruct (tasks k !! parent) as [p|] eqn:E; [done|].
  unfold task_create. run.
  destruct (bool_decide (0 < atomic_depth k)%nat); [|by right].
  left. destruct user; run; done.
Qed.

(** C2: whatever [user] flag the caller passes, the task made by
    [task_spawn_with_argv] has its [user] attribute set to [true] (the call
    never suspends, and stops only on a dangling [parent]); its address space
    is still chosen from the caller's flag. *)
Theorem task_spawn_with_argv_user_flag `{Externals}
    (k : Kernel) parent name entry argv (user : bool) :
  match task_spawn_with_argv parent name entry argv user k with
  | Done task k' =>
      ∃ t, tasks k' !! task = Some t
           ∧ t_user t = true
           ∧ t_pdir t = (if user then memory_pdir_create_ret (trace k) else memory_kpdir)
  | Yield _ _ => False
  | Abort _ => parent_cwd k parent = None
  end.
Proof.
  unfold task_spawn_with_argv.
  rewrite (bind_run atomic_begin _ k () (set_atomic_depth S k)) by done.
  destruct (parent_cwd k parent) as [cwd|] eqn:C.
  - destruct (task_create_run (set_atomic_depth S k) parent name user cwd)
      as (k1 & t & R & T & _ & _ & _ & _ & _ & _ & _ & _ & _ & P);
      [cbn; lia|done|].
    rewrite (bind_run _ _ _ _ _ R).
    set (task := malloc_ret _) in *.
    assert (E1 : tasks k1 !! task = Some t) by (rewrite T; apply lookup_insert_eq).
    unfold task_set_entry. run.
    set (k2 := set_tasks _ k1).
    destruct (push_argv_user task PROCESS_ARG_COUNT argv k2 (with_entry entry true t))
      as (ps & k3 & t3 & R3 & E3 & U3 & P3 & _).
    { subst k2. cbn. apply lookup_insert_eq. }
    rewrite R3. unfold task_stack_push. run.
    eexists. split; [reflexivity|]. cbn. by rewrite U3, P3.
  - destruct (task_create_dangling_parent (set_atomic_depth S k) parent name user C)
      as [R|R]; by rewrite (bind_abort _ _ _ _ R).
Qed.

(** The sibling entry point keeps the flag: [task_spawn] passes [user] on. *)
Lemma task_spawn_records_user `{Externals} (k : Kernel) parent name entry arg user cwd :
  (0 < atomic_depth k)%nat →
  parent_cwd k parent = Some cwd →
  ∃ k' t, task_spawn parent name entry arg user k
          = Done (malloc_ret (dom (tasks k))) k'
          ∧ tasks k' !! malloc_ret (dom (tasks k)) = Some t
          ∧ t_user t = user.
Proof.
  intros A C. unfold task_spawn.
  destruct (task_create_run k parent name user cwd A C) as (k1 & t & R & T & _).
  rewrite (bind_run ASSERT_ATOMIC _ k () k) by (by run).
  rewrite (bind_run _ _ _ _ _ R).
  assert (E1 : tasks k1 !! malloc_ret (dom (tasks k)) = Some t)
    by (rewrite T; apply lookup_insert_eq).
  unfold task_set_entry, task_stack_push. run.
  eexists _, _. split; [reflexivity|]. cbn. by rewrite lookup_insert_eq.
Qed.

(** The failing input of C2 on the reference platform: a kernel task
    ([user = false]) spawned with an argument vector comes out marked as a
    user task inside the kernel's address space. *)
Example task_spawn_with_argv_kernel_task :
  match task_spawn_with_argv None "init" 4096 ["sh"%string] false Reference.boot with
  | Done task k' =>
      t_user <$> tasks k' !! task = Some true
      ∧ t_pdir <$> tasks k' !! task = Some memory_kpdir
  | _ => False
  end.
Proof. vm_compute. split; reflexivity. Qed.

(** ** Blocking *)

(** The state in which [can_unblock] and the hook are called: the blocker is
    installed and the atomic section is open. *)
Definition installed `{Externals} (task blocker : ptr) (t : Task) (k : Kernel) : Kernel :=
  set_tasks <[task := with_blocker (Some blocker) t]> (set_atomic_depth S k).

(** Memory after the optional hook. *)
Definition hook_memory `{Externals} (b : Blocker) (v : View) (task : ptr)
  : option (gmap Z Z) :=
  match b_on_unblock b with
  | Some hook => hook v task
  | None => Some (v_memory v)
  end.

Definition block_deadline `{Externals} (timeout : Z) (k : Kernel) : Z :=
  if bool_decide (wrap32 timeout = TIMEOUT_NONE) then TIMEOUT_NONE
  else wrap32 (wrap32 (tick k) + timeout).

(** The state in which [task_block] suspends. *)
Definition blocked `{Externals} (task blocker : ptr) (t : Task) (b : Blocker)
    (timeout : Z) (k : Kernel) : Kernel :=
  log EvSchedulerYield
    (log (EvSchedulerDidChangeTaskState task (t_state t) TASK_STATE_BLOCKED)
       (set_tasks
          <[task := with_state TASK_STATE_BLOCKED (with_blocker (Some blocker) t)]>
          (set_blockers <[blocker := with_timeout (block_deadline timeout k) b]> k))).

(** What [task_block] does when the scheduler hands control back in [k']. *)
Definition resumed `{Externals} (task blocker : ptr) (k' : Kernel)
  : Outcome BlockerResult :=
  match blockers k' !! blocker with
  | Some b' =>
      match tasks k' !! task with
      | Some t' =>
          Done (b_result b')
            (set_tasks <[task := with_blocker None t']>
               (set_blockers (delete blocker) k'))
      | None => Abort INVALID_POINTER
      end
  | None => Abort INVALID_POINTER
  end.

Lemma with_blocker_None_id `{Externals} (t : Task) b :
  t_blocker t = None → with_blocker None (with_blocker b t) = t.
Proof. destruct t; cbn; intros ->; done. Qed.

Lemma task_block_fast `{Externals} (k : Kernel) task t blocker b timeout m' :
  tasks k !! task = Some t →
  t_blocker t = None →
  blockers k !! blocker = Some b →
  b_can_unblock b (view (installed task blocker t k)) task = Some true →
  hook_memory b (view (installed task blocker t k)) task = Some m' →
  task_block task blocker timeout k
  = Done BLOCKER_UNBLOCKED (set_blockers (delete blocker) (set_memory (λ _, m') k)).
Proof.
  intros E N B C M. unfold task_block. run.
  unfold call_can_unblock. unfold installed in C, M. rewrite C. cbn.
  unfold hook_memory in M. unfold call_on_unblock.
  destruct (b_on_unblock b) as [hook|]; run.
  - rewrite M. run. f_equal. kernel_eq.
    rewrite insert_insert_eq, with_blocker_None_id by done. by apply insert_id.
  - injection M as <-. f_equal. kernel_eq.
    rewrite insert_insert_eq, with_blocker_None_id by done. by apply insert_id.
Qed.

Lemma task_block_slow `{Externals} (k : Kernel) task t blocker b timeout :
  tasks k !! task = Some t →
  t_blocker t = None →
  blockers k !! blocker = Some b →
  b_can_unblock b (view (installed task blocker t k)) task = Some false →
  ∃ resume,
    task_block task blocker timeout k
    = Yield (blocked task blocker t b timeout k) resume
    ∧ ∀ k', resume k' = resumed task blocker k'.
Proof.
  intros E N B C. unfold task_block. run.
  unfold call_can_unblock. unfold installed in C. rewrite C. cbn.
  unfold task_set_state, scheduler_yield, blocked, block_deadline.
  destruct (bool_decide (wrap32 timeout = TIMEOUT_NONE)) eqn:T; run.
  all: eexists; split;
    [f_equal; kernel_eq; apply insert_insert_eq
    |intros k'; unfold resumed; cbn;
     destruct (blockers k' !! blocker); [|done]; cbn;
     by destruct (tasks k' !! task)].
Qed.

Lemma task_block_occupied `{Externals} (k : Kernel) task t blocker timeout b0 :
  tasks k !! task = Some t →
  t_blocker t = Some b0 →
  task_block task blocker timeout k = Abort ASSERT_FAILED.
Proof. intros E N. unfold task_block. by run. Qed.

(** C3: when [can_unblock] answers true at installation, [task_block] runs
    the hook if there is one, empties the blocker slot, frees the blocker and
    returns UNBLOCKED at once: it does not reach [scheduler_yield], reports no
    transition, and leaves every task, the blocked one included, as it was. *)
Theorem task_block_fast_path `{Externals} (k : Kernel) task t blocker b timeout m' :
  tasks k !! task = Some t →
  t_blocker t = None →
  blockers k !! blocker = Some b →
  b_can_unblock b (view (installed task blocker t k)) task = Some true →
  hook_memory b (view (installed task blocker t k)) task = Some m' →
  ∃ k',
    task_block task blocker timeout k = Done BLOCKER_UNBLOCKED k'
    ∧ memory k' = m'
    ∧ (b_on_unblock b = None → memory k' = memory k)
    ∧ tasks k' = tasks k
    ∧ (∃ t', tasks k' !! task = Some t'
             ∧ t_blocker t' = None ∧ t_state t' = t_state t)
    ∧ blockers k' = delete blocker (blockers k)
    ∧ blockers k' !! blocker = None
    ∧ trace k' = trace k
    ∧ atomic_depth k' = atomic_depth k.
Proof.
  intros E N B C M. eexists. split; [by eapply task_block_fast|]. cbn.
  split; [done|]. split.
  { intros Hn. unfold hook_memory in M. rewrite Hn in M. by injection M as <-. }
  split; [done|]. split; [by exists t|].
  split; [done|]. split; [apply lookup_delete_eq|]. done.
Qed.

Lemma task_block_fast_path_witness :
  let k := set_blockers <[5%positive := Reference.ready_blocker]>
             (Reference.one_task TASK_STATE_RUNNING None) in
  ∃ k',
    task_block 1%positive 5%positive 30 k = Done BLOCKER_UNBLOCKED k'
    ∧ memory k' = {[ 100 := 1 ]}
    ∧ (b_on_unblock Reference.ready_blocker = None → memory k' = memory k)
    ∧ tasks k' = tasks k
    ∧ (∃ t', tasks k' !! 1%positive = Some t'
             ∧ t_blocker t' = None ∧ t_state t' = TASK_STATE_RUNNING)
    ∧ blockers k' = delete 5%positive (blockers k)
    ∧ blockers k' !! 5%positive = None
    ∧ trace k' = trace k
    ∧ atomic_depth k' = atomic_depth k.
Proof.
  apply (task_block_fast_path
           (set_blockers <[5%positive := Reference.ready_blocker]>
              (Reference.one_task TASK_STATE_RUNNING None))
           1%positive (Reference.sample_task 0 TASK_STATE_RUNNING None [])
           5%positive Reference.ready_blocker 30 {[ 100 := 1 ]});
    reflexivity.
Defined.

(** ** Sleeping and waiting *)

(** [always P o]: however the scheduler resumes it, every way in which [o]
    returns satisfies [P]. *)
Fixpoint always `{Externals} {A} (P : A → Kernel → Prop) (o : Outcome A) : Prop :=
  match o with
  | Done a k => P a k
  | Yield _ resume => ∀ k', always P (resume k')
  | Abort _ => True
  end.

Lemma always_then_ret `{Externals} {A B} (o : Outcome A) (c : B) :
  always (λ r _, r = c) (bind_outcome o (λ _, ret c)).
Proof. induction o as [a k|k resume IH|why]; cbn; auto. Qed.

Definition time_blocker `{Externals} (wakeup_tick : Z) : Blocker :=
  {| b_result := BLOCKER_UNBLOCKED;
     b_timeout := 0;
     b_can_unblock := λ v _, Some (bool_decide (wakeup_tick ≤ v_tick v));
     b_on_unblock := None |}.

Lemma blocker_time_create_run `{Externals} (k : Kernel) wakeup_tick :
  blocker_time_create wakeup_tick k
  = Done (malloc_ret (dom (blockers k)))
      (set_blockers <[malloc_ret (dom (blockers k)) := time_blocker wakeup_tick]> k).
Proof. reflexivity. Qed.

Lemma malloc_ret_free `{Externals} {V} (m : gmap ptr V) :
  m !! malloc_ret (dom m) = None.
Proof. apply not_elem_of_dom, malloc_ret_fresh. Qed.

Lemma task_sleep_fast `{Externals} (k : Kernel) task t timeout :
  tasks k !! task = Some t →
  t_blocker t = None →
  wrap32 (wrap32 (tick k) + timeout) ≤ wrap32 (tick k) →
  task_sleep task timeout k = Done TIMEOUT k.
Proof.
  intros E N D. unfold task_sleep.
  rewrite (bind_run system_get_tick _ k (wrap32 (tick k)) k) by done.
  erewrite bind_run by apply blocker_time_create_run.
  set (blocker := malloc_ret _). set (k1 := set_blockers _ k).
  rewrite (bind_run _ _ k1 BLOCKER_UNBLOCKED
             (set_blockers (delete blocker) (set_memory (λ _, memory k) k1))).
  - unfold ret. f_equal. subst k1. kernel_eq.
    apply delete_insert_id, malloc_ret_free.
  - apply (task_block_fast k1 task t blocker
             (time_blocker (wrap32 (wrap32 (tick k) + timeout)))); try done.
    + subst k1. cbn. apply lookup_insert_eq.
    + cbn. by rewrite bool_decide_eq_true_2.
Qed.

Lemma task_sleep_slow `{Externals} (k : Kernel) task t timeout :
  tasks k !! task = Some t →
  t_blocker t = None →
  wrap32 (tick k) < wrap32 (wrap32 (tick k) + timeout) →
  let blocker := malloc_ret (dom (blockers k)) in
  let b := time_blocker (wrap32 (wrap32 (tick k) + timeout)) in
  ∃ resume,
    task_sleep task timeout k
    = Yield (blocked task blocker t b (-1) (set_blockers <[blocker := b]> k)) resume
    ∧ ∀ k', resume k' = bind_outcome (resumed task blocker k') (λ _, ret TIMEOUT).
Proof.
  intros E N D blocker b. unfold task_sleep.
  rewrite (bind_run system_get_tick _ k (wrap32 (tick k)) k) by done.
  erewrite bind_run by apply blocker_time_create_run.
  fold blocker. fold b. set (k1 := set_blockers _ k).
  destruct (task_block_slow k1 task t blocker b (-1)) as (resume & R & Hres);
    try done.
  - subst k1. cbn. apply lookup_insert_eq.
  - cbn. by rewrite bool_decide_eq_false_2 by lia.
  - unfold bind. rewrite R. cbn. eexists. split; [reflexivity|].
    intros k'. cbn. by rewrite Hres.
Qed.

(** C4: [task_sleep] answers TIMEOUT whichever way it completes.  If the
    deadline is already reached (always so for a timeout of 0) it returns at
    once and leaves the kernel as it found it; otherwise it suspends, and when
    resumed it returns TIMEOUT whatever [result] the scheduler left in the
    time blocker. *)
Theorem task_sleep_returns_TIMEOUT `{Externals} (k : Kernel) task t timeout :
  tasks k !! task = Some t →
  t_blocker t = None →
  let blocker := malloc_ret (dom (blockers k)) in
  always (λ r _, r = TIMEOUT) (task_sleep task timeout k)
  ∧ (wrap32 (wrap32 (tick k) + timeout) ≤ wrap32 (tick k) →
     task_sleep task timeout k = Done TIMEOUT k)
  ∧ (wrap32 (tick k) < wrap32 (wrap32 (tick k) + timeout) →
     ∃ k1 resume,
       task_sleep task timeout k = Yield k1 resume
       ∧ (∃ t1, tasks k1 !! task = Some t1 ∧ t_blocker t1 = Some blocker)
       ∧ ∀ k' b' t' result,
           blockers k' !! blocker = Some b' →
           b_result b' = result →
           tasks k' !! task = Some t' →
           ∃ kf, resume k' = Done TIMEOUT kf)
  ∧ task_sleep task 0 k = Done TIMEOUT k.
Proof.
  intros E N blocker. split; [|split; [|split]].
  - unfold task_sleep, bind at 1 2. cbn. unfold bind. apply always_then_ret.
  - apply (task_sleep_fast k task t timeout E N).
  - intros D. destruct (task_sleep_slow k task t timeout E N D) as (resume & R & Hres).
    eexists _, resume. split; [done|]. split.
    + eexists. split; [apply lookup_insert_eq|done].
    + intros k' b' t' result B' _ T'. rewrite Hres. unfold resumed.
      unfold blocker in B'. rewrite B', T'. cbn. by eexists.
  - apply (task_sleep_fast k task t 0 E N).
    unfold wrap32. rewrite Z.add_0_r, Z.mod_mod by done. done.
Qed.

Lemma task_sleep_returns_TIMEOUT_witness :
  let k := Reference.one_task TASK_STATE_RUNNING None in
  let blocker := malloc_ret (dom (blockers k)) in
  always (λ r _, r = TIMEOUT) (task_sleep 1%positive 50 k)
  ∧ (wrap32 (wrap32 (tick k) + 50) ≤ wrap32 (tick k) →
     task_sleep 1%positive 50 k = Done TIMEOUT k)
  ∧ (wrap32 (tick k) < wrap32 (wrap32 (tick k) + 50) →
     ∃ k1 resume,
       task_sleep 1%positive 50 k = Yield k1 resume
       ∧ (∃ t1, tasks k1 !! 1%positive = Some t1 ∧ t_blocker t1 = Some blocker)
       ∧ ∀ k' b' t' result,
           blockers k' !! blocker = Some b' →
           b_result b' = result →
           tasks k' !! 1%positive = Some t' →
           ∃ kf, resume k' = Done TIMEOUT kf)
  ∧ task_sleep 1%positive 0 k = Done TIMEOUT k.
Proof.
  apply (task_sleep_returns_TIMEOUT (Reference.one_task TASK_STATE_RUNNING None)
           1%positive (Reference.sample_task 0 TASK_STATE_RUNNING None []) 50);
    reflexivity.
Defined.

(** Every cell of the task registry points to a live task. *)
Definition registry_live `{Externals} (k : Kernel) : Prop :=
  Forall (λ p, is_Some (tasks k !! p)) (all_tasks k).

(** The first registered task with the given id. *)
Definition first_with_id `{Externals} (heap : gmap ptr Task) (id : Z)
  : list ptr → option ptr :=
  fix go l :=
    match l with
    | [] => None
    | p :: l' =>
        match heap !! p with
        | Some t => if bool_decide (t_id t = id) then Some p else go l'
        | None => None
        end
    end.

Lemma task_by_id_loop_run `{Externals} (k : Kernel) id l :
  Forall (λ p, is_Some (tasks k !! p)) l →
  task_by_id_loop id l k = Done (first_with_id (tasks k) id l) k.
Proof.
  induction 1 as [|p l [t E] _ IH]; [done|].
  cbn. run. by destruct (bool_decide (t_id t = id)).
Qed.

Lemma task_by_id_run `{Externals} (k : Kernel) id :
  registry_live k →
  task_by_id id k = Done (first_with_id (tasks k) id (all_tasks k)) k.
Proof. intros L. unfold task_by_id. run. by apply task_by_id_loop_run. Qed.

Lemma first_with_id_None `{Externals} (heap : gmap ptr Task) id l :
  (∀ p t, p ∈ l → heap !! p = Some t → t_id t ≠ id) →
  Forall (λ p, is_Some (heap !! p)) l →
  first_with_id heap id l = None.
Proof.
  intros Hno. induction 1 as [|p l [t E] _ IH]; [done|].
  cbn. rewrite E, bool_decide_eq_false_2.
  - apply IH. intros q tq Hq. apply Hno. by right.
  - eapply Hno; [left|done].
Qed.

Lemma first_with_id_Some `{Externals} (heap : gmap ptr Task) id l p :
  first_with_id heap id l = Some p →
  p ∈ l ∧ ∃ t, heap !! p = Some t ∧ t_id t = id.
Proof.
  induction l as [|q l IH]; [done|]. cbn.
  destruct (heap !! q) as [t|] eqn:E; [|done]. case_bool_decide as Hid.
  - intros [= <-]. split; [left|by exists t].
  - intros Hp. destruct (IH Hp) as [? ?]. split; [by right|done].
Qed.

Lemma first_with_id_present `{Externals} (heap : gmap ptr Task) id l p t :
  Forall (λ p, is_Some (heap !! p)) l →
  p ∈ l → heap !! p = Some t → t_id t = id →
  is_Some (first_with_id heap id l).
Proof.
  induction 1 as [|q l [tq E] _ IH]; intros Hp Ht Hid; [by apply elem_of_nil in Hp|].
  cbn. rewrite E. case_bool_decide; [done|].
  apply elem_of_cons in Hp as [->|Hp]; [congruence|]. by apply IH.
Qed.

Definition wait_blocker `{Externals} (target : ptr) (exit_value : Z) : Blocker :=
  {| b_result := BLOCKER_UNBLOCKED;
     b_timeout := 0;
     b_can_unblock := λ v _,
       match v_tasks v !! target with
       | Some t => Some (bool_decide (t_state t = TASK_STATE_CANCELED))
       | None => None
       end;
     b_on_unblock := Some (λ v _,
       match v_tasks v !! target with
       | Some t => Some (store_bytes exit_value (le_bytes 4 (t_exit_value t)) (v_memory v))
       | None => None
       end) |}.

Lemma blocker_wait_create_run `{Externals} (k : Kernel) target exit_value :
  blocker_wait_create target exit_value k
  = Done (malloc_ret (dom (blockers k)))
      (set_blockers <[malloc_ret (dom (blockers k)) := wait_blocker target exit_value]> k).
Proof. reflexivity. Qed.

Lemma atomic_balance `{Externals} (k : Kernel) :
  set_atomic_depth Nat.pred (set_atomic_depth S k) = k.
Proof. by destruct k. Qed.

Lemma task_wait_unknown `{Externals} (k : Kernel) id exit_value :
  registry_live k →
  first_with_id (tasks k) id (all_tasks k) = None →
  task_wait id exit_value k = Done ERR_NO_SUCH_TASK k.
Proof.
  intros L F. unfold task_wait.
  rewrite (bind_run atomic_begin _ k () (set_atomic_depth S k)) by done.
  rewrite (bind_run _ _ _ _ _ (task_by_id_run (set_atomic_depth S k) id L)).
  cbn [tasks all_tasks set_atomic_depth]. rewrite F.
  unfold bind, ret, atomic_end, modify. cbn [bind_outcome].
  by rewrite atomic_balance.
Qed.

Lemma task_wait_known `{Externals} (k : Kernel) id exit_value target :
  registry_live k →
  first_with_id (tasks k) id (all_tasks k) = Some target →
  task_wait id exit_value k
  = match running k with
    | None => Abort INVALID_POINTER
    | Some current =>
        let blocker := malloc_ret (dom (blockers k)) in
        bind_outcome
          (task_block current blocker (-1)
             (set_blockers <[blocker := wait_blocker target exit_value]> k))
          (λ _, ret SUCCESS)
    end.
Proof.
  intros L F. unfold task_wait.
  rewrite (bind_run atomic_begin _ k () (set_atomic_depth S k)) by done.
  rewrite (bind_run _ _ _ _ _ (task_by_id_run (set_atomic_depth S k) id L)).
  cbn [tasks all_tasks set_atomic_depth]. rewrite F.
  rewrite (bind_run atomic_end _ _ () k) by (unfold atomic_end, modify; by rewrite atomic_balance).
  rewrite (bind_run scheduler_running _ k (running k) k) by done.
  destruct (running k) as [current|]; [|done].
  erewrite bind_run by apply blocker_wait_create_run. done.
Qed.

(** C5: [task_wait] answers NO_SUCH_TASK, with the kernel state untouched,
    when no registered task has the id; when one has, it never answers
    NO_SUCH_TASK: it puts a wait blocker for that task on the running task
    and returns SUCCESS, at once if the target is already CANCELED and after
    the suspension otherwise. *)
Theorem task_wait_spec `{Externals} (k : Kernel) (id exit_value : Z) :
  registry_live k →
  ((∀ p t, p ∈ all_tasks k → tasks k !! p = Some t → t_id t ≠ id) →
   task_wait id exit_value k = Done ERR_NO_SUCH_TASK k)
  ∧ (∀ p t, p ∈ all_tasks k → tasks k !! p = Some t → t_id t = id →
     always (λ r _, r = SUCCESS) (task_wait id exit_value k)
     ∧ ∀ current tc,
         running k = Some current →
         tasks k !! current = Some tc →
         t_blocker tc = None →
         let blocker := malloc_ret (dom (blockers k)) in
         ∃ target tt,
           target ∈ all_tasks k ∧ tasks k !! target = Some tt ∧ t_id tt = id
           ∧ (t_state tt = TASK_STATE_CANCELED →
              task_wait id exit_value k
              = Done SUCCESS
                  (set_memory (store_bytes exit_value (le_bytes 4 (t_exit_value tt))) k))
           ∧ (t_state tt ≠ TASK_STATE_CANCELED →
              ∃ k1 resume,
                task_wait id exit_value k = Yield k1 resume
                ∧ (∃ t1, tasks k1 !! current = Some t1
                         ∧ t_blocker t1 = Some blocker
                         ∧ t_state t1 = TASK_STATE_BLOCKED)
                ∧ (∃ b1, blockers k1 !! blocker = Some b1
                         ∧ b_timeout b1 = TIMEOUT_NONE
                         ∧ b_can_unblock b1 = b_can_unblock (wait_blocker target exit_value))
                ∧ ∀ k' b' t',
                    blockers k' !! blocker = Some b' →
                    tasks k' !! current = Some t' →
                    ∃ kf, resume k' = Done SUCCESS kf)).
Proof.
  intros L. split.
  { intros Hno. apply task_wait_unknown; [done|]. by apply first_with_id_None. }
  intros p t Hp Ht Hid.
  destruct (first_with_id_present (tasks k) id (all_tasks k) p t L Hp Ht Hid)
    as [target F].
  destruct (first_with_id_Some _ _ _ _ F) as (Htarget & tt & Htt & Hidt).
  rewrite (task_wait_known k id exit_value target L F). split.
  { destruct (running k); [|done]. apply always_then_ret. }
  intros current tc -> Hc Hb. cbn zeta. exists target, tt.
  split; [done|]. split; [done|]. split; [done|].
  set (blocker := malloc_ret (dom (blockers k))).
  set (k1 := set_blockers <[blocker := wait_blocker target exit_value]> k).
  assert (Hview : ∃ tt', tasks (installed current blocker tc k1) !! target = Some tt'
                         ∧ t_state tt' = t_state tt
                         ∧ t_exit_value tt' = t_exit_value tt).
  { unfold installed. cbn. destruct (decide (target = current)) as [->|Hne].
    - rewrite lookup_insert_eq. eexists. split; [done|].
      assert (tc = tt) as -> by congruence. done.
    - rewrite lookup_insert_ne by done. by exists tt. }
  destruct Hview as (tt' & Hv & Hs & He).
  assert (Hbl : blockers k1 !! blocker = Some (wait_blocker target exit_value))
    by (subst k1; cbn; apply lookup_insert_eq).
  split.
  - intros Hcanceled.
    rewrite (task_block_fast k1 current tc blocker (wait_blocker target exit_value) (-1)
               (store_bytes exit_value (le_bytes 4 (t_exit_value tt)) (memory k)));
      try done.
    + cbn. unfold ret. f_equal. subst k1. kernel_eq.
      apply delete_insert_id, malloc_ret_free.
    + cbn in Hv |- *. rewrite Hv. by rewrite bool_decide_eq_true_2 by congruence.
    + unfold hook_memory. cbn in Hv |- *. rewrite Hv. by rewrite He.
  - intros Hlive.
    destruct (task_block_slow k1 current tc blocker
                (wait_blocker target exit_value) (-1)) as (resume & R & Hres);
      try done.
    + cbn in Hv |- *. rewrite Hv. by rewrite bool_decide_eq_false_2 by congruence.
    + rewrite R. cbn. eexists _, _. split; [reflexivity|]. split; [|split].
      * eexists. split; [apply lookup_insert_eq|done].
      * eexists. split; [apply lookup_insert_eq|done].
      * intros k' b' t' B' T'. cbn. rewrite Hres. unfold resumed.
        rewrite B', T'. cbn. by eexists.
Qed.

Lemma two_tasks_registry_live : registry_live Reference.two_tasks.
Proof. repeat constructor; by eexists. Qed.

Lemma task_wait_spec_witness :
  task_wait 7 200 Reference.two_tasks = Done ERR_NO_SUCH_TASK Reference.two_tasks
  ∧ task_wait 1 200 Reference.two_tasks
    = Done SUCCESS
        (set_memory (store_bytes 200 (le_bytes 4 42)) Reference.two_tasks).
Proof.
  split.
  - apply (task_wait_spec Reference.two_tasks 7 200 two_tasks_registry_live).
    intros p t [->|[->|Hp%elem_of_nil]%elem_of_cons]%elem_of_cons; [| |done];
      intros [= <-]; done.
  - destruct (task_wait_spec Reference.two_tasks 1 200 two_tasks_registry_live)
      as [_ Hknown].
    destruct (Hknown 2%positive
                (with_exit_value 42
                   (Reference.sample_task 1 TASK_STATE_CANCELED None [])))
      as [_ Hrun]; [right; left|reflexivity|reflexivity|].
    destruct (Hrun 1%positive
                (Reference.sample_task 0 TASK_STATE_RUNNING None [])
                eq_refl eq_refl eq_refl)
      as (target & tt & Hin & Htt & Hid & Hfast & _).
    apply elem_of_cons in Hin as [->|Hin].
    { injection Htt as <-. discriminate Hid. }
    apply list_elem_of_singleton in Hin as ->. injection Htt as <-.
    apply Hfast. reflexivity.
Defined.

(** ** Changing the working directory *)

(** The path [task_cwd_resolve] computes for [text] when the task's cwd is [cwd]. *)
Definition resolved `{Externals} (cwd : Path) (text : string) : Path :=
  if path_is_relative (path_create text)
  then path_normalize (path_combine cwd (path_create text))
  else path_normalize (path_create text).

(** [task_set_cwd] once the path is resolved: look the node up, and swap the
    cwd if it is a directory. *)
Definition change_cwd `{Externals} (task : ptr) (t : Task) (path : Path) (k : Kernel)
  : Outcome Result :=
  let node := filesystem_find_and_ref_ret (trace k) path in
  let k1 := log (EvFilesystemFindAndRef path node) k in
  match node with
  | None => Done ERR_NO_SUCH_FILE_OR_DIRECTORY k1
  | Some (node, type) =>
      if bool_decide (type ≠ FILE_TYPE_DIRECTORY)
      then Done ERR_NOT_A_DIRECTORY (log (EvFsnodeDeref node) k1)
      else Done SUCCESS
             (log (EvFsnodeDeref node)
                (set_tasks <[task := with_cwd_path path t]> k1))
  end.

Lemma with_cwd_lock_release `{Externals} (t : Task) :
  t_cwd_lock t = false → with_cwd_lock false (with_cwd_lock true t) = t.
Proof. destruct t; cbn; intros ->; done. Qed.

Lemma task_cwd_resolve_run `{Externals} (k : Kernel) task t text :
  tasks k !! task = Some t →
  t_cwd_lock t = false →
  task_cwd_resolve task text k = Done (resolved (t_cwd_path t) text) k.
Proof.
  intros E L. unfold task_cwd_resolve, resolved.
  destruct (path_is_relative (path_create text)); run; [|done].
  f_equal. kernel_eq.
  rewrite insert_insert_eq, with_cwd_lock_release by done. by apply insert_id.
Qed.

Lemma task_set_cwd_run `{Externals} (k : Kernel) task t text :
  tasks k !! task = Some t →
  t_cwd_lock t = false →
  task_set_cwd task text k = change_cwd task t (resolved (t_cwd_path t) text) k.
Proof.
  intros E L. unfold task_set_cwd.
  rewrite (bind_run _ _ _ _ _ (task_cwd_resolve_run k task t text E L)).
  unfold change_cwd. run.
  destruct (filesystem_find_and_ref_ret (trace k) _) as [[node type]|]; [|done].
  destruct (bool_decide (type ≠ FILE_TYPE_DIRECTORY)); run; [done|].
  f_equal. kernel_eq. rewrite !insert_insert_eq. f_equal.
  destruct t; cbn in *. by subst.
Qed.

(** C9: [task_cwd_resolve] combines a relative input with the task's cwd and
    normalizes, and only normalizes an absolute one.  Hence [task_set_cwd] on
    a relative text does exactly what it does on any absolute text that
    denotes [normalize (combine old_cwd rel)]: same lookup, same answer, same
    new cwd. *)
Theorem task_set_cwd_relative `{Externals} (k : Kernel) task t :
  tasks k !! task = Some t →
  t_cwd_lock t = false →
  (∀ text,
     task_cwd_resolve task text k
     = Done (if path_is_relative (path_create text)
             then path_normalize (path_combine (t_cwd_path t) (path_create text))
             else path_normalize (path_create text)) k)
  ∧ (∀ rel,
       path_is_relative (path_create rel) = true →
       task_set_cwd task rel k
       = change_cwd task t
           (path_normalize (path_combine (t_cwd_path t) (path_create rel))) k)
  ∧ (∀ rel text,
       path_is_relative (path_create rel) = true →
       path_is_relative (path_create text) = false →
       path_normalize (path_create text)
       = path_normalize (path_combine (t_cwd_path t) (path_create rel)) →
       task_set_cwd task rel k = task_set_cwd task text k).
Proof.
  intros E L. split; [|split].
  - intros text. by apply task_cwd_resolve_run.
  - intros rel R. rewrite (task_set_cwd_run k task t rel E L).
    unfold resolved. by rewrite R.
  - intros rel text R A N.
    rewrite (task_set_cwd_run k task t rel E L), (task_set_cwd_run k task t text E L).
    unfold resolved. by rewrite R, A, N.
Qed.

Lemma task_set_cwd_relative_witness :
  let k := set_tasks
             <[1%positive := with_cwd_path (false, ["home"%string])
                               (Reference.sample_task 0 TASK_STATE_RUNNING None [])]>
             (Reference.one_task TASK_STATE_RUNNING None) in
  task_set_cwd 1%positive "motd/../." k = task_set_cwd 1%positive "/home" k
  ∧ task_cwd_resolve 1%positive "motd" k = Done (false, ["home"; "motd"]%string) k.
Proof.
  pose proof (task_set_cwd_relative
    (set_tasks
       <[1%positive := with_cwd_path (false, ["home"%string])
                         (Reference.sample_task 0 TASK_STATE_RUNNING None [])]>
       (Reference.one_task TASK_STATE_RUNNING None))
    1%positive
    (with_cwd_path (false, ["home"%string])
       (Reference.sample_task 0 TASK_STATE_RUNNING None []))
    eq_refl eq_refl) as (Hresolve & _ & Hequiv).
  split.
  - apply Hequiv; reflexivity.
  - apply (Hresolve "motd"%string).
Defined.

(** ** Shared memory: counting references *)

(** How many mappings of a list refer to the object at [o]. *)
Definition references (o : ptr) (l : list MemoryMapping) : nat :=
  length (filter (λ m, mm_object m = o) l).

(** How many mappings, over all tasks, refer to the object at [o]. *)
Definition mapping_count `{Externals} (heap : gmap ptr Task) (o : ptr) : nat :=
  map_fold (λ _ t n, (references o (t_memory_mapping t) + n)%nat) 0%nat heap.

(** How many of the references in flight refer to [o]. *)
Definition held_count (o : ptr) (held : list ptr) : nat :=
  length (filter (λ p, p = o) held).

Global Arguments references : simpl never.
Global Arguments mapping_count : simpl never.
Global Arguments held_count : simpl never.

Lemma held_count_nil o : held_count o [] = 0%nat.
Proof. done. Qed.

Lemma references_app o l m :
  references o (l ++ [m])
  = (references o l + (if decide (mm_object m = o) then 1 else 0))%nat.
Proof.
  unfold references. rewrite filter_app, length_app. f_equal.
  rewrite filter_cons, filter_nil. by destruct (decide (mm_object m = o)).
Qed.

Lemma references_remove o l m :
  m ∈ l →
  references o l
  = (references o (list_remove m l) + (if decide (mm_object m = o) then 1 else 0))%nat.
Proof.
  unfold references. induction l as [|x l IH]; intros Hm.
  { by apply elem_of_nil in Hm. }
  cbn [list_remove]. destruct (decide (x = m)) as [->|Hne].
  - rewrite filter_cons. destruct (decide (mm_object m = o)); cbn; lia.
  - apply elem_of_cons in Hm as [->|Hm]; [done|].
    rewrite !filter_cons. specialize (IH Hm).
    destruct (decide (mm_object x = o)); cbn; lia.
Qed.

Lemma references_pos o l m :
  m ∈ l → mm_object m = o → (0 < references o l)%nat.
Proof.
  intros Hm Ho. rewrite (references_remove o l m Hm).
  rewrite decide_True by done. lia.
Qed.

Lemma elem_of_list_remove {A} `{EqDecision A} (x y : A) (l : list A) :
  x ∈ list_remove y l → x ∈ l.
Proof.
  induction l as [|z l IH]; [done|]. cbn.
  destruct (decide (z = y)); [by right|].
  intros [->|Hx]%elem_of_cons; [left|right; auto].
Qed.

Lemma elem_of_list_remove_ne {A} `{EqDecision A} (x y : A) (l : list A) :
  x ≠ y → x ∈ l → x ∈ list_remove y l.
Proof.
  intros Hne. induction l as [|z l IH]; [done|]. cbn.
  intros [->|Hx]%elem_of_cons.
  - rewrite decide_False by done. left.
  - destruct (decide (z = y)); [done|]. right. auto.
Qed.

Lemma list_remove_NoDup {A} `{EqDecision A} (y : A) (l : list A) :
  NoDup l → NoDup (list_remove y l) ∧ y ∉ list_remove y l.
Proof.
  induction 1 as [|z l Hz Hl IH]; cbn.
  { split; [constructor|apply not_elem_of_nil]. }
  destruct (decide (z = y)) as [->|Hne]; [done|].
  destruct IH as [IH1 IH2]. split.
  - constructor; [|done]. intros Hin. by apply Hz, (elem_of_list_remove _ y).
  - intros [->|Hin]%elem_of_cons; done.
Qed.

Lemma mapping_count_lookup `{Externals} (heap : gmap ptr Task) task t o :
  heap !! task = Some t →
  mapping_count heap o
  = (references o (t_memory_mapping t) + mapping_count (delete task heap) o)%nat.
Proof.
  intros E. unfold mapping_count.
  apply (map_fold_delete_L
           (λ _ t n, (references o (t_memory_mapping t) + n)%nat) 0%nat task t heap);
    [|done].
  intros. lia.
Qed.

Lemma mapping_count_insert `{Externals} (heap : gmap ptr Task) task t' o :
  mapping_count (<[task := t']> heap) o
  = (references o (t_memory_mapping t') + mapping_count (delete task heap) o)%nat.
Proof.
  rewrite <-(insert_delete_eq heap). unfold mapping_count.
  apply (map_fold_insert_L
           (λ _ t n, (references o (t_memory_mapping t) + n)%nat) 0%nat task t'
           (delete task heap)).
  - intros. lia.
  - apply lookup_delete_eq.
Qed.

Lemma mapping_count_pos `{Externals} (heap : gmap ptr Task) task t m :
  heap !! task = Some t → m ∈ t_memory_mapping t →
  (0 < mapping_count heap (mm_object m))%nat.
Proof.
  intros E Hm. rewrite (mapping_count_lookup heap task t _ E).
  pose proof (references_pos (mm_object m) _ m Hm eq_refl). lia.
Qed.

(** ** Shared memory: the invariant

    [held] lists the references that are not a mapping's: the creator's
    reference after [memory_object_create], and the one a
    [memory_object_by_id] lookup hands out, until the matching
    [memory_object_deref]. *)
Record shm_inv `{Externals} (held : list ptr) (k : Kernel) : Prop := {
  shm_unlocked : _memory_objects_lock k = false;
  shm_refcount : ∀ o obj,
    objects k !! o = Some obj →
    mo_refcount obj = Z.of_nat (mapping_count (tasks k) o + held_count o held);
  shm_mapped : ∀ task t m,
    tasks k !! task = Some t → m ∈ t_memory_mapping t →
    is_Some (objects k !! mm_object m);
  shm_held : ∀ o, o ∈ held → is_Some (objects k !! o);
  shm_registered : ∀ o, o ∈ _memory_objects k ↔ is_Some (objects k !! o);
  shm_registry_NoDup : NoDup (_memory_objects k);
}.

Lemma held_count_cons o o' held :
  held_count o (o' :: held)
  = ((if decide (o' = o) then 1 else 0) + held_count o held)%nat.
Proof.
  unfold held_count. rewrite filter_cons. by destruct (decide (o' = o)).
Qed.

Lemma held_count_pos o held : o ∈ held → (0 < held_count o held)%nat.
Proof.
  induction held as [|x held IH]; [by intros ?%elem_of_nil|].
  rewrite held_count_cons. intros [->|Hin]%elem_of_cons.
  - rewrite decide_True by done. lia.
  - specialize (IH Hin). lia.
Qed.

Lemma references_zero o l :
  (∀ m, m ∈ l → mm_object m ≠ o) → references o l = 0%nat.
Proof.
  unfold references. induction l as [|x l IH]; intros Hno; [done|].
  rewrite filter_cons, decide_False by (apply Hno; left).
  apply IH. intros m Hm. apply Hno. by right.
Qed.

Lemma mapping_count_zero `{Externals} (heap : gmap ptr Task) o :
  (∀ task t m, heap !! task = Some t → m ∈ t_memory_mapping t → mm_object m ≠ o) →
  mapping_count heap o = 0%nat.
Proof.
  induction heap as [|task t heap Hnone IH] using map_ind; intros Hno.
  { unfold mapping_count. by rewrite map_fold_empty. }
  rewrite mapping_count_insert, delete_id by done. rewrite IH.
  - rewrite (references_zero o (t_memory_mapping t)); [done|].
    intros m Hm. eapply Hno; [apply lookup_insert_eq|done].
  - intros task' t' m E Hm. apply (Hno task' t' m); [|done].
    rewrite lookup_insert_ne; [done|]. intros ->. congruence.
Qed.

Lemma mapping_count_dead `{Externals} held (k : Kernel) o :
  shm_inv held k → objects k !! o = None → mapping_count (tasks k) o = 0%nat.
Proof.
  intros I E. apply mapping_count_zero. intros task t m Ht Hm Ho.
  destruct (shm_mapped held k I task t m Ht Hm) as [obj Hobj].
  rewrite Ho in Hobj. congruence.
Qed.

(** ** Shared memory: what each primitive does *)

Definition created_object `{Externals} (sz : Z) (k : Kernel) : MemoryObject :=
  {| mo_id := _memory_object_id k;
     mo_refcount := 1;
     mo_address := physical_alloc_ret (trace k) (PAGE_ALIGN_UP sz / PAGE_SIZE);
     mo_size := PAGE_ALIGN_UP sz |}.

Definition object_created `{Externals} (sz : Z) (k : Kernel) : Kernel :=
  let o := malloc_ret (dom (objects k)) in
  set_memory_objects (λ l, l ++ [o])
    (set_objects <[o := created_object sz k]>
       (log (EvPhysicalAlloc (PAGE_ALIGN_UP sz / PAGE_SIZE)
               (physical_alloc_ret (trace k) (PAGE_ALIGN_UP sz / PAGE_SIZE)))
          (set_memory_object_id (λ n, wrap_int (n + 1)) k))).

Lemma memory_object_create_run `{Externals} (k : Kernel) sz :
  _memory_objects_lock k = false →
  memory_object_create sz k = Done (malloc_ret (dom (objects k))) (object_created sz k).
Proof.
  intros L. unfold memory_object_create. run.
  f_equal. unfold object_created. kernel_eq.
Qed.

(** The state after the last reference but one, or the last, is dropped. *)
Definition dereferenced `{Externals} (o : ptr) (obj : MemoryObject) (k : Kernel) : Kernel :=
  if bool_decide (mo_refcount obj - 1 = 0) then
    set_objects (delete o)
      (log (EvPhysicalFree (mo_address obj) (PAGE_ALIGN_UP (mo_size obj) / PAGE_SIZE))
         (set_memory_objects (list_remove o) k))
  else set_objects <[o := with_refcount (λ n, n - 1) obj]> k.

Lemma memory_object_deref_run `{Externals} (k : Kernel) o obj :
  _memory_objects_lock k = false →
  objects k !! o = Some obj →
  memory_object_deref o k = Done () (dereferenced o obj k).
Proof.
  intros L E. unfold memory_object_deref, memory_object_destroy, dereferenced. run.
  destruct (bool_decide (mo_refcount obj - 1 = 0)) eqn:Z; run.
  - f_equal. kernel_eq. apply delete_insert_eq.
  - f_equal. kernel_eq.
Qed.

Definition created_mapping `{Externals} (t : Task) (o : ptr) (obj : MemoryObject)
    (k : Kernel) : MemoryMapping :=
  {| mm_object := o;
     mm_address :=
       base (virtual_alloc_ret (trace k) (t_pdir t)
               {| base := mo_address obj; size := mo_size obj |} MEMORY_USER);
     mm_size := mo_size obj |}.

Definition mapping_created `{Externals} (task : ptr) (t : Task) (o : ptr)
    (obj : MemoryObject) (k : Kernel) : Kernel :=
  set_tasks
    <[task := with_memory_mapping
                (t_memory_mapping t ++ [created_mapping t o obj k]) t]>
    (log (EvVirtualAlloc (t_pdir t) {| base := mo_address obj; size := mo_size obj |}
            MEMORY_USER
            (virtual_alloc_ret (trace k) (t_pdir t)
               {| base := mo_address obj; size := mo_size obj |} MEMORY_USER))
       (set_objects <[o := with_refcount (λ n, n + 1) obj]> k)).

Lemma task_memory_mapping_create_run `{Externals} (k : Kernel) task t o obj :
  tasks k !! task = Some t →
  objects k !! o = Some obj →
  task_memory_mapping_create task o k
  = Done (created_mapping t o obj k) (mapping_created task t o obj k).
Proof.
  intros T E. unfold task_memory_mapping_create, memory_object_ref. run. done.
Qed.

Definition mapping_destroyed `{Externals} (task : ptr) (t : Task) (m : MemoryMapping)
    (obj : MemoryObject) (k : Kernel) : Kernel :=
  set_tasks
    <[task := with_memory_mapping (list_remove m (t_memory_mapping t)) t]>
    (dereferenced (mm_object m) obj
       (log (EvVirtualFree (t_pdir t) {| base := mm_address m; size := mm_size m |}) k)).

Lemma task_memory_mapping_destroy_run `{Externals} (k : Kernel) task t m obj :
  _memory_objects_lock k = false →
  tasks k !! task = Some t →
  objects k !! mm_object m = Some obj →
  task_memory_mapping_destroy task m k = Done () (mapping_destroyed task t m obj k).
Proof.
  intros L T E. unfold task_memory_mapping_destroy.
  rewrite (bind_run _ _ _ _ _ (deref_task_live k task t T)).
  rewrite (bind_run (virtual_free _ _) _ k ()
             (log (EvVirtualFree (t_pdir t)
                     {| base := mm_address m; size := mm_size m |}) k)) by done.
  rewrite (bind_run _ _ _ _ _
             (memory_object_deref_run (log _ k) (mm_object m) obj L E)).
  unfold mapping_destroyed, dereferenced.
  destruct (bool_decide (mo_refcount obj - 1 = 0)); run; done.
Qed.

(** ** Shared memory: the primitives keep the invariant *)

Lemma held_count_zero o held : o ∉ held → held_count o held = 0%nat.
Proof.
  induction held as [|x held IH]; [done|]. intros Hno.
  rewrite held_count_cons, decide_False by (intros ->; apply Hno; left).
  apply IH. intros ?. apply Hno. by right.
Qed.

Lemma object_created_inv `{Externals} held (k : Kernel) sz :
  shm_inv held k →
  shm_inv (malloc_ret (dom (objects k)) :: held) (object_created sz k).
Proof.
  intros I. pose proof (malloc_ret_free (objects k)) as Hfresh.
  set (o := malloc_ret (dom (objects k))) in *.
  assert (Hheld : o ∉ held).
  { intros Hin. destruct (shm_held held k I o Hin) as [? ?]. congruence. }
  assert (Hreg : o ∉ _memory_objects k).
  { intros Hin. apply (shm_registered held k I) in Hin as [? ?]. congruence. }
  unfold object_created. fold o. split; cbn.
  - apply (shm_unlocked held k I).
  - intros o' obj'. rewrite held_count_cons.
    destruct (decide (o = o')) as [<-|Hne].
    + rewrite lookup_insert_eq. intros [= <-]. cbn.
      rewrite (mapping_count_dead held k o I Hfresh), held_count_zero by done. done.
    + rewrite lookup_insert_ne by done. intros E.
      by rewrite (shm_refcount held k I o' obj' E).
  - intros task t m Ht Hm. apply lookup_insert_is_Some'. right.
    by apply (shm_mapped held k I task t m).
  - intros o' [->|Hin]%elem_of_cons; apply lookup_insert_is_Some'; [by left|].
    right. by apply (shm_held held k I).
  - intros o'. rewrite elem_of_app, list_elem_of_singleton, lookup_insert_is_Some'.
    rewrite (shm_registered held k I o'). split.
    + intros [Hl| ->]; [|by left].
      destruct (decide (o = o')); [by left|by right].
    + intros [Ho|[Hne Hl]]; [right; by rewrite Ho|by left].
  - apply NoDup_app. split; [apply (shm_registry_NoDup held k I)|]. split.
    + intros x Hx ->%list_elem_of_singleton. done.
    + apply NoDup_singleton.
Qed.

Lemma mapping_created_inv `{Externals} held (k : Kernel) task t o obj :
  shm_inv held k →
  tasks k !! task = Some t →
  objects k !! o = Some obj →
  shm_inv held (mapping_created task t o obj k).
Proof.
  intros I T E. unfold mapping_created. split; cbn.
  - apply (shm_unlocked held k I).
  - intros o' obj'. rewrite mapping_count_insert. cbn. rewrite references_app.
    pose proof (mapping_count_lookup (tasks k) task t o' T) as C.
    destruct (decide (o = o')) as [<-|Hne].
    + rewrite lookup_insert_eq. intros [= <-]. cbn.
      rewrite (shm_refcount held k I o obj E).
      rewrite decide_True by done. lia.
    + rewrite lookup_insert_ne by done. intros E'.
      rewrite (shm_refcount held k I o' obj' E').
      rewrite decide_False by done. lia.
  - intros task' t' m. destruct (decide (task = task')) as [<-|Hne].
    + rewrite lookup_insert_eq. intros [= <-]. cbn.
      intros [Hm|Hm%list_elem_of_singleton]%elem_of_app;
        apply lookup_insert_is_Some'.
      * right. by apply (shm_mapped held k I task t m).
      * left. by rewrite Hm.
    + rewrite lookup_insert_ne by done. intros Ht Hm.
      apply lookup_insert_is_Some'. right.
      by apply (shm_mapped held k I task' t' m).
  - intros o' Hin. apply lookup_insert_is_Some'. right. by apply (shm_held held k I).
  - intros o'. rewrite lookup_insert_is_Some', (shm_registered held k I o').
    split; [naive_solver|]. intros [<-|?]; [by eexists|done].
  - apply (shm_registry_NoDup held k I).
Qed.

Lemma dereferenced_inv `{Externals} held (k : Kernel) o obj :
  shm_inv (o :: held) k →
  objects k !! o = Some obj →
  shm_inv held (dereferenced o obj k).
Proof.
  intros I E. unfold dereferenced.
  pose proof (shm_refcount _ k I o obj E) as R.
  rewrite held_count_cons, decide_True in R by done.
  case_bool_decide as Hz.
  - assert (Hc : mapping_count (tasks k) o = 0%nat) by lia.
    assert (Hh : held_count o held = 0%nat) by lia.
    assert (Hno : o ∉ held).
    { intros Hin%held_count_pos. lia. }
    destruct (list_remove_NoDup o _ (shm_registry_NoDup _ k I)) as [Hnd Hgone].
    split; cbn.
    + apply (shm_unlocked _ k I).
    + intros o' obj'. destruct (decide (o = o')) as [<-|Hne].
      * by rewrite lookup_delete_eq.
      * rewrite lookup_delete_ne by done. intros E'.
        rewrite (shm_refcount _ k I o' obj' E').
        by rewrite held_count_cons, decide_False by done.
    + intros task t m Ht Hm.
      assert (mm_object m ≠ o).
      { intros Ho. pose proof (mapping_count_pos (tasks k) task t m Ht Hm).
        rewrite Ho in *. lia. }
      rewrite lookup_delete_ne by done. by apply (shm_mapped _ k I task t m).
    + intros o' Hin. rewrite lookup_delete_ne by (intros ->; done).
      apply (shm_held _ k I). by right.
    + intros o'. destruct (decide (o = o')) as [<-|Hne].
      * rewrite lookup_delete_eq. split; [done|]. by intros [? ?].
      * rewrite lookup_delete_ne by done.
        rewrite <-(shm_registered _ k I o'). split.
        -- apply elem_of_list_remove.
        -- by apply elem_of_list_remove_ne.
    + done.
  - split; cbn.
    + apply (shm_unlocked _ k I).
    + intros o' obj'. destruct (decide (o = o')) as [<-|Hne].
      * rewrite lookup_insert_eq. intros [= <-]. cbn. lia.
      * rewrite lookup_insert_ne by done. intros E'.
        rewrite (shm_refcount _ k I o' obj' E').
        by rewrite held_count_cons, decide_False by done.
    + intros task t m Ht Hm. apply lookup_insert_is_Some'. right.
      by apply (shm_mapped _ k I task t m).
    + intros o' Hin. apply lookup_insert_is_Some'. right.
      apply (shm_held _ k I). by right.
    + intros o'. rewrite lookup_insert_is_Some', (shm_registered _ k I o').
      split; [naive_solver|]. intros [<-|?]; [by eexists|done].
    + apply (shm_registry_NoDup _ k I).
Qed.

(** Unlinking a mapping turns its reference into one in flight. *)
Lemma mapping_unlinked_inv `{Externals} held (k : Kernel) task t m e :
  shm_inv held k →
  tasks k !! task = Some t →
  m ∈ t_memory_mapping t →
  shm_inv (mm_object m :: held)
    (set_tasks <[task := with_memory_mapping (list_remove m (t_memory_mapping t)) t]>
       (log e k)).
Proof.
  intros I T Hm. split; cbn.
  - apply (shm_unlocked held k I).
  - intros o' obj' E'. rewrite mapping_count_insert. cbn.
    rewrite (shm_refcount held k I o' obj' E').
    rewrite (mapping_count_lookup (tasks k) task t o' T).
    rewrite (references_remove o' _ m Hm), held_count_cons. lia.
  - intros task' t' m'. destruct (decide (task = task')) as [<-|Hne].
    + rewrite lookup_insert_eq. intros [= <-]. cbn. intros Hm'%elem_of_list_remove.
      by apply (shm_mapped held k I task t m').
    + rewrite lookup_insert_ne by done. apply (shm_mapped held k I).
  - intros o' [->|Hin]%elem_of_cons.
    + by apply (shm_mapped held k I task t m).
    + by apply (shm_held held k I).
  - apply (shm_registered held k I).
  - apply (shm_registry_NoDup held k I).
Qed.

Lemma mapping_destroyed_inv `{Externals} held (k : Kernel) task t m obj :
  shm_inv held k →
  tasks k !! task = Some t →
  m ∈ t_memory_mapping t →
  objects k !! mm_object m = Some obj →
  shm_inv held (mapping_destroyed task t m obj k).
Proof.
  intros I T Hm E.
  pose proof (mapping_unlinked_inv held k task t m
                (EvVirtualFree (t_pdir t) {| base := mm_address m; size := mm_size m |})
                I T Hm) as Ia.
  apply (dereferenced_inv held _ (mm_object m) obj) in Ia; [|done].
  replace (mapping_destroyed task t m obj k) with
    (dereferenced (mm_object m) obj
       (set_tasks
          <[task := with_memory_mapping (list_remove m (t_memory_mapping t)) t]>
          (log (EvVirtualFree (t_pdir t)
                  {| base := mm_address m; size := mm_size m |}) k))); [done|].
  unfold mapping_destroyed, dereferenced. by case_bool_decide.
Qed.

(** ** Freeing a mapping by address *)

Lemma memory_mapping_by_address_loop_None address l :
  (∀ m, m ∈ l → mm_address m ≠ address) →
  memory_mapping_by_address_loop address l = None.
Proof.
  induction l as [|x l IH]; intros Hno; [done|]. cbn.
  rewrite bool_decide_eq_false_2 by (apply Hno; left).
  apply IH. intros m Hm. apply Hno. by right.
Qed.

Lemma memory_mapping_by_address_loop_Some address l m0 :
  m0 ∈ l → mm_address m0 = address →
  ∃ m, memory_mapping_by_address_loop address l = Some m
       ∧ m ∈ l ∧ mm_address m = address.
Proof.
  induction l as [|x l IH]; intros Hin Ha; [by apply elem_of_nil in Hin|]. cbn.
  case_bool_decide as Hx.
  - exists x. split; [done|]. split; [left|done].
  - apply elem_of_cons in Hin as [->|Hin]; [done|].
    destruct (IH Hin Ha) as (m & Hm & Hl & Hb). exists m.
    split; [done|]. split; [by right|done].
Qed.

Lemma task_shared_memory_free_found `{Externals} (k : Kernel) task t address m obj :
  tasks k !! task = Some t →
  memory_mapping_by_address_loop address (t_memory_mapping t) = Some m →
  _memory_objects_lock k = false →
  objects k !! mm_object m = Some obj →
  task_shared_memory_free task address k
  = Done SUCCESS (mapping_destroyed task t m obj k).
Proof.
  intros T F L E. unfold task_shared_memory_free, task_memory_mapping_by_address.
  run. rewrite F.
  by rewrite (task_memory_mapping_destroy_run k task t m obj L T E).
Qed.

(** C7: [task_shared_memory_free] compares the address with the base of each
    mapping of the task.  If none is equal, whether or not the address lies
    inside a mapping, the answer is BAD_ADDRESS and the kernel state is
    untouched.  If one is equal, the first such mapping is unmapped, its
    reference to the object dropped (the object dying with its last
    reference), the mapping unlinked, and the answer is SUCCESS. *)
Theorem task_shared_memory_free_spec `{Externals} (k : Kernel) task t address :
  tasks k !! task = Some t →
  ((∀ m, m ∈ t_memory_mapping t → mm_address m ≠ address) →
   task_shared_memory_free task address k = Done ERR_BAD_ADDRESS k)
  ∧ (∀ m0,
       m0 ∈ t_memory_mapping t → mm_address m0 = address →
       ∃ m,
         memory_mapping_by_address_loop address (t_memory_mapping t) = Some m
         ∧ m ∈ t_memory_mapping t
         ∧ mm_address m = address
         ∧ ∀ obj,
             _memory_objects_lock k = false →
             objects k !! mm_object m = Some obj →
             let k' := mapping_destroyed task t m obj k in
             task_shared_memory_free task address k = Done SUCCESS k'
             ∧ (∃ t', tasks k' !! task = Some t'
                      ∧ t_memory_mapping t' = list_remove m (t_memory_mapping t))
             ∧ EvVirtualFree (t_pdir t) {| base := address; size := mm_size m |}
               ∈ trace k'
             ∧ objects k' !! mm_object m
               = (if bool_decide (mo_refcount obj = 1) then None
                  else Some (with_refcount (λ n, n - 1) obj))
             ∧ ∀ held, shm_inv held k → shm_inv held k').
Proof.
  intros T. split.
  - intros Hno. unfold task_shared_memory_free, task_memory_mapping_by_address.
    run. by rewrite memory_mapping_by_address_loop_None.
  - intros m0 Hin Ha.
    destruct (memory_mapping_by_address_loop_Some address _ m0 Hin Ha)
      as (m & F & Hm & Hb).
    exists m. split; [done|]. split; [done|]. split; [done|].
    intros obj L E k'. split; [by apply task_shared_memory_free_found|].
    split; [|split; [|split]].
    + eexists. split; [apply lookup_insert_eq|done].
    + subst k'. unfold mapping_destroyed, dereferenced. rewrite <-Hb.
      case_bool_decide; cbn; set_solver.
    + subst k'. unfold mapping_destroyed, dereferenced.
      destruct (decide (mo_refcount obj = 1)) as [R|R].
      * rewrite !bool_decide_eq_true_2 by lia. cbn. apply lookup_delete_eq.
      * rewrite !bool_decide_eq_false_2 by lia. cbn. apply lookup_insert_eq.
    + intros held I. by apply mapping_destroyed_inv.
Qed.

Lemma task_shared_memory_free_spec_witness :
  task_shared_memory_free 1%positive 1073741840 Reference.one_mapping
  = Done ERR_BAD_ADDRESS Reference.one_mapping
  ∧ ∃ m, m ∈ [Reference.sample_mapping] ∧ mm_address m = 1073741824
         ∧ task_shared_memory_free 1%positive 1073741824 Reference.one_mapping
           = Done SUCCESS
               (mapping_destroyed 1%positive
                  (Reference.sample_task 0 TASK_STATE_CANCELED None
                     [Reference.sample_mapping])
                  m (Reference.sample_object 1) Reference.one_mapping).
Proof.
  split.
  - apply (task_shared_memory_free_spec Reference.one_mapping 1%positive
             (Reference.sample_task 0 TASK_STATE_CANCELED None
                [Reference.sample_mapping])
             1073741840 eq_refl).
    intros m ->%list_elem_of_singleton. done.
  - destruct (task_shared_memory_free_spec Reference.one_mapping 1%positive
                (Reference.sample_task 0 TASK_STATE_CANCELED None
                   [Reference.sample_mapping])
                1073741824 eq_refl) as [_ Hfound].
    destruct (Hfound Reference.sample_mapping) as (m & F & Hm & Hb & Hrun);
      [left|reflexivity|].
    injection F as <-. exists Reference.sample_mapping.
    split; [done|]. split; [done|].
    apply (Hrun (Reference.sample_object 1)); reflexivity.
Defined.

(** ** Allocating and including shared memory *)

Lemma task_shared_memory_alloc_run `{Externals} (k : Kernel) task t sz :
  _memory_objects_lock k = false →
  tasks k !! task = Some t →
  let o := malloc_ret (dom (objects k)) in
  let k1 := object_created sz k in
  let obj := created_object sz k in
  let k2 := mapping_created task t o obj k1 in
  task_shared_memory_alloc task sz k
  = Done (SUCCESS, mm_address (created_mapping t o obj k1))
      (dereferenced o (with_refcount (λ n, n + 1) obj) k2).
Proof.
  intros L T o k1 obj k2. unfold task_shared_memory_alloc.
  rewrite (bind_run _ _ _ _ _ (memory_object_create_run k sz L)).
  fold o. fold k1.
  assert (T1 : tasks k1 !! task = Some t) by done.
  assert (E1 : objects k1 !! o = Some obj).
  { subst k1 o. unfold object_created. cbn. apply lookup_insert_eq. }
  rewrite (bind_run _ _ _ _ _ (task_memory_mapping_create_run k1 task t o obj T1 E1)).
  fold k2.
  assert (E2 : objects k2 !! o = Some (with_refcount (λ n, n + 1) obj)).
  { subst k2. unfold mapping_created. cbn. apply lookup_insert_eq. }
  by rewrite (bind_run _ _ _ _ _
                (memory_object_deref_run k2 o _ L E2)).
Qed.

(** The first registered object with the given id. *)
Definition first_object_with_id (heap : gmap ptr MemoryObject) (id : Z)
  : list ptr → option ptr :=
  fix go l :=
    match l with
    | [] => None
    | o :: l' =>
        match heap !! o with
        | Some obj => if bool_decide (mo_id obj = id) then Some o else go l'
        | None => None
        end
    end.

Lemma first_object_with_id_Some heap id l o :
  first_object_with_id heap id l = Some o →
  ∃ obj, heap !! o = Some obj ∧ mo_id obj = id.
Proof.
  induction l as [|x l IH]; [done|]. cbn.
  destruct (heap !! x) as [obj|] eqn:E; [|done]. case_bool_decide.
  - intros [= <-]. by exists obj.
  - done.
Qed.

Lemma memory_object_by_id_loop_run `{Externals} (k : Kernel) id l :
  Forall (λ o, is_Some (objects k !! o)) l →
  memory_object_by_id_loop id l (set_memory_objects_lock true k)
  = match first_object_with_id (objects k) id l with
    | Some o =>
        match objects k !! o with
        | Some obj =>
            Done (Some o)
              (set_memory_objects_lock false
                 (set_objects <[o := with_refcount (λ n, n + 1) obj]> k))
        | None => Abort INVALID_POINTER
        end
    | None => Done None (set_memory_objects_lock false k)
    end.
Proof.
  induction 1 as [|o l [obj E] _ IH]; [done|].
  cbn. unfold memory_object_ref. run.
  case_bool_decide; run; [done|apply IH].
Qed.

Lemma set_memory_objects_lock_id `{Externals} (k : Kernel) :
  _memory_objects_lock k = false → set_memory_objects_lock false k = k.
Proof. destruct k; cbn; intros ->; done. Qed.

Lemma memory_object_by_id_run `{Externals} held (k : Kernel) id :
  shm_inv held k →
  memory_object_by_id id k
  = match first_object_with_id (objects k) id (_memory_objects k) with
    | Some o =>
        match objects k !! o with
        | Some obj =>
            Done (Some o) (set_objects <[o := with_refcount (λ n, n + 1) obj]> k)
        | None => Abort INVALID_POINTER
        end
    | None => Done None k
    end.
Proof.
  intros I. pose proof (shm_unlocked held k I) as L.
  unfold memory_object_by_id. run.
  rewrite memory_object_by_id_loop_run.
  - destruct (first_object_with_id _ _ _) as [o|].
    + destruct (objects k !! o); [|done]. f_equal.
      rewrite <-(set_memory_objects_lock_id
                   (set_objects <[o:=with_refcount (λ n : Z, n + 1) m]> k)) at 2; done.
    + by rewrite set_memory_objects_lock_id.
  - apply Forall_forall. intros o Ho. by apply (shm_registered held k I).
Qed.

(** A reference handed out by a lookup is one in flight. *)
Lemma referenced_inv `{Externals} held (k : Kernel) o obj :
  shm_inv held k →
  objects k !! o = Some obj →
  shm_inv (o :: held) (set_objects <[o := with_refcount (λ n, n + 1) obj]> k).
Proof.
  intros I E. split; cbn.
  - apply (shm_unlocked held k I).
  - intros o' obj'. rewrite held_count_cons.
    destruct (decide (o = o')) as [<-|Hne].
    + rewrite lookup_insert_eq. intros [= <-]. cbn.
      rewrite (shm_refcount held k I o obj E). lia.
    + rewrite lookup_insert_ne by done. intros E'.
      by rewrite (shm_refcount held k I o' obj' E').
  - intros task t m Ht Hm. apply lookup_insert_is_Some'. right.
    by apply (shm_mapped held k I task t m).
  - intros o' [->|Hin]%elem_of_cons; apply lookup_insert_is_Some'; [by left|].
    right. by apply (shm_held held k I).
  - intros o'. rewrite lookup_insert_is_Some', (shm_registered held k I o').
    split; [naive_solver|]. intros [<-|?]; [by eexists|done].
  - apply (shm_registry_NoDup held k I).
Qed.

Lemma task_shared_memory_alloc_inv `{Externals} (k : Kernel) task t sz :
  shm_inv [] k →
  tasks k !! task = Some t →
  ∃ k' o obj m,
    task_shared_memory_alloc task sz k = Done (SUCCESS, mm_address m) k'
    ∧ objects k !! o = None
    ∧ objects k' !! o = Some obj
    ∧ mo_refcount obj = 1
    ∧ tasks k' !! task = Some (with_memory_mapping (t_memory_mapping t ++ [m]) t)
    ∧ mm_object m = o
    ∧ mapping_count (tasks k') o = 1%nat
    ∧ shm_inv [] k'.
Proof.
  intros I T. pose proof (shm_unlocked [] k I) as L.
  pose proof (task_shared_memory_alloc_run k task t sz L T) as R. cbn zeta in R.
  set (o := malloc_ret (dom (objects k))) in *.
  set (obj := created_object sz k) in *.
  set (k1 := object_created sz k) in *.
  set (k2 := mapping_created task t o obj k1) in *.
  set (k3 := dereferenced o (with_refcount (λ n, n + 1) obj) k2) in *.
  assert (E1 : objects k1 !! o = Some obj).
  { subst k1 o. unfold object_created. cbn. apply lookup_insert_eq. }
  assert (E2 : objects k2 !! o = Some (with_refcount (λ n, n + 1) obj)).
  { subst k2. unfold mapping_created. cbn. apply lookup_insert_eq. }
  assert (I3 : shm_inv [] k3).
  { apply dereferenced_inv; [|done]. apply mapping_created_inv; [|done|done].
    by apply object_created_inv. }
  assert (E3 : objects k3 !! o = Some (with_refcount (λ n, n - 1)
                                          (with_refcount (λ n, n + 1) obj))).
  { subst k3. unfold dereferenced. cbn.
    rewrite bool_decide_eq_false_2 by done. cbn. apply lookup_insert_eq. }
  exists k3, o, (with_refcount (λ n, n - 1) (with_refcount (λ n, n + 1) obj)),
    (created_mapping t o obj k1).
  split; [done|]. split; [apply malloc_ret_free|]. split; [done|].
  split; [done|]. split.
  { subst k3. unfold dereferenced. cbn. rewrite bool_decide_eq_false_2 by done.
    cbn. apply lookup_insert_eq. }
  split; [done|]. split; [|done].
  pose proof (shm_refcount [] k3 I3 o _ E3) as C. cbn in C.
  rewrite held_count_nil in C. lia.
Qed.

Lemma task_shared_memory_free_inv `{Externals} held (k : Kernel) task t address :
  shm_inv held k →
  tasks k !! task = Some t →
  ∃ r k', task_shared_memory_free task address k = Done r k' ∧ shm_inv held k'.
Proof.
  intros I T.
  destruct (memory_mapping_by_address_loop address (t_memory_mapping t))
    as [m|] eqn:F.
  - assert (Hm : m ∈ t_memory_mapping t).
    { clear -F. induction (t_memory_mapping t) as [|x l IH]; [done|].
      cbn in F. case_bool_decide; [injection F as <-; left|right; auto]. }
    destruct (shm_mapped held k I task t m T Hm) as [obj E].
    exists SUCCESS, (mapping_destroyed task t m obj k). split.
    + apply task_shared_memory_free_found; [done|done| |done].
      apply (shm_unlocked held k I).
    + by apply mapping_destroyed_inv.
  - exists ERR_BAD_ADDRESS, k. split; [|done].
    unfold task_shared_memory_free, task_memory_mapping_by_address. run.
    by rewrite F.
Qed.

Lemma task_shared_memory_include_inv `{Externals} (k : Kernel) task t handle :
  shm_inv [] k →
  tasks k !! task = Some t →
  ∃ r k', task_shared_memory_include task handle k = Done r k' ∧ shm_inv [] k'.
Proof.
  intros I T. unfold task_shared_memory_include.
  pose proof (memory_object_by_id_run [] k handle I) as R.
  destruct (first_object_with_id _ _ _) as [o|] eqn:F.
  - destruct (first_object_with_id_Some _ _ _ _ F) as (obj & E & _).
    rewrite E in R. rewrite (bind_run _ _ _ _ _ R).
    set (obj1 := with_refcount (λ n, n + 1) obj) in *.
    set (k1 := set_objects _ k) in *.
    assert (I1 : shm_inv [o] k1) by (by apply referenced_inv).
    assert (E1 : objects k1 !! o = Some obj1).
    { subst k1. cbn. apply lookup_insert_eq. }
    assert (T1 : tasks k1 !! task = Some t) by done.
    rewrite (bind_run _ _ _ _ _ (task_memory_mapping_create_run k1 task t o obj1 T1 E1)).
    set (k2 := mapping_created task t o obj1 k1).
    assert (E2 : objects k2 !! o = Some (with_refcount (λ n, n + 1) obj1)).
    { subst k2. unfold mapping_created. cbn. apply lookup_insert_eq. }
    assert (L2 : _memory_objects_lock k2 = false) by apply (shm_unlocked [] k I).
    rewrite (bind_run _ _ _ _ _ (memory_object_deref_run k2 o _ L2 E2)).
    eexists _, _. split; [reflexivity|].
    apply dereferenced_inv; [|done]. by apply mapping_created_inv.
  - rewrite (bind_run _ _ _ _ _ R). by eexists _, _.
Qed.

(** C6: an object made by [task_shared_memory_alloc] ends with a reference
    count of 1, held by the new mapping alone.  In general the count of every
    live object is the number of mappings that refer to it plus the
    references in flight: a [memory_object_by_id] lookup adds one in flight,
    and [alloc], [free] and [include] start and end with none. *)
Theorem memory_object_refcount `{Externals} (k : Kernel) task t :
  shm_inv [] k →
  tasks k !! task = Some t →
  (∀ o obj, objects k !! o = Some obj →
            mo_refcount obj = Z.of_nat (mapping_count (tasks k) o))
  ∧ (∀ sz, ∃ k' o obj m,
       task_shared_memory_alloc task sz k = Done (SUCCESS, mm_address m) k'
       ∧ objects k !! o = None
       ∧ objects k' !! o = Some obj
       ∧ mo_refcount obj = 1
       ∧ tasks k' !! task = Some (with_memory_mapping (t_memory_mapping t ++ [m]) t)
       ∧ mm_object m = o
       ∧ mapping_count (tasks k') o = 1%nat
       ∧ shm_inv [] k')
  ∧ (∀ address, ∃ r k',
       task_shared_memory_free task address k = Done r k' ∧ shm_inv [] k')
  ∧ (∀ handle, ∃ r k',
       task_shared_memory_include task handle k = Done r k' ∧ shm_inv [] k')
  ∧ (∀ id,
       (memory_object_by_id id k = Done None k)
       ∨ ∃ o obj k',
           memory_object_by_id id k = Done (Some o) k'
           ∧ objects k' !! o = Some obj
           ∧ mo_refcount obj = Z.of_nat (mapping_count (tasks k') o + 1)
           ∧ shm_inv [o] k').
Proof.
  intros I T. split; [|split; [|split; [|split]]].
  - intros o obj E. rewrite (shm_refcount [] k I o obj E), held_count_nil. lia.
  - intros sz. by apply task_shared_memory_alloc_inv.
  - intros address. by apply (task_shared_memory_free_inv [] k task t).
  - intros handle. by apply (task_shared_memory_include_inv k task t).
  - intros id. rewrite (memory_object_by_id_run [] k id I).
    destruct (first_object_with_id _ _ _) as [o|] eqn:F; [|by left]. right.
    destruct (first_object_with_id_Some _ _ _ _ F) as (obj & E & _).
    rewrite E. eexists _, _, _. split; [done|].
    split; [apply lookup_insert_eq|]. split.
    + cbn. rewrite (shm_refcount [] k I o obj E), held_count_nil. lia.
    + by apply referenced_inv.
Qed.

Lemma one_task_shm_inv state blocker :
  shm_inv [] (Reference.one_task state blocker).
Proof.
  split; cbn.
  - done.
  - intros o obj. by rewrite lookup_empty.
  - intros task t m [<- <-]%lookup_singleton_Some. by intros ?%elem_of_nil.
  - by intros o ?%elem_of_nil.
  - intros o. rewrite lookup_empty. split; [by intros ?%elem_of_nil|by intros [? ?]].
  - constructor.
Qed.

Lemma memory_object_refcount_witness :
  ∃ k' o obj m,
    task_shared_memory_alloc 1%positive 1 (Reference.one_task TASK_STATE_RUNNING None)
    = Done (SUCCESS, mm_address m) k'
    ∧ objects (Reference.one_task TASK_STATE_RUNNING None) !! o = None
    ∧ objects k' !! o = Some obj
    ∧ mo_refcount obj = 1
    ∧ tasks k' !! 1%positive
      = Some (with_memory_mapping [m]
                (Reference.sample_task 0 TASK_STATE_RUNNING None []))
    ∧ mm_object m = o
    ∧ mapping_count (tasks k') o = 1%nat
    ∧ shm_inv [] k'.
Proof.
  apply (memory_object_refcount (Reference.one_task TASK_STATE_RUNNING None)
           1%positive (Reference.sample_task 0 TASK_STATE_RUNNING None [])
           (one_task_shm_inv TASK_STATE_RUNNING None) eq_refl).
Defined.

(** ** Destroying a task *)

(** The events of [task_memory_mapping_destroy]. *)
Definition mapping_event `{Externals} (e : Event Path) : Prop :=
  match e with
  | EvVirtualFree _ _ | EvPhysicalFree _ _ => True
  | _ => False
  end.

Lemma destroy_mappings_run `{Externals} held (task : ptr) (l : list MemoryMapping) :
  ∀ (k : Kernel) (t : Task),
    shm_inv held k →
    tasks k !! task = Some t →
    t_memory_mapping t = l →
    ∃ k' evs,
      destroy_mappings task l k = Done () k'
      ∧ shm_inv held k'
      ∧ tasks k' = <[task := with_memory_mapping [] t]> (tasks k)
      ∧ trace k' = trace k ++ evs
      ∧ Forall mapping_event evs
      ∧ (∀ m, m ∈ l →
              EvVirtualFree (t_pdir t) {| base := mm_address m; size := mm_size m |}
              ∈ evs)
      ∧ atomic_depth k' = atomic_depth k
      ∧ all_tasks k' = all_tasks k
      ∧ blockers k' = blockers k.
Proof.
  induction l as [|m l IH]; intros k t I T Hl.
  - exists k, []. cbn. split; [done|]. split; [done|]. split.
    { symmetry. apply insert_id. rewrite T. f_equal. destruct t; cbn in *. by subst. }
    split; [by rewrite app_nil_r|]. split; [constructor|].
    split; [by intros ? ?%elem_of_nil|]. done.
  - assert (Hm : m ∈ t_memory_mapping t) by (rewrite Hl; left).
    destruct (shm_mapped held k I task t m T Hm) as [obj E].
    set (k1 := mapping_destroyed task t m obj k).
    assert (R1 : task_memory_mapping_destroy task m k = Done () k1).
    { apply task_memory_mapping_destroy_run; [|done|done].
      apply (shm_unlocked held k I). }
    assert (I1 : shm_inv held k1) by (by apply mapping_destroyed_inv).
    assert (T1 : tasks k1 !! task = Some (with_memory_mapping l t)).
    { subst k1. unfold mapping_destroyed. cbn. rewrite lookup_insert_eq, Hl. cbn.
      by rewrite decide_True. }
    destruct (IH k1 (with_memory_mapping l t) I1 T1 eq_refl)
      as (k' & evs & R & I' & T' & Tr & Fe & Hev & D & A & B).
    assert (Tr1 : ∃ evs1, trace k1 = trace k ++
                    EvVirtualFree (t_pdir t)
                      {| base := mm_address m; size := mm_size m |} :: evs1
                  ∧ Forall mapping_event evs1).
    { subst k1. unfold mapping_destroyed, dereferenced. case_bool_decide; cbn.
      - eexists [_]. rewrite <-app_assoc. split; [done|]. by repeat constructor.
      - exists []. split; [done|constructor]. }
    destruct Tr1 as (evs1 & Tr1 & Fe1).
    exists k', (EvVirtualFree (t_pdir t)
                  {| base := mm_address m; size := mm_size m |} :: evs1 ++ evs).
    cbn [destroy_mappings]. fold (destroy_mappings task).
    rewrite (bind_run _ _ _ _ _ R1). split; [done|]. split; [done|]. split.
    { rewrite T'. subst k1. unfold mapping_destroyed, dereferenced.
      case_bool_decide; cbn; by rewrite insert_insert_eq. }
    split.
    { rewrite Tr, Tr1. by rewrite <-app_assoc. }
    split.
    { constructor; [done|]. by apply Forall_app. }
    split.
    { intros m' [->|Hin]%elem_of_cons; [left|].
      right. apply elem_of_app. right. by apply Hev. }
    split.
    { rewrite D. subst k1. unfold mapping_destroyed, dereferenced.
      by case_bool_decide. }
    split.
    { rewrite A. subst k1. unfold mapping_destroyed, dereferenced.
      by case_bool_decide. }
    rewrite B. subst k1. unfold mapping_destroyed, dereferenced.
    by case_bool_decide.
Qed.

Lemma shm_inv_update `{Externals} held (k k' : Kernel) task t t' :
  shm_inv held k →
  tasks k !! task = Some t →
  t_memory_mapping t' = t_memory_mapping t →
  tasks k' = <[task := t']> (tasks k) →
  objects k' = objects k →
  _memory_objects k' = _memory_objects k →
  _memory_objects_lock k' = _memory_objects_lock k →
  shm_inv held k'.
Proof.
  intros I T M Ht Ho Hr Hl. split.
  - rewrite Hl. apply (shm_unlocked held k I).
  - intros o obj. rewrite Ho, Ht, mapping_count_insert, M.
    rewrite <-(mapping_count_lookup (tasks k) task t o T).
    apply (shm_refcount held k I).
  - intros task' t'' m. rewrite Ho, Ht.
    destruct (decide (task = task')) as [<-|Hne].
    + rewrite lookup_insert_eq. intros [= <-]. rewrite M.
      by apply (shm_mapped held k I task t m).
    + rewrite lookup_insert_ne by done. apply (shm_mapped held k I).
  - rewrite Ho. apply (shm_held held k I).
  - rewrite Ho, Hr. apply (shm_registered held k I).
  - rewrite Hr. apply (shm_registry_NoDup held k I).
Qed.

Lemma shm_inv_delete `{Externals} held (k k' : Kernel) task t :
  shm_inv held k →
  tasks k !! task = Some t →
  t_memory_mapping t = [] →
  tasks k' = delete task (tasks k) →
  objects k' = objects k →
  _memory_objects k' = _memory_objects k →
  _memory_objects_lock k' = _memory_objects_lock k →
  shm_inv held k'.
Proof.
  intros I T M Ht Ho Hr Hl. split.
  - rewrite Hl. apply (shm_unlocked held k I).
  - intros o obj. rewrite Ho, Ht. intros E.
    rewrite (shm_refcount held k I o obj E).
    rewrite (mapping_count_lookup (tasks k) task t o T), M. done.
  - intros task' t'' m. rewrite Ho, Ht.
    intros [_ E]%lookup_delete_Some Hm. by apply (shm_mapped held k I task' t'' m).
  - rewrite Ho. apply (shm_held held k I).
  - rewrite Ho, Hr. apply (shm_registered held k I).
  - rewrite Hr. apply (shm_registry_NoDup held k I).
Qed.

(** The transition reported when [task_destroy] opens. *)
Definition destroy_report `{Externals} (task : ptr) (t : Task) : list (Event Path) :=
  if bool_decide (t_state t ≠ TASK_STATE_NONE)
  then [EvSchedulerDidChangeTaskState task (t_state t) TASK_STATE_NONE]
  else [].

(** The calls that release the stack and, for a private one, the address space. *)
Definition destroy_release `{Externals} (task : ptr) (t : Task) : list (Event Path) :=
  [EvFshandleCloseAll task;
   EvMemoryFree (t_pdir t) {| base := t_stack t; size := PROCESS_STACK_SIZE |}]
  ++ (if bool_decide (t_pdir t ≠ memory_kpdir)
      then [EvMemoryPdirDestroy (t_pdir t)]
      else []).

Lemma with_state_same `{Externals} (t : Task) :
  with_state (t_state t) t = t.
Proof. by destruct t. Qed.

(** The state when [task_destroy] leaves its atomic section: the transition
    is reported, the task is in state NONE and off the registry. *)
Definition unlinked `{Externals} (task : ptr) (t : Task) (k : Kernel) : Kernel :=
  set_all_tasks (list_remove task)
    (set_tasks <[task := with_state TASK_STATE_NONE t]>
       (if bool_decide (t_state t ≠ TASK_STATE_NONE)
        then log (EvSchedulerDidChangeTaskState task (t_state t) TASK_STATE_NONE) k
        else k)).

(** What [task_destroy] does after its atomic section. *)
Definition task_destroy_tail `{Externals} (task : ptr) : Op unit :=
  bind (deref_task task) (λ t,
  bind (destroy_mappings task (t_memory_mapping t)) (λ _,
  bind (task_fshandle_close_all task) (λ _,
  bind (lock_acquire_cwd task) (λ _,
  bind (deref_task task) (λ t,
  bind (memory_free (t_pdir t) {| base := t_stack t; size := PROCESS_STACK_SIZE |}) (λ _,
  bind (when (bool_decide (t_pdir t ≠ memory_kpdir)) (memory_pdir_destroy (t_pdir t))) (λ _,
  modify (set_tasks (delete task))))))))).

Lemma task_destroy_unlinked `{Externals} (k : Kernel) task t :
  tasks k !! task = Some t →
  task_destroy task k = task_destroy_tail task (unlinked task t k).
Proof.
  intros T. unfold task_destroy, task_destroy_tail, task_set_state, unlinked.
  destruct (decide (t_state t = TASK_STATE_NONE)) as [Hs|Hs].
  - rewrite !bool_decide_eq_false_2 by (intros ?; done). run.
    replace (set_atomic_depth Nat.pred
               (set_all_tasks (list_remove task) (set_atomic_depth S k)))
      with (set_all_tasks (list_remove task)
              (set_tasks <[task:=with_state TASK_STATE_NONE t]> k)); [by run|].
    kernel_eq. rewrite <-Hs, with_state_same. by apply insert_id.
  - rewrite !bool_decide_eq_true_2 by done. run.
    replace (set_atomic_depth Nat.pred
               (set_all_tasks (list_remove task)
                  (set_tasks <[task:=with_state TASK_STATE_NONE t]>
                     (log (EvSchedulerDidChangeTaskState task (t_state t)
                             TASK_STATE_NONE)
                        (set_atomic_depth S k)))))
      with (set_all_tasks (list_remove task)
              (set_tasks <[task:=with_state TASK_STATE_NONE t]>
                 (log (EvSchedulerDidChangeTaskState task (t_state t)
                         TASK_STATE_NONE) k))); [by run|].
    by kernel_eq.
Qed.

Lemma unlinked_fields `{Externals} (k : Kernel) task t :
  tasks (unlinked task t k) = <[task := with_state TASK_STATE_NONE t]> (tasks k)
  ∧ all_tasks (unlinked task t k) = list_remove task (all_tasks k)
  ∧ trace (unlinked task t k) = trace k ++ destroy_report task t
  ∧ atomic_depth (unlinked task t k) = atomic_depth k
  ∧ blockers (unlinked task t k) = blockers k
  ∧ objects (unlinked task t k) = objects k
  ∧ _memory_objects (unlinked task t k) = _memory_objects k
  ∧ _memory_objects_lock (unlinked task t k) = _memory_objects_lock k.
Proof.
  unfold unlinked, destroy_report. case_bool_decide; cbn;
    rewrite ?app_nil_r; done.
Qed.

Lemma task_destroy_run `{Externals} held (k : Kernel) task t :
  shm_inv held k →
  tasks k !! task = Some t →
  t_cwd_lock t = false →
  ∃ k' evs,
    task_destroy task k = Done () k'
    ∧ tasks k' = delete task (tasks k)
    ∧ all_tasks k' = list_remove task (all_tasks k)
    ∧ atomic_depth k' = atomic_depth k
    ∧ blockers k' = blockers k
    ∧ trace k' = trace k ++ destroy_report task t ++ evs ++ destroy_release task t
    ∧ Forall mapping_event evs
    ∧ (∀ m, m ∈ t_memory_mapping t →
            EvVirtualFree (t_pdir t) {| base := mm_address m; size := mm_size m |}
            ∈ evs)
    ∧ shm_inv held k'.
Proof.
  intros I T L. rewrite (task_destroy_unlinked k task t T).
  destruct (unlinked_fields k task t) as (Ta & Aa & Tra & Da & Ba & Oa & Ra & La).
  set (ka := unlinked task t k) in *.
  set (t1 := with_state TASK_STATE_NONE t) in *.
  assert (T1 : tasks ka !! task = Some t1) by (rewrite Ta; apply lookup_insert_eq).
  assert (Ia : shm_inv held ka) by (by eapply (shm_inv_update held k ka task t t1)).
  destruct (destroy_mappings_run held task (t_memory_mapping t1) ka t1 Ia T1 eq_refl)
    as (kb & evs & Rb & Ib & Tb & Trb & Fe & Hev & Db & Ab & Bb).
  set (t2 := with_memory_mapping [] t1) in *.
  assert (T2 : tasks kb !! task = Some t2) by (rewrite Tb; apply lookup_insert_eq).
  unfold task_destroy_tail.
  rewrite (bind_run _ _ _ _ _ (deref_task_live ka task t1 T1)).
  rewrite (bind_run _ _ _ _ _ Rb).
  run. unfold destroy_release.
  set (kc := log (EvMemoryFree _ _) _).
  assert (Hc : tasks kc = <[task := with_cwd_lock true t2]> (tasks kb)
               ∧ all_tasks kc = all_tasks kb
               ∧ atomic_depth kc = atomic_depth kb
               ∧ blockers kc = blockers kb
               ∧ trace kc = trace kb ++
                   [EvFshandleCloseAll task;
                    EvMemoryFree (t_pdir t)
                      {| base := t_stack t; size := PROCESS_STACK_SIZE |}]
               ∧ objects kc = objects kb
               ∧ _memory_objects kc = _memory_objects kb
               ∧ _memory_objects_lock kc = _memory_objects_lock kb).
  { subst kc. cbn. by rewrite <-app_assoc. }
  destruct Hc as (Tc & Ac & Dc & Bc & Trc & Oc & Rc & Lc). clearbody kc.
  assert (Hfinal : ∀ kd,
            tasks kd = tasks kc → all_tasks kd = all_tasks kc →
            atomic_depth kd = atomic_depth kc → blockers kd = blockers kc →
            objects kd = objects kc → _memory_objects kd = _memory_objects kc →
            _memory_objects_lock kd = _memory_objects_lock kc →
            let k' := set_tasks (delete task) kd in
            tasks k' = delete task (tasks k)
            ∧ all_tasks k' = list_remove task (all_tasks k)
            ∧ atomic_depth k' = atomic_depth k
            ∧ blockers k' = blockers k
            ∧ shm_inv held k').
  { intros kd Td Ad Dd Bd Od Rd Ld k'. subst k'. cbn.
    split. { rewrite Td, Tc, delete_insert_eq, Tb, delete_insert_eq, Ta.
             apply delete_insert_eq. }
    split. { by rewrite Ad, Ac, Ab, Aa. }
    split. { by rewrite Dd, Dc, Db, Da. }
    split. { by rewrite Bd, Bc, Bb, Ba. }
    apply (shm_inv_delete held kb _ task t2 Ib T2 eq_refl); cbn.
    - by rewrite Td, Tc, delete_insert_eq.
    - by rewrite Od, Oc.
    - by rewrite Rd, Rc.
    - by rewrite Ld, Lc. }
  case_bool_decide as Hp; cbn.
  - destruct (Hfinal (log (EvMemoryPdirDestroy (t_pdir t)) kc))
      as (F1 & F2 & F3 & F4 & F5); try done.
    eexists _, evs. split; [reflexivity|].
    split; [done|]. split; [done|]. split; [done|]. split; [done|].
    split; [|done]. cbn. rewrite Trc, Trb, Tra. by rewrite <-!app_assoc.
  - destruct (Hfinal kc) as (F1 & F2 & F3 & F4 & F5); try done.
    eexists _, evs. split; [reflexivity|].
    split; [done|]. split; [done|]. split; [done|]. split; [done|].
    split; [|done]. cbn. rewrite Trc, Trb, Tra. by rewrite <-!app_assoc.
Qed.

(** The task registry is well formed: no cell is repeated, every cell points
    to a live task, and no two registered tasks share an id. *)
Definition registry_wf `{Externals} (k : Kernel) : Prop :=
  NoDup (all_tasks k)
  ∧ registry_live k
  ∧ ∀ p q tp tq,
      p ∈ all_tasks k → q ∈ all_tasks k →
      tasks k !! p = Some tp → tasks k !! q = Some tq →
      t_id tp = t_id tq → p = q.

Lemma registry_wf_remove `{Externals} (k k' : Kernel) task :
  registry_wf k →
  all_tasks k' = list_remove task (all_tasks k) →
  tasks k' = delete task (tasks k) →
  registry_wf k' ∧ task ∉ all_tasks k'.
Proof.
  intros (Hnd & Hlive & Huniq) Ha Ht.
  destruct (list_remove_NoDup task _ Hnd) as [Hnd' Hgone].
  unfold registry_wf, registry_live. rewrite Ha, Ht.
  split; [|done]. split; [done|]. split.
  - apply Forall_forall. intros p Hp.
    rewrite lookup_delete_ne by (intros ->; done).
    unfold registry_live in Hlive. rewrite Forall_forall in Hlive.
    by apply Hlive, (elem_of_list_remove _ task).
  - intros p q tp tq Hp Hq.
    intros [_ Ep]%lookup_delete_Some [_ Eq]%lookup_delete_Some.
    apply Huniq; try done; by apply (elem_of_list_remove _ task).
Qed.

(** Ids are handed out from [TID]: every registered id is below it. *)
Definition ids_below_TID `{Externals} (k : Kernel) : Prop :=
  ∀ p t, p ∈ all_tasks k → tasks k !! p = Some t → t_id t < TID k.

Lemma boot_registry_wf : registry_wf Reference.boot ∧ ids_below_TID Reference.boot.
Proof.
  split; [split; [constructor|split; [constructor|]]|].
  - by intros p q tp tq ?%elem_of_nil.
  - by intros p t ?%elem_of_nil.
Qed.

(** [task_create] keeps the registry well formed as long as [TID] does not
    overflow. *)
Lemma task_create_registry_wf `{Externals} (k : Kernel) parent name user cwd :
  (0 < atomic_depth k)%nat →
  parent_cwd k parent = Some cwd →
  - 2 ^ 31 ≤ TID k + 1 < 2 ^ 31 →
  registry_wf k →
  ids_below_TID k →
  ∃ k', task_create parent name user k = Done (malloc_ret (dom (tasks k))) k'
        ∧ registry_wf k'
        ∧ ids_below_TID k'.
Proof.
  intros A C B (Hnd & Hlive & Huniq) Hids.
  destruct (task_create_run k parent name user cwd A C)
    as (k' & t & R & T & Al & _ & Tid & Hid & _).
  pose proof (malloc_ret_free (tasks k)) as Hfresh.
  set (task := malloc_ret (dom (tasks k))) in *.
  unfold registry_live in Hlive. rewrite Forall_forall in Hlive.
  assert (Hnew : task ∉ all_tasks k).
  { intros Hin. destruct (Hlive task Hin) as [? ?]. congruence. }
  assert (Hold : ∀ p, p ∈ all_tasks k → tasks k' !! p = tasks k !! p).
  { intros p Hp. rewrite T. apply lookup_insert_ne. by intros <-. }
  assert (Tid' : TID k' = TID k + 1).
  { rewrite Tid. unfold wrap_int. rewrite Z.mod_small; lia. }
  exists k'. split; [done|]. split; [split; [|split]|].
  - rewrite Al. apply NoDup_app. split; [done|]. split.
    + intros x Hx Hx'%list_elem_of_singleton. by subst.
    + apply NoDup_singleton.
  - unfold registry_live. rewrite Al. apply Forall_app. split.
    + apply Forall_forall. intros p Hp. rewrite (Hold p Hp). by apply Hlive.
    + apply Forall_singleton. rewrite T, lookup_insert_eq. by eexists.
  - intros p q tp tq. rewrite Al, !elem_of_app, !list_elem_of_singleton.
    intros [Hp| ->] [Hq| ->].
    + rewrite (Hold p Hp), (Hold q Hq). by apply Huniq.
    + rewrite (Hold p Hp), T, lookup_insert_eq. intros Ep [= <-] Heq.
      pose proof (Hids p tp Hp Ep). lia.
    + rewrite (Hold q Hq), T, lookup_insert_eq. intros [= <-] Eq Heq.
      pose proof (Hids q tq Hq Eq). lia.
    + done.
  - intros p tp. rewrite Al, elem_of_app, list_elem_of_singleton, Tid'.
    intros [Hp| ->].
    + rewrite (Hold p Hp). intros Ep. pose proof (Hids p tp Hp Ep). lia.
    + rewrite T, lookup_insert_eq. intros [= <-]. lia.
Qed.

(** C8: [task_destroy] reports the transition to NONE (unless the task is
    already there), takes the task off the registry, unmaps every mapping of
    the task and drops its reference, releases the stack, destroys the
    address space exactly when it is not the kernel's, and frees the task:
    afterwards the task is neither registered nor found by its id. *)
Theorem task_destroy_spec `{Externals} (k : Kernel) task t :
  registry_wf k →
  shm_inv [] k →
  task ∈ all_tasks k →
  tasks k !! task = Some t →
  t_cwd_lock t = false →
  ∃ k' evs,
    task_destroy task k = Done () k'
    ∧ (task ∉ all_tasks k')
    ∧ tasks k' !! task = None
    ∧ task_by_id (t_id t) k' = Done None k'
    ∧ trace k' = trace k ++ destroy_report task t ++ evs ++ destroy_release task t
    ∧ (t_state t ≠ TASK_STATE_NONE →
       destroy_report task t
       = [EvSchedulerDidChangeTaskState task (t_state t) TASK_STATE_NONE])
    ∧ (∀ m, m ∈ t_memory_mapping t →
            EvVirtualFree (t_pdir t) {| base := mm_address m; size := mm_size m |}
            ∈ evs)
    ∧ (∀ pdir,
         EvMemoryPdirDestroy pdir
         ∈ destroy_report task t ++ evs ++ destroy_release task t
         ↔ pdir = t_pdir t ∧ t_pdir t ≠ memory_kpdir)
    ∧ shm_inv [] k'
    ∧ registry_wf k'.
Proof.
  intros W I Hin T L.
  destruct (task_destroy_run [] k task t I T L)
    as (k' & evs & R & Tk & Ak & Dk & Bk & Trk & Fe & Hev & I').
  destruct (registry_wf_remove k k' task W Ak Tk) as [W' Hgone].
  exists k', evs. split; [done|]. split; [done|].
  split; [rewrite Tk; apply lookup_delete_eq|]. split.
  { destruct W' as (_ & Hlive' & _). rewrite (task_by_id_run k' _ Hlive').
    f_equal. apply first_with_id_None; [|done].
    intros p tp Hp Ep Hid. rewrite Tk in Ep.
    apply lookup_delete_Some in Ep as [Hne Ep].
    destruct W as (_ & _ & Huniq). apply Hne. symmetry.
    apply (Huniq p task tp t); try done.
    rewrite Ak in Hp. by apply (elem_of_list_remove _ task). }
  split; [done|]. split.
  { intros Hs. unfold destroy_report. by rewrite bool_decide_eq_true_2. }
  split; [done|]. split; [|done].
  intros pdir. unfold destroy_report, destroy_release.
  rewrite !elem_of_app. split.
  - intros [Hr|[He|[Hc|Hd]]].
    + case_bool_decide; [|by apply elem_of_nil in Hr].
      by apply list_elem_of_singleton in Hr.
    + rewrite Forall_forall in Fe. by apply Fe in He.
    + apply elem_of_cons in Hc as [?|Hc]; [done|].
      by apply list_elem_of_singleton in Hc.
    + case_bool_decide; [|by apply elem_of_nil in Hd].
      apply list_elem_of_singleton in Hd. by injection Hd as ->.
  - intros [-> Hp]. right. right. right.
    rewrite bool_decide_eq_true_2 by done. left.
Qed.

Lemma one_mapping_shm_inv : shm_inv [] Reference.one_mapping.
Proof.
  split; cbn.
  - done.
  - intros o obj [<- <-]%lookup_singleton_Some. by vm_compute.
  - intros task t m [<- <-]%lookup_singleton_Some Hm%list_elem_of_singleton.
    subst m. by eexists.
  - by intros o ?%elem_of_nil.
  - intros o. rewrite list_elem_of_singleton. split.
    + intros ->. by eexists.
    + by intros [obj [-> _]%lookup_singleton_Some].
  - apply NoDup_singleton.
Qed.

Lemma one_mapping_registry_wf : registry_wf Reference.one_mapping.
Proof.
  split; [apply NoDup_singleton|]. split.
  - apply Forall_singleton. by eexists.
  - intros p q tp tq Hp%list_elem_of_singleton Hq%list_elem_of_singleton _ _ _.
    by subst.
Qed.

Lemma task_destroy_spec_witness :
  ∃ k' evs,
    task_destroy 1%positive Reference.one_mapping = Done () k'
    ∧ (1%positive ∉ all_tasks k')
    ∧ tasks k' !! 1%positive = None
    ∧ task_by_id 0 k' = Done None k'
    ∧ trace k'
      = [EvSchedulerDidChangeTaskState 1%positive TASK_STATE_CANCELED TASK_STATE_NONE]
        ++ evs
        ++ [EvFshandleCloseAll 1%positive;
            EvMemoryFree memory_kpdir {| base := 1048576; size := 16384 |}]
    ∧ EvVirtualFree memory_kpdir {| base := 1073741824; size := 8192 |} ∈ evs
    ∧ shm_inv [] k'.
Proof.
  destruct (task_destroy_spec Reference.one_mapping 1%positive
              (Reference.sample_task 0 TASK_STATE_CANCELED None
                 [Reference.sample_mapping])
              one_mapping_registry_wf one_mapping_shm_inv)
    as (k' & evs & R & Hgone & Hfreed & Hid & Htrace & _ & Hev & _ & I' & _);
    [left|reflexivity|reflexivity|].
  exists k', evs. split; [done|]. split; [done|]. split; [done|].
  split; [done|]. split; [done|]. split; [|done].
  apply (Hev Reference.sample_mapping). left.
Defined.

(** ** The blocker slot and the BLOCKED state *)

(** The equivalence of the spec: a task has a blocker exactly when it is
    BLOCKED. *)
Definition blocker_inv `{Externals} (k : Kernel) : Prop :=
  ∀ p t, tasks k !! p = Some t →
         (is_Some (t_blocker t) ↔ t_state t = TASK_STATE_BLOCKED).

(** Its half that survives cancellation: a BLOCKED task has a blocker. *)
Definition blocked_has_blocker `{Externals} (k : Kernel) : Prop :=
  ∀ p t, tasks k !! p = Some t →
         t_state t = TASK_STATE_BLOCKED → is_Some (t_blocker t).

Lemma blocker_inv_insert `{Externals} (k k' : Kernel) task t' :
  tasks k' = <[task := t']> (tasks k) →
  (is_Some (t_blocker t') ↔ t_state t' = TASK_STATE_BLOCKED) →
  blocker_inv k → blocker_inv k'.
Proof.
  intros T Ht I p t. rewrite T. destruct (decide (task = p)) as [<-|Hne].
  - rewrite lookup_insert_eq. by intros [= <-].
  - rewrite lookup_insert_ne by done. apply I.
Qed.

Lemma blocked_has_blocker_insert `{Externals} (k k' : Kernel) task t' :
  tasks k' = <[task := t']> (tasks k) →
  (t_state t' = TASK_STATE_BLOCKED → is_Some (t_blocker t')) →
  blocked_has_blocker k → blocked_has_blocker k'.
Proof.
  intros T Ht I p t. rewrite T. destruct (decide (task = p)) as [<-|Hne].
  - rewrite lookup_insert_eq. by intros [= <-].
  - rewrite lookup_insert_ne by done. apply I.
Qed.

Lemma blocker_inv_delete `{Externals} (k k' : Kernel) task :
  tasks k' = delete task (tasks k) → blocker_inv k → blocker_inv k'.
Proof.
  intros T I p t. rewrite T. intros [_ E]%lookup_delete_Some. by apply (I p).
Qed.

Lemma blocked_has_blocker_delete `{Externals} (k k' : Kernel) task :
  tasks k' = delete task (tasks k) → blocked_has_blocker k → blocked_has_blocker k'.
Proof.
  intros T I p t. rewrite T. intros [_ E]%lookup_delete_Some. by apply (I p).
Qed.

Lemma task_set_state_run `{Externals} (k : Kernel) task t state :
  (0 < atomic_depth k)%nat →
  tasks k !! task = Some t →
  task_set_state task state k
  = Done ()
      (set_tasks <[task := with_state state t]>
         (log (EvSchedulerDidChangeTaskState task (t_state t) state) k)).
Proof. intros A E. unfold task_set_state. by run. Qed.

(** The state of C1's counterexample: the only task is BLOCKED on the
    blocker at address 5. *)
Definition blocked_task : Kernel :=
  set_blockers <[5%positive := Reference.pending_blocker]>
    (Reference.one_task TASK_STATE_BLOCKED (Some 5%positive)).

(** C1, as stated, fails: cancelling a BLOCKED task, whose blocker is
    installed, leaves the blocker in place on a task that is now CANCELED,
    outside of any atomic section. *)
Lemma task_cancel_keeps_blocker :
  blocker_inv blocked_task
  ∧ ∃ k' t',
      task_cancel 1%positive 7 blocked_task = Done SUCCESS k'
      ∧ atomic_depth k' = 0%nat
      ∧ tasks k' !! 1%positive = Some t'
      ∧ t_blocker t' = Some 5%positive
      ∧ t_state t' = TASK_STATE_CANCELED
      ∧ ¬ blocker_inv k'.
Proof.
  split.
  { intros p t. unfold blocked_task. cbn.
    intros [<- <-]%lookup_singleton_Some. cbn. split; [done|by eexists]. }
  eexists _, _. split.
  { apply (task_cancel_run blocked_task 1%positive
             (Reference.sample_task 0 TASK_STATE_BLOCKED (Some 5%positive) [])).
    reflexivity. }
  split; [reflexivity|]. split; [reflexivity|]. split; [reflexivity|].
  split; [reflexivity|].
  intros I. specialize (I 1%positive _ eq_refl). cbn in I.
  destruct I as [I _]. by specialize (I (ex_intro _ _ eq_refl)).
Qed.

(** C1, amended: the slot holds at most one blocker ([task_block] halts on an
    occupied slot).  [task_block] keeps the equivalence, on its fast-path
    return and at its suspension point, where the caller is BLOCKED with the
    blocker installed; its resumption empties the slot and gives the
    equivalence back once the scheduler has moved the task out of BLOCKED.
    [task_destroy] keeps the equivalence.  [task_cancel] and [task_set_state]
    write the state and leave the slot, every other task and the blocker heap
    as they are: the slot after the call is the slot before it.  Hence they
    keep "BLOCKED implies a blocker" ([task_set_state] for a new state other
    than BLOCKED), they keep the equivalence when the new state agrees with the
    slot, and they break it when it does not: cancelling a task that has a
    blocker leaves the blocker installed on a CANCELED task, outside of any
    atomic section that was not open before. *)
Theorem blocker_slot_invariant `{Externals} (k : Kernel) task t :
  tasks k !! task = Some t →
  (∀ blocker timeout,
     is_Some (t_blocker t) →
     task_block task blocker timeout k = Abort ASSERT_FAILED)
  ∧ (∀ blocker b timeout m',
       t_blocker t = None →
       blockers k !! blocker = Some b →
       b_can_unblock b (view (installed task blocker t k)) task = Some true →
       hook_memory b (view (installed task blocker t k)) task = Some m' →
       ∃ k', task_block task blocker timeout k = Done BLOCKER_UNBLOCKED k'
             ∧ atomic_depth k' = atomic_depth k
             ∧ (blocker_inv k → blocker_inv k'))
  ∧ (∀ blocker b timeout,
       t_blocker t = None →
       blockers k !! blocker = Some b →
       b_can_unblock b (view (installed task blocker t k)) task = Some false →
       ∃ k1 resume,
         task_block task blocker timeout k = Yield k1 resume
         ∧ atomic_depth k1 = atomic_depth k
         ∧ (∃ t1, tasks k1 !! task = Some t1
                  ∧ t_blocker t1 = Some blocker
                  ∧ t_state t1 = TASK_STATE_BLOCKED)
         ∧ (blocker_inv k → blocker_inv k1)
         ∧ ∀ k' b' t',
             blockers k' !! blocker = Some b' →
             tasks k' !! task = Some t' →
             ∃ kf, resume k' = Done (b_result b') kf
                   ∧ tasks kf !! task = Some (with_blocker None t')
                   ∧ (t_state t' ≠ TASK_STATE_BLOCKED →
                      (blocked_has_blocker k' → blocked_has_blocker kf)
                      ∧ (∀ p, p ≠ task → tasks kf !! p = tasks k' !! p)
                      ∧ ((∀ p tp, p ≠ task → tasks k' !! p = Some tp →
                                  (is_Some (t_blocker tp)
                                   ↔ t_state tp = TASK_STATE_BLOCKED)) →
                         blocker_inv kf)))
  ∧ (∀ v,
       ∃ k', task_cancel task v k = Done SUCCESS k'
             ∧ atomic_depth k' = atomic_depth k
             ∧ (blocked_has_blocker k → blocked_has_blocker k')
             ∧ (t_blocker t = None → blocker_inv k → blocker_inv k')
             ∧ (∃ t', tasks k' !! task = Some t'
                      ∧ t_blocker t' = t_blocker t
                      ∧ t_state t' = TASK_STATE_CANCELED)
             ∧ (∀ p, p ≠ task → tasks k' !! p = tasks k !! p)
             ∧ blockers k' = blockers k
             ∧ (is_Some (t_blocker t) → ¬ blocker_inv k'))
  ∧ (∀ state,
       (0 < atomic_depth k)%nat →
       ∃ k', task_set_state task state k = Done () k'
             ∧ (state ≠ TASK_STATE_BLOCKED →
                blocked_has_blocker k → blocked_has_blocker k')
             ∧ ((is_Some (t_blocker t) ↔ state = TASK_STATE_BLOCKED) →
                blocker_inv k → blocker_inv k')
             ∧ (∃ t', tasks k' !! task = Some t'
                      ∧ t_blocker t' = t_blocker t
                      ∧ t_state t' = state)
             ∧ (∀ p, p ≠ task → tasks k' !! p = tasks k !! p)
             ∧ blockers k' = blockers k
             ∧ (¬ (is_Some (t_blocker t) ↔ state = TASK_STATE_BLOCKED) →
                ¬ blocker_inv k'))
  ∧ (shm_inv [] k →
     t_cwd_lock t = false →
     ∃ k', task_destroy task k = Done () k'
           ∧ atomic_depth k' = atomic_depth k
           ∧ tasks k' !! task = None
           ∧ (blocker_inv k → blocker_inv k')
           ∧ (blocked_has_blocker k → blocked_has_blocker k')).
Proof.
  intros E. split; [|split; [|split; [|split; [|split]]]].
  - intros blocker timeout [b0 N]. by apply (task_block_occupied k task t _ _ b0).
  - intros blocker b timeout m' N B C M. eexists.
    split; [by eapply task_block_fast|]. split; [done|]. intros I p tp. apply I.
  - intros blocker b timeout N B C.
    destruct (task_block_slow k task t blocker b timeout E N B C)
      as (resume & R & Hres).
    exists (blocked task blocker t b timeout k), resume.
    split; [done|]. split; [done|]. split.
    { eexists. split; [apply lookup_insert_eq|done]. }
    split.
    { apply (blocker_inv_insert k _ task
               (with_state TASK_STATE_BLOCKED (with_blocker (Some blocker) t)));
        [done|]. cbn. split; [done|by eexists]. }
    intros k' b' t' B' T'. rewrite Hres. unfold resumed. rewrite B', T'.
    eexists. split; [done|]. split; [apply lookup_insert_eq|].
    intros Hs. split; [|split].
    + apply (blocked_has_blocker_insert _ _ task (with_blocker None t')); [done|].
      cbn. intros ?. done.
    + intros p Hp. cbn. by rewrite lookup_insert_ne.
    + intros Hothers p tp. cbn. destruct (decide (task = p)) as [<-|Hne].
      * rewrite lookup_insert_eq. intros [= <-]. cbn.
        split; [by intros [? ?]|done].
      * rewrite lookup_insert_ne by done. by apply Hothers.
  - intros v. exists (canceled task v t k).
    split; [by apply task_cancel_run|]. split; [done|]. split; [|split].
    + apply (blocked_has_blocker_insert _ _ task
               (with_state TASK_STATE_CANCELED (with_exit_value v t))); [done|].
      cbn. intros ?. done.
    + intros N. apply (blocker_inv_insert _ _ task
               (with_state TASK_STATE_CANCELED (with_exit_value v t))); [done|].
      cbn. rewrite N. split; [by intros [? ?]|done].
    + split; [eexists; split; [apply lookup_insert_eq|done]|].
      split; [intros p Hp; cbn; by rewrite lookup_insert_ne|].
      split; [done|].
      intros Hb I. specialize (I task _ (lookup_insert_eq _ _ _)). cbn in I.
      destruct I as [I _]. by specialize (I Hb).
  - intros state A. eexists. split; [by apply task_set_state_run|].
    split; [|split].
    + intros Hs. apply (blocked_has_blocker_insert _ _ task (with_state state t));
        [done|]. cbn. intros ?. done.
    + intros Hs. by apply (blocker_inv_insert _ _ task (with_state state t)).
    + split; [eexists; split; [apply lookup_insert_eq|done]|].
      split; [intros p Hp; cbn; by rewrite lookup_insert_ne|].
      split; [done|].
      intros Hn I. apply Hn. apply (I task _ (lookup_insert_eq _ _ _)).
  - intros I L.
    destruct (task_destroy_run [] k task t I E L)
      as (k' & evs & R & Tk & _ & Dk & _).
    exists k'. split; [done|]. split; [done|].
    split; [rewrite Tk; apply lookup_delete_eq|]. split.
    + by apply (blocker_inv_delete k k' task).
    + by apply (blocked_has_blocker_delete k k' task).
Qed.

Lemma blocker_slot_invariant_witness :
  task_block 1%positive 6%positive 0 blocked_task = Abort ASSERT_FAILED
  ∧ ∃ k' t',
      task_cancel 1%positive 7 blocked_task = Done SUCCESS k'
      ∧ atomic_depth k' = 0%nat
      ∧ tasks k' !! 1%positive = Some t'
      ∧ t_blocker t' = Some 5%positive
      ∧ t_state t' = TASK_STATE_CANCELED
      ∧ blockers k' !! 5%positive = Some Reference.pending_blocker
      ∧ blocked_has_blocker k'
      ∧ ¬ blocker_inv k'.
Proof.
  destruct (blocker_slot_invariant blocked_task 1%positive
              (Reference.sample_task 0 TASK_STATE_BLOCKED (Some 5%positive) [])
              eq_refl) as (Hfull & _ & _ & Hcancel & _).
  split.
  - apply Hfull. by eexists.
  - destruct (Hcancel 7)
      as (k' & R & D & Himp & _ & (t' & T' & Hb & Hs) & _ & B & Hbreak).
    exists k', t'. split; [exact R|]. split; [exact D|]. split; [exact T'|].
    split; [exact Hb|]. split; [exact Hs|]. split.
    + rewrite B. apply lookup_insert_eq.
    + split.
      * apply Himp. intros p t. unfold blocked_task. cbn.
        intros [<- <-]%lookup_singleton_Some _. by eexists.
      * apply Hbreak. by eexists.
Defined.

(** * Further properties of the layer *)

(** ** Looking a task up by id *)

Lemma first_with_id_split `{Externals} (heap : gmap ptr Task) id l p :
  first_with_id heap id l = Some p →
  ∃ l1 l2,
    l = l1 ++ p :: l2
    ∧ ∀ q tq, q ∈ l1 → heap !! q = Some tq → t_id tq ≠ id.
Proof.
  revert p. induction l as [|x l IH]; intros p; [done|]. cbn.
  destruct (heap !! x) as [tx|] eqn:E; [|done]. case_bool_decide as Hid.
  - intros [= <-]. exists [], l. split; [done|]. by intros q tq ?%elem_of_nil.
  - intros Hp. destruct (IH p Hp) as (l1 & l2 & -> & Hno).
    exists (x :: l1), l2. split; [done|].
    intros q tq [->|Hq]%elem_of_cons Eq; [congruence|by eapply Hno].
Qed.

(** X1: [task_by_id] only reads: it answers the first registered task that
    has the id, and NULL exactly when no registered task has it. *)
Theorem task_by_id_first `{Externals} (k : Kernel) (id : Z) :
  registry_live k →
  ∃ r,
    task_by_id id k = Done r k
    ∧ (r = None ↔ ∀ p t, p ∈ all_tasks k → tasks k !! p = Some t → t_id t ≠ id)
    ∧ ∀ p, r = Some p →
           (∃ t, tasks k !! p = Some t ∧ t_id t = id)
           ∧ ∃ l1 l2,
               all_tasks k = l1 ++ p :: l2
               ∧ ∀ q tq, q ∈ l1 → tasks k !! q = Some tq → t_id tq ≠ id.
Proof.
  intros L. exists (first_with_id (tasks k) id (all_tasks k)).
  split; [by apply task_by_id_run|]. split.
  - split.
    + intros F p t Hp Ht Hid.
      destruct (first_with_id_present (tasks k) id (all_tasks k) p t L Hp Ht Hid)
        as [q Hq]. congruence.
    + intros Hno. by apply first_with_id_None.
  - intros p F. split.
    + by destruct (first_with_id_Some _ _ _ _ F) as (_ & t & ? & ?); exists t.
    + by apply first_with_id_split.
Qed.

Lemma task_by_id_first_witness :
  task_by_id 1 Reference.two_tasks = Done (Some 2%positive) Reference.two_tasks.
Proof.
  destruct (task_by_id_first Reference.two_tasks 1 two_tasks_registry_live)
    as (r & R & _ & _).
  rewrite R. f_equal.
  assert (R' : task_by_id 1 Reference.two_tasks
               = Done (Some 2%positive) Reference.two_tasks) by reflexivity.
  rewrite R in R'. by injection R'.
Defined.

(** ** Creating tasks *)

Lemma first_with_id_app_fresh `{Externals} (heap : gmap ptr Task) id l p t :
  heap !! p = None →
  Forall (λ q, is_Some (heap !! q)) l →
  first_with_id (<[p := t]> heap) id (l ++ [p])
  = match first_with_id heap id l with
    | Some q => Some q
    | None => if bool_decide (t_id t = id) then Some p else None
    end.
Proof.
  intros Hp. induction 1 as [|q l [tq E] _ IH]; cbn.
  - by rewrite lookup_insert_eq.
  - rewrite lookup_insert_ne by (intros <-; congruence). rewrite E.
    destruct (bool_decide (t_id tq = id)); [done|apply IH].
Qed.

Lemma strlcpy_length src n :
  (String.length (strlcpy src n) ≤ Nat.pred n)%nat
  ∧ ((String.length src < n)%nat → strlcpy src n = src).
Proof.
  revert n. induction src as [|c src IH]; intros n.
  - destruct n as [|[|n]]; cbn; split; try lia; done.
  - destruct n as [|[|n]].
    + cbn. split; [lia|intros; lia].
    + cbn. split; [lia|intros; lia].
    + destruct (IH (S n)) as [IH1 IH2]. cbn [strlcpy String.length]. split.
      * cbn in IH1. lia.
      * intros Hl. f_equal. apply IH2. lia.
Qed.

Lemma task_create_fields `{Externals} (k : Kernel) parent name user cwd :
  (0 < atomic_depth k)%nat →
  parent_cwd k parent = Some cwd →
  ∃ k' t,
    task_create parent name user k = Done (malloc_ret (dom (tasks k))) k'
    ∧ tasks k' = <[malloc_ret (dom (tasks k)) := t]> (tasks k)
    ∧ all_tasks k' = all_tasks k ++ [malloc_ret (dom (tasks k))]
    ∧ t_id t = TID k
    ∧ t_state t = TASK_STATE_NONE
    ∧ t_cwd_path t = cwd
    ∧ t_name t = strlcpy name PROCESS_NAME_SIZE
    ∧ t_user t = false
    ∧ t_entry t = 0
    ∧ t_stack_pointer t = wrap32 (t_stack t + PROCESS_STACK_SIZE - 1)
    ∧ memory k' = memory k
    ∧ atomic_depth k' = atomic_depth k.
Proof.
  intros A C. unfold task_create. run.
  destruct user, parent as [parent|]; cbn in C.
  all: try (destruct (tasks k !! parent) as [p|] eqn:E; [|done]).
  all: run.
  all: injection C as <-.
  all: eexists _, _; split; [reflexivity|]; cbn; repeat split; done.
Qed.

(** X2: a task made by [task_create] is registered under the id that [TID] held
    and is found by that id; the answers [task_by_id] gives for every other
    id are unchanged, the registry stays well formed, and the stored name is
    the given one cut to [PROCESS_NAME_SIZE - 1] characters. *)
Theorem task_create_then_by_id `{Externals} (k : Kernel) parent name user cwd :
  (0 < atomic_depth k)%nat →
  parent_cwd k parent = Some cwd →
  - 2 ^ 31 ≤ TID k + 1 < 2 ^ 31 →
  registry_wf k →
  ids_below_TID k →
  ∃ task k' t,
    task_create parent name user k = Done task k'
    ∧ tasks k !! task = None
    ∧ tasks k' !! task = Some t
    ∧ t_id t = TID k
    ∧ t_state t = TASK_STATE_NONE
    ∧ t_cwd_path t = cwd
    ∧ (String.length (t_name t) ≤ Nat.pred PROCESS_NAME_SIZE)%nat
    ∧ ((String.length name < PROCESS_NAME_SIZE)%nat → t_name t = name)
    ∧ task_by_id (TID k) k' = Done (Some task) k'
    ∧ (∀ id r, id ≠ TID k →
               task_by_id id k = Done r k → task_by_id id k' = Done r k')
    ∧ registry_wf k'
    ∧ ids_below_TID k'.
Proof.
  intros A C B W Hids.
  destruct (task_create_registry_wf k parent name user cwd A C B W Hids)
    as (k' & R & W' & Hids').
  destruct (task_create_fields k parent name user cwd A C)
    as (k'' & t & R'' & T & Al & Hid & Hst & Hcwd & Hname & _).
  rewrite R in R''. injection R'' as <-.
  destruct W as (Hnd & Hlive & Huniq).
  pose proof (malloc_ret_free (tasks k)) as Hfresh.
  set (task := malloc_ret (dom (tasks k))) in *.
  assert (Hby : ∀ id, task_by_id id k'
                      = Done (match first_with_id (tasks k) id (all_tasks k) with
                              | Some q => Some q
                              | None => if bool_decide (t_id t = id)
                                        then Some task else None
                              end) k').
  { intros id. destruct W' as (_ & Hlive' & _).
    rewrite (task_by_id_run k' id Hlive'), T, Al.
    by rewrite first_with_id_app_fresh. }
  exists task, k', t. split; [done|]. split; [done|].
  split; [rewrite T; apply lookup_insert_eq|]. split; [done|]. split; [done|].
  split; [done|]. rewrite Hname.
  split; [apply strlcpy_length|]. split; [apply strlcpy_length|]. split.
  { rewrite Hby, first_with_id_None; [by rewrite bool_decide_eq_true_2| |done].
    intros p tp Hp Ep Heq. pose proof (Hids p tp Hp Ep). lia. }
  split; [|done].
  intros id r Hne. rewrite (task_by_id_run k id Hlive). intros [= <-].
  rewrite Hby. destruct (first_with_id _ _ _); [done|].
  by rewrite bool_decide_eq_false_2 by congruence.
Qed.

Lemma task_create_then_by_id_witness :
  ∃ task k',
    task_create None "init" false (set_atomic_depth S Reference.boot) = Done task k'
    ∧ task_by_id 0 k' = Done (Some task) k'
    ∧ registry_wf k'.
Proof.
  destruct (task_create_then_by_id (set_atomic_depth S Reference.boot)
              None "init" false (path_create "/"))
    as (task & k' & t & R & _ & _ & _ & _ & _ & _ & _ & Hby & _ & W & _).
  - cbn. lia.
  - reflexivity.
  - cbn. lia.
  - apply boot_registry_wf.
  - apply boot_registry_wf.
  - by exists task, k'.
Defined.

(** ** Counting tasks *)

Lemma list_remove_length {A} `{EqDecision A} (x : A) (l : list A) :
  x ∈ l → S (length (list_remove x l)) = length l.
Proof.
  induction l as [|y l IH]; [by intros ?%elem_of_nil|]. cbn.
  destruct (decide (y = x)); [done|].
  intros [->|Hx]%elem_of_cons; [done|]. cbn. by rewrite IH.
Qed.

Lemma shm_inv_atomic `{Externals} held (k : Kernel) f :
  shm_inv held k → shm_inv held (set_atomic_depth f k).
Proof. intros I. split; cbn; apply I. Qed.

Lemma task_count_run `{Externals} (k : Kernel) :
  task_count k = Done (Z.of_nat (length (all_tasks k))) k.
Proof. unfold task_count. run. f_equal. kernel_eq. Qed.

(** X3: [task_count] answers the length of the registry, in any state, and
    leaves the kernel as it is; a created task raises the answer by one and a
    destroyed registered task lowers it by one. *)
Theorem task_count_create_destroy `{Externals} (k : Kernel) task t parent name user cwd :
  (0 < atomic_depth k)%nat →
  parent_cwd k parent = Some cwd →
  shm_inv [] k →
  task ∈ all_tasks k →
  tasks k !! task = Some t →
  t_cwd_lock t = false →
  (∀ k0 : Kernel, task_count k0 = Done (Z.of_nat (length (all_tasks k0))) k0)
  ∧ ∃ kc kd created,
      task_create parent name user k = Done created kc
      ∧ task_count kc = Done (Z.of_nat (length (all_tasks k)) + 1) kc
      ∧ task_destroy task k = Done () kd
      ∧ task_count kd = Done (Z.of_nat (length (all_tasks k)) - 1) kd.
Proof.
  intros A C I Hin T L. split; [apply task_count_run|].
  destruct (task_create_fields k parent name user cwd A C)
    as (kc & tc & Rc & _ & Alc & _).
  destruct (task_destroy_run [] k task t I T L)
    as (kd & evs & Rd & _ & Ald & _).
  exists kc, kd, (malloc_ret (dom (tasks k))).
  split; [done|]. split.
  { rewrite task_count_run, Alc, length_app. cbn. do 2 f_equal. lia. }
  split; [done|].
  rewrite task_count_run, Ald. do 2 f_equal.
  pose proof (list_remove_length task (all_tasks k) Hin). lia.
Qed.

Lemma task_count_create_destroy_witness :
  task_count (set_atomic_depth S Reference.one_mapping)
  = Done 1 (set_atomic_depth S Reference.one_mapping)
  ∧ task_count Reference.two_tasks = Done 2 Reference.two_tasks
  ∧ ∃ kc kd created,
      task_create None "child" true (set_atomic_depth S Reference.one_mapping)
      = Done created kc
      ∧ task_count kc = Done 2 kc
      ∧ task_destroy 1%positive (set_atomic_depth S Reference.one_mapping) = Done () kd
      ∧ task_count kd = Done 0 kd.
Proof.
  destruct (task_count_create_destroy (set_atomic_depth S Reference.one_mapping)
              1%positive
              (Reference.sample_task 0 TASK_STATE_CANCELED None
                 [Reference.sample_mapping])
              None "child" true (path_create "/"))
    as (Hn & kc & kd & created & Rc & Rcc & Rd & Rdc).
  - cbn. lia.
  - reflexivity.
  - apply shm_inv_atomic, one_mapping_shm_inv.
  - left.
  - reflexivity.
  - reflexivity.
  - split; [apply Hn|]. split; [apply Hn|]. by exists kc, kd, created.
Defined.

(** ** The task stack *)

Lemma store_bytes_outside dst bytes (m : gmap Z Z) a :
  a < dst ∨ dst + Z.of_nat (length bytes) ≤ a →
  store_bytes dst bytes m !! a = m !! a.
Proof.
  revert dst m. induction bytes as [|b bytes IH]; intros dst m Ha; [done|].
  cbn [store_bytes]. rewrite IH by (cbn [length] in Ha; lia).
  apply lookup_insert_ne. cbn [length] in Ha. lia.
Qed.

Lemma store_bytes_inside dst bytes (m : gmap Z Z) i b :
  bytes !! i = Some b →
  store_bytes dst bytes m !! (dst + Z.of_nat i) = Some b.
Proof.
  revert dst m i. induction bytes as [|x bytes IH]; intros dst m i Hi; [done|].
  cbn [store_bytes]. destruct i as [|i].
  - injection Hi as ->. rewrite store_bytes_outside by lia.
    rewrite Z.add_0_r. apply lookup_insert_eq.
  - cbn in Hi. replace (dst + Z.of_nat (S i)) with (dst + 1 + Z.of_nat i) by lia.
    by apply IH.
Qed.

(** X4: [task_stack_push] moves the stack pointer down by the size of the value
    and answers the new pointer; the value can be read back there, and
    nothing outside the new slot, in particular nothing pushed earlier, is
    overwritten. *)
Theorem task_stack_push_slot `{Externals} (k : Kernel) task t value :
  tasks k !! task = Some t →
  Z.of_nat (length value) ≤ t_stack_pointer t < 2 ^ 32 →
  let sp := t_stack_pointer t - Z.of_nat (length value) in
  ∃ k',
    task_stack_push task value k = Done sp k'
    ∧ tasks k' !! task = Some (with_stack_pointer sp t)
    ∧ (∀ i b, value !! i = Some b → memory k' !! (sp + Z.of_nat i) = Some b)
    ∧ (∀ a, a < sp ∨ t_stack_pointer t ≤ a → memory k' !! a = memory k !! a)
    ∧ trace k' = trace k.
Proof.
  intros E B sp.
  assert (Hsp : wrap32 (t_stack_pointer t - Z.of_nat (length value)) = sp).
  { unfold wrap32. apply Z.mod_small. subst sp. lia. }
  rewrite (task_stack_push_run k task t value E). cbn zeta. rewrite Hsp.
  eexists. split; [reflexivity|]. cbn.
  split; [apply lookup_insert_eq|]. split; [|split; [|done]].
  - intros i b Hi. by apply store_bytes_inside.
  - intros a Ha. apply store_bytes_outside. subst sp. lia.
Qed.

Lemma task_stack_push_slot_witness :
  ∃ k',
    task_stack_push 1%positive [1; 2; 3] (Reference.one_task TASK_STATE_NONE None)
    = Done 1064956 k'
    ∧ memory k' !! 1064956 = Some 1
    ∧ memory k' !! 1064958 = Some 3.
Proof.
  destruct (task_stack_push_slot (Reference.one_task TASK_STATE_NONE None)
              1%positive (Reference.sample_task 0 TASK_STATE_NONE None [])
              [1; 2; 3] eq_refl)
    as (k' & R & _ & Hmem & _).
  - cbn. lia.
  - exists k'. split; [done|]. split.
    + apply (Hmem 0%nat 1). reflexivity.
    + apply (Hmem 2%nat 3). reflexivity.
Defined.

(** ** Spawning with one argument *)

(** X5: a task made by [task_spawn] is registered in state NONE with the given
    entry and user flag, and its argument lies in the four bytes at its stack
    pointer, which is five bytes below the end of its stack. *)
Theorem task_spawn_argument `{Externals} (k : Kernel) parent name entry arg user cwd :
  (0 < atomic_depth k)%nat →
  parent_cwd k parent = Some cwd →
  ∃ task k' t,
    task_spawn parent name entry arg user k = Done task k'
    ∧ tasks k' !! task = Some t
    ∧ task ∈ all_tasks k'
    ∧ t_state t = TASK_STATE_NONE
    ∧ t_entry t = entry
    ∧ t_user t = user
    ∧ t_stack_pointer t = wrap32 (wrap32 (t_stack t + PROCESS_STACK_SIZE - 1) - 4)
    ∧ ∀ i b, le_bytes 4 arg !! i = Some b →
             memory k' !! (t_stack_pointer t + Z.of_nat i) = Some b.
Proof.
  intros A C. unfold task_spawn.
  destruct (task_create_fields k parent name user cwd A C)
    as (k1 & t1 & R & T & Al & _ & Hst & _ & _ & _ & _ & Hsp & _).
  rewrite (bind_run ASSERT_ATOMIC _ k () k) by (by run).
  rewrite (bind_run _ _ _ _ _ R).
  set (task := malloc_ret (dom (tasks k))) in *.
  assert (E1 : tasks k1 !! task = Some t1) by (rewrite T; apply lookup_insert_eq).
  unfold task_set_entry, task_stack_push. run.
  eexists _, _, _. split; [reflexivity|]. cbn.
  split; [apply lookup_insert_eq|]. split; [rewrite Al; set_solver|].
  cbn. split; [done|]. split; [done|]. split; [done|]. split; [by rewrite Hsp|].
  intros i b Hi. by apply (store_bytes_inside _ (le_bytes 4 arg)).
Qed.

Lemma task_spawn_argument_witness :
  ∃ task k' t,
    task_spawn None "worker" 4096 258 false (set_atomic_depth S Reference.boot)
    = Done task k'
    ∧ tasks k' !! task = Some t
    ∧ t_entry t = 4096
    ∧ memory k' !! t_stack_pointer t = Some 2
    ∧ memory k' !! (t_stack_pointer t + 1) = Some 1.
Proof.
  destruct (task_spawn_argument (set_atomic_depth S Reference.boot)
              None "worker" 4096 258 false (path_create "/"))
    as (task & k' & t & R & E & _ & _ & He & _ & _ & Hmem).
  - cbn. lia.
  - reflexivity.
  - exists task, k', t. split; [done|]. split; [done|]. split; [done|]. split.
    + rewrite <-(Z.add_0_r (t_stack_pointer t)). apply (Hmem 0%nat 2). reflexivity.
    + apply (Hmem 1%nat 1). reflexivity.
Defined.

(** ** The garbage collector *)

Definition is_canceled `{Externals} (k : Kernel) (p : ptr) : Prop :=
  ∃ t, tasks k !! p = Some t ∧ t_state t = TASK_STATE_CANCELED.

Lemma elem_of_list_remove_NoDup {A} `{EqDecision A} (x y : A) (l : list A) :
  NoDup l → x ∈ list_remove y l ↔ x ∈ l ∧ x ≠ y.
Proof.
  intros Hnd. split.
  - intros Hx. split; [by eapply elem_of_list_remove|].
    intros ->. by apply (list_remove_NoDup y l Hnd).
  - intros [Hx Hne]. by apply elem_of_list_remove_ne.
Qed.

#[global] Instance is_canceled_dec `{Externals} (k : Kernel) (p : ptr) :
  Decision (is_canceled k p).
Proof.
  unfold is_canceled. destruct (tasks k !! p) as [t|].
  - destruct (decide (t_state t = TASK_STATE_CANCELED)) as [Hs|Hs].
    + left. by exists t.
    + right. intros (t' & [= <-] & Hs'). done.
  - right. by intros (t' & ? & _).
Defined.

Lemma list_filter_all {A} (P : A → Prop) `{!∀ x, Decision (P x)} (l : list A) :
  (∀ x, x ∈ l → P x) → filter P l = l.
Proof.
  induction l as [|x l IH]; intros HP; [done|].
  rewrite filter_cons_True by (apply HP; left).
  f_equal. apply IH. intros y Hy. apply HP. by right.
Qed.

Lemma list_filter_iff_elem {A} (P Q : A → Prop)
    `{!∀ x, Decision (P x), !∀ x, Decision (Q x)} (l : list A) :
  (∀ x, x ∈ l → P x ↔ Q x) → filter P l = filter Q l.
Proof.
  induction l as [|x l IH]; intros HPQ; [done|].
  assert (IH' : filter P l = filter Q l).
  { apply IH. intros y Hy. apply HPQ. by right. }
  destruct (decide (P x)) as [Hx|Hx].
  - rewrite !filter_cons_True; [by rewrite IH'|by apply (HPQ x); [left|]|done].
  - rewrite !filter_cons_False; [done| |done].
    intros Hq. apply Hx. by apply (HPQ x); [left|].
Qed.

(** On a list without repetition, unlinking a cell keeps the order of the
    others. *)
Lemma list_remove_filter {A} `{EqDecision A} (x : A) (l : list A) :
  NoDup l → list_remove x l = filter (λ y, y ≠ x) l.
Proof.
  induction 1 as [|y l Hy Hl IH]; [done|]. cbn [list_remove].
  destruct (decide (y = x)) as [->|Hne].
  - rewrite filter_cons_False by (intros ?; done).
    symmetry. apply list_filter_all. intros z Hz ->. done.
  - rewrite filter_cons_True by done. by rewrite IH.
Qed.

(** The loop of the collector over a snapshot [l] of the registry: the
    CANCELED tasks of [l] are destroyed, everything else stays, in the order
    it had. *)
Lemma sweep_loop `{Externals} (l : list ptr) :
  ∀ k : Kernel,
    shm_inv [] k →
    NoDup l →
    NoDup (all_tasks k) →
    (∀ p, p ∈ l → is_Some (tasks k !! p)) →
    (∀ p t, p ∈ l → tasks k !! p = Some t →
            t_state t = TASK_STATE_CANCELED → t_cwd_lock t = false) →
    ∃ k',
      list_iterate destroy_task_if_canceled l k = Done () k'
      ∧ shm_inv [] k'
      ∧ atomic_depth k' = atomic_depth k
      ∧ blockers k' = blockers k
      ∧ NoDup (all_tasks k')
      ∧ (∀ p, p ∈ all_tasks k' ↔ p ∈ all_tasks k ∧ ¬ (p ∈ l ∧ is_canceled k p))
      ∧ (∀ p, p ∈ l → is_canceled k p → tasks k' !! p = None)
      ∧ (∀ p, ¬ (p ∈ l ∧ is_canceled k p) → tasks k' !! p = tasks k !! p)
      ∧ all_tasks k' = filter (λ p, ¬ (p ∈ l ∧ is_canceled k p)) (all_tasks k).
Proof.
  induction l as [|p l IH]; intros k I Hl Hnd Hlive Hlock.
  { exists k. cbn. unfold ret. split; [done|]. split; [done|]. split; [done|].
    split; [done|]. split; [done|]. split.
    - intros q. split; [|tauto]. intros Hq. split; [done|].
      by intros [?%elem_of_nil _].
    - split; [by intros q ?%elem_of_nil|]. split; [done|].
      symmetry. apply list_filter_all. by intros q _ [?%elem_of_nil _]. }
  apply NoDup_cons in Hl as [Hp Hl].
  destruct (Hlive p) as [t T]; [left|].
  assert (L : t_state t = TASK_STATE_CANCELED → t_cwd_lock t = false).
  { apply (Hlock p); [left|done]. }
  cbn [list_iterate]. unfold destroy_task_if_canceled at 1.
  rewrite (bind_run (bind (deref_task p) _) _ k ()
             (if bool_decide (t_state t = TASK_STATE_CANCELED)
              then match task_destroy p k with Done _ k1 => k1 | _ => k end
              else k)).
  2:{ rewrite (bind_run _ _ _ _ _ (deref_task_live k p t T)).
      unfold when. cbv beta. case_bool_decide as Hc; [|done].
      by destruct (task_destroy_run [] k p t I T (L Hc)) as (k1 & evs & -> & _). }
  case_bool_decide as Hc.
  - destruct (task_destroy_run [] k p t I T (L Hc)) as
      (k1 & evs & -> & T1 & A1 & D1 & B1 & _ & _ & _ & I1).
    assert (Hne : ∀ q, q ∈ l → q ≠ p) by (intros q Hq ->; done).
    assert (Hc1 : ∀ q, is_canceled k1 q ↔ is_canceled k q ∧ q ≠ p).
    { intros q. unfold is_canceled. rewrite T1. split.
      - intros (tq & [Hq1 Hq2]%lookup_delete_Some & Hs). split; [by exists tq|done].
      - intros [(tq & Hq & Hs) Hq']. exists tq. split; [|done].
        by rewrite lookup_delete_ne. }
    destruct (IH k1) as (k' & R & I' & D' & B' & N' & M' & Gone & Kept & Order).
    + done.
    + done.
    + rewrite A1. by apply list_remove_NoDup.
    + intros q Hq. rewrite T1, lookup_delete_ne by (symmetry; auto).
      apply Hlive. by right.
    + intros q tq Hq. rewrite T1, lookup_delete_ne by (symmetry; auto).
      apply Hlock. by right.
    + exists k'. split; [done|]. split; [done|]. split; [congruence|].
      split; [congruence|]. split; [done|]. split; [|split; [|split]].
      4:{ rewrite Order, A1, list_remove_filter, list_filter_filter by done.
          apply list_filter_iff. intros q. rewrite Hc1, elem_of_cons. split.
          - intros [Hn Hqp] [[->|Hq] Hcq]; [done|]. apply Hn. by split.
          - intros Hn. assert (q ≠ p).
            { intros ->. apply Hn. split; [by left|by exists t]. }
            split; [|done]. intros [Hq [Hcq _]]. apply Hn. split; [by right|done]. }
      * intros q. rewrite M', A1, elem_of_list_remove_NoDup, Hc1, elem_of_cons by done.
        split.
        -- intros [[Hq Hqp] Hn]. split; [done|]. intros [[->|Hq'] Hcq]; [done|].
           apply Hn. by split.
        -- intros [Hq Hn]. assert (q ≠ p).
           { intros ->. apply Hn. split; [by left|by exists t]. }
           split; [done|]. intros [Hq' [Hcq _]]. apply Hn. split; [by right|done].
      * intros q [->|Hq]%elem_of_cons Hcq.
        -- rewrite Kept; [by rewrite T1, lookup_delete_eq|]. by intros [? _].
        -- apply Gone; [done|]. apply Hc1. split; [done|auto].
      * intros q Hn. destruct (decide (q = p)) as [->|Hqp].
        { exfalso. apply Hn. split; [by left|by exists t]. }
        rewrite Kept.
        -- rewrite T1. apply lookup_delete_ne. congruence.
        -- intros [Hq [Hcq _]%Hc1]. apply Hn. split; [by right|done].
  - assert (Hnc : ¬ is_canceled k p).
    { intros (t' & T' & Hs). congruence. }
    destruct (IH k) as (k' & R & I' & D' & B' & N' & M' & Gone & Kept & Order).
    + done.
    + done.
    + done.
    + intros q Hq. apply Hlive. by right.
    + intros q tq Hq. apply Hlock. by right.
    + exists k'. split; [done|]. split; [done|]. split; [done|].
      split; [done|]. split; [done|]. split; [|split; [|split]].
      4:{ rewrite Order. apply list_filter_iff. intros q. rewrite elem_of_cons.
          split.
          - intros Hn [[->|Hq] Hcq]; [done|]. apply Hn. by split.
          - intros Hn [Hq Hcq]. apply Hn. by split; [right|]. }
      * intros q. rewrite M', elem_of_cons. split.
        -- intros [Hq Hn]. split; [done|]. intros [[->|Hq'] Hcq]; [done|].
           apply Hn. by split.
        -- intros [Hq Hn]. split; [done|]. intros [Hq' Hcq]. apply Hn. by split; [right|].
      * intros q [->|Hq]%elem_of_cons Hcq; [done|]. by apply Gone.
      * intros q Hn. apply Kept. intros [Hq Hcq]. apply Hn. by split; [right|].
Qed.

(** X6: one sweep of the garbage collector destroys exactly the registered
    tasks that are CANCELED: they leave the registry and the heap, and the
    registry afterwards is the registry before with the CANCELED tasks taken
    out, the others in the order they had; every other task keeps its record,
    no CANCELED task is left on the registry, and the atomic section is left
    as it was entered.  No blocker is released, not even the one installed on
    a destroyed task.  The collector needs the working-directory lock of each
    task it destroys to be free. *)
Theorem garbage_collector_sweep_spec `{Externals} (k : Kernel) :
  shm_inv [] k →
  NoDup (all_tasks k) →
  registry_live k →
  (∀ p t, p ∈ all_tasks k → tasks k !! p = Some t →
          t_state t = TASK_STATE_CANCELED → t_cwd_lock t = false) →
  ∃ k',
    garbage_collector_sweep k = Done () k'
    ∧ atomic_depth k' = atomic_depth k
    ∧ all_tasks k' = filter (λ p, ¬ is_canceled k p) (all_tasks k)
    ∧ (∀ p, p ∈ all_tasks k' ↔ p ∈ all_tasks k ∧ ¬ is_canceled k p)
    ∧ (∀ p, p ∈ all_tasks k → is_canceled k p → tasks k' !! p = None)
    ∧ (∀ p, ¬ (p ∈ all_tasks k ∧ is_canceled k p) → tasks k' !! p = tasks k !! p)
    ∧ (∀ p, p ∈ all_tasks k' → ¬ is_canceled k' p)
    ∧ blockers k' = blockers k
    ∧ NoDup (all_tasks k')
    ∧ shm_inv [] k'.
Proof.
  intros I Hnd Hlive Hlock.
  destruct (sweep_loop (all_tasks k) (set_atomic_depth S k))
    as (k1 & R & I1 & D1 & B1 & N1 & M1 & Gone & Kept & Order).
  { by apply shm_inv_atomic. }
  { done. }
  { done. }
  { intros p Hp. cbn. by apply (proj1 (Forall_forall _ _) Hlive). }
  { done. }
  cbn in D1, M1, Gone, Kept, N1. exists (set_atomic_depth Nat.pred k1).
  split.
  { unfold garbage_collector_sweep.
    rewrite (bind_run atomic_begin _ k () (set_atomic_depth S k)) by done.
    rewrite (bind_run (get all_tasks) _ _ (all_tasks k) (set_atomic_depth S k)) by done.
    by rewrite (bind_run _ _ _ _ _ R). }
  cbn. split; [by rewrite D1|]. split.
  { rewrite Order. apply list_filter_iff_elem. intros p Hp. cbn in Hp.
    split; [|tauto]. intros Hn Hc. apply Hn. by split. }
  split.
  { intros p. rewrite M1. tauto. }
  split; [done|]. split; [done|].
  split; [|split; [done|split; [done|by apply shm_inv_atomic]]].
  intros p Hp (t & T & Hs). apply M1 in Hp as [Hp Hn].
  rewrite Kept in T by tauto. apply Hn. split; [done|by exists t].
Qed.

Lemma two_tasks_shm_inv : shm_inv [] Reference.two_tasks.
Proof.
  split; cbn.
  - done.
  - intros o obj. by rewrite lookup_empty.
  - intros task t m Ht Hm. exfalso.
    destruct (decide (task = 1%positive)) as [->|N1].
    { rewrite lookup_insert_eq in Ht. injection Ht as <-. by apply elem_of_nil in Hm. }
    rewrite lookup_insert_ne in Ht by done.
    apply lookup_singleton_Some in Ht as [<- <-]. by apply elem_of_nil in Hm.
  - by intros o ?%elem_of_nil.
  - intros o. rewrite lookup_empty. split; [by intros ?%elem_of_nil|by intros [? ?]].
  - constructor.
Qed.

Lemma garbage_collector_sweep_spec_witness :
  ∃ k',
    garbage_collector_sweep Reference.two_tasks = Done () k'
    ∧ atomic_depth k' = 0%nat
    ∧ all_tasks k' = [1%positive]
    ∧ tasks k' !! 2%positive = None
    ∧ tasks k' !! 1%positive
      = Some (Reference.sample_task 0 TASK_STATE_RUNNING None []).
Proof.
  destruct (garbage_collector_sweep_spec Reference.two_tasks)
    as (k' & R & D & Order & M & Gone & Kept & _).
  - apply two_tasks_shm_inv.
  - cbn. apply NoDup_cons. split; [|apply NoDup_singleton].
    by intros ?%list_elem_of_singleton.
  - apply two_tasks_registry_live.
  - intros p t Hp T _. cbn in Hp, T.
    apply elem_of_cons in Hp as [Hp|Hp].
    + subst p. rewrite lookup_insert_eq in T. by injection T as <-.
    + apply list_elem_of_singleton in Hp. subst p.
      rewrite lookup_insert_ne, lookup_singleton_eq in T by done. by injection T as <-.
  - assert (N : ¬ is_canceled Reference.two_tasks 1%positive).
    { intros (t & T & Hs). cbn in T. rewrite lookup_insert_eq in T.
      injection T as <-. done. }
    assert (C : is_canceled Reference.two_tasks 2%positive).
    { eexists. split; [reflexivity|done]. }
    exists k'. split; [done|]. split; [done|]. split; [|split].
    + rewrite Order. cbn [all_tasks Reference.two_tasks].
      rewrite filter_cons_True by done.
      rewrite filter_cons_False by (intros Hn; by apply Hn). done.
    + apply Gone; [cbn; right; left|done].
    + rewrite Kept by tauto. reflexivity.
Defined.

(** ** Leaving a task *)

(** X7: [task_exit] never returns to its caller, in any kernel state and
    however the scheduler resumes it.  For a live running task it cancels that
    task with the exit value and hands the processor over; a scheduler that
    came back from the yield would hit ASSERT_NOT_REACHED. *)
Theorem task_exit_never_returns `{Externals} (k : Kernel) (v : Z) :
  always (λ _ _, False) (task_exit v k)
  ∧ ∀ task t,
      running k = Some task →
      tasks k !! task = Some t →
      ∃ resume,
        task_exit v k = Yield (log EvSchedulerYield (canceled task v t k)) resume
        ∧ ∀ k', resume k' = Abort ASSERT_FAILED.
Proof.
  split.
  - unfold task_exit.
    rewrite (bind_run scheduler_running _ k (running k) k) by done.
    destruct (running k) as [task|] eqn:Hr; [|done].
    destruct (tasks k !! task) as [t|] eqn:T.
    + by rewrite (bind_run _ _ _ _ _ (task_cancel_run k task t v T)).
    + unfold task_cancel. by run.
  - intros task t Hr T. unfold task_exit.
    rewrite (bind_run scheduler_running _ k (running k) k) by done.
    rewrite Hr, (bind_run _ _ _ _ _ (task_cancel_run k task t v T)).
    by eexists.
Qed.

Lemma task_exit_never_returns_witness :
  ∃ resume,
    task_exit 3 (Reference.one_task TASK_STATE_RUNNING None)
    = Yield (log EvSchedulerYield
               (canceled 1%positive 3
                  (Reference.sample_task 0 TASK_STATE_RUNNING None [])
                  (Reference.one_task TASK_STATE_RUNNING None))) resume
    ∧ resume Reference.boot = Abort ASSERT_FAILED.
Proof.
  destruct (proj2 (task_exit_never_returns
                     (Reference.one_task TASK_STATE_RUNNING None) 3)
              1%positive (Reference.sample_task 0 TASK_STATE_RUNNING None [])
              eq_refl eq_refl) as (resume & R & Hres).
  exists resume. split; [exact R|apply Hres].
Defined.

(** ** Switching the page directory *)

(** X8: [task_switch_pdir] answers the directory the task had, so that a
    caller who switches back with the answer restores the task: after the round
    trip the kernel differs from the start only by the two switches that the
    memory manager has seen, in that order. *)
Theorem task_switch_pdir_round_trip `{Externals} (k : Kernel) task t pdir :
  tasks k !! task = Some t →
  ∃ k1,
    task_switch_pdir task pdir k = Done (t_pdir t) k1
    ∧ (∃ t1, tasks k1 !! task = Some t1 ∧ t_pdir t1 = pdir)
    ∧ task_switch_pdir task (t_pdir t) k1
      = Done pdir
          (log (EvMemoryPdirSwitch (t_pdir t)) (log (EvMemoryPdirSwitch pdir) k)).
Proof.
  intros T. unfold task_switch_pdir. run.
  eexists. split; [reflexivity|]. split.
  { cbn. rewrite lookup_insert_eq. by eexists. }
  run. f_equal. kernel_eq.
  rewrite insert_insert_eq. apply insert_id. rewrite T. f_equal. by destruct t.
Qed.

Lemma task_switch_pdir_round_trip_witness :
  ∃ k1,
    task_switch_pdir 1%positive 8192 (Reference.one_task TASK_STATE_RUNNING None)
    = Done 4096 k1
    ∧ task_switch_pdir 1%positive 4096 k1
      = Done 8192
          (log (EvMemoryPdirSwitch 4096)
             (log (EvMemoryPdirSwitch 8192)
                (Reference.one_task TASK_STATE_RUNNING None))).
Proof.
  destruct (task_switch_pdir_round_trip (Reference.one_task TASK_STATE_RUNNING None)
              1%positive (Reference.sample_task 0 TASK_STATE_RUNNING None [])
              8192 eq_refl) as (k1 & R1 & _ & R2).
  by exists k1.
Defined.

(** ** Failing to change the working directory *)

(** X9: [task_set_cwd] has three outcomes, decided by the one lookup of the
    resolved path.  It answers SUCCESS exactly when the path denotes a
    directory, and then the cwd is the resolved path; when nothing is found,
    or a node that is not a directory, it answers the matching error and the
    task table is as before.  In every case the cwd lock is free again, and the
    reference that the lookup took on a node is given back exactly once. *)
Theorem task_set_cwd_outcome `{Externals} (k : Kernel) task t text :
  tasks k !! task = Some t →
  t_cwd_lock t = false →
  let path := resolved (t_cwd_path t) text in
  let node := filesystem_find_and_ref_ret (trace k) path in
  ∃ r k',
    task_set_cwd task text k = Done r k'
    ∧ (r = SUCCESS ↔ ∃ n, node = Some (n, FILE_TYPE_DIRECTORY))
    ∧ (r = ERR_NO_SUCH_FILE_OR_DIRECTORY ↔ node = None)
    ∧ (r = ERR_NOT_A_DIRECTORY ↔ ∃ n type, node = Some (n, type)
                                           ∧ type ≠ FILE_TYPE_DIRECTORY)
    ∧ tasks k' = (if bool_decide (r = SUCCESS)
                  then <[task := with_cwd_path path t]> (tasks k)
                  else tasks k)
    ∧ (∃ t', tasks k' !! task = Some t' ∧ t_cwd_lock t' = false)
    ∧ trace k' = trace k ++ EvFilesystemFindAndRef path node
                   :: match node with
                      | Some (n, _) => [EvFsnodeDeref n]
                      | None => []
                      end.
Proof.
  intros E L path node. rewrite (task_set_cwd_run k task t text E L).
  unfold change_cwd. fold path. fold node.
  destruct node as [[n type]|].
  - case_bool_decide as Hd.
    + eexists _, _. split; [reflexivity|]. cbn.
      split; [split; [done|by intros (? & [= _ ->])]|].
      split; [done|].
      split; [split; [by eexists _, _|done]|].
      split; [done|]. split; [by exists t|]. by rewrite <-app_assoc.
    + subst type.
      eexists _, _. split; [reflexivity|]. cbn.
      split; [split; [by eexists|done]|].
      split; [done|].
      split; [split; [done|by intros (? & ? & [= _ <-] & ?)]|].
      split; [done|]. split.
      * rewrite lookup_insert_eq. by eexists.
      * by rewrite <-app_assoc.
  - eexists _, _. split; [reflexivity|]. cbn.
    split; [split; [done|by intros (? & ?)]|].
    split; [done|].
    split; [split; [done|by intros (? & ? & ? & ?)]|].
    split; [done|]. split; [by exists t|done].
Qed.

Lemma task_set_cwd_outcome_witness :
  ∃ r k',
    task_set_cwd 1%positive "/nowhere" (Reference.one_task TASK_STATE_RUNNING None)
    = Done r k'
    ∧ r = ERR_NO_SUCH_FILE_OR_DIRECTORY
    ∧ tasks k' = tasks (Reference.one_task TASK_STATE_RUNNING None).
Proof.
  destruct (task_set_cwd_outcome (Reference.one_task TASK_STATE_RUNNING None)
              1%positive (Reference.sample_task 0 TASK_STATE_RUNNING None [])
              "/nowhere" eq_refl eq_refl)
    as (r & k' & R & _ & Hr & _ & T & _).
  assert (r = ERR_NO_SUCH_FILE_OR_DIRECTORY) as -> by (by apply Hr).
  by exists ERR_NO_SUCH_FILE_OR_DIRECTORY, k'.
Defined.

(** ** Handles of shared memory *)

Lemma memory_mapping_by_address_loop_elem address l m :
  memory_mapping_by_address_loop address l = Some m →
  m ∈ l ∧ mm_address m = address.
Proof.
  induction l as [|x l IH]; [done|]. cbn. case_bool_decide as Hx.
  - intros [= <-]. split; [left|done].
  - intros [Hm Ha]%IH. split; [by right|done].
Qed.

Lemma task_memory_mapping_by_address_run `{Externals} (k : Kernel) task t address :
  tasks k !! task = Some t →
  task_memory_mapping_by_address task address k
  = Done (memory_mapping_by_address_loop address (t_memory_mapping t)) k.
Proof. intros T. unfold task_memory_mapping_by_address. by run. Qed.

(** X10: [task_shared_memory_get_handle] only reads.  It answers BAD_ADDRESS
    when no mapping of the task starts at the address, and otherwise SUCCESS
    with the id of the object behind a mapping of the task that starts
    there. *)
Theorem task_shared_memory_get_handle_spec `{Externals} held (k : Kernel) task t address :
  shm_inv held k →
  tasks k !! task = Some t →
  ∃ r,
    task_shared_memory_get_handle task address k = Done r k
    ∧ ((∀ m, m ∈ t_memory_mapping t → mm_address m ≠ address) →
       r = (ERR_BAD_ADDRESS, None))
    ∧ (∀ m0, m0 ∈ t_memory_mapping t → mm_address m0 = address →
       ∃ m obj,
         m ∈ t_memory_mapping t ∧ mm_address m = address
         ∧ objects k !! mm_object m = Some obj
         ∧ r = (SUCCESS, Some (mo_id obj))).
Proof.
  intros I T. unfold task_shared_memory_get_handle.
  rewrite (bind_run _ _ _ _ _ (task_memory_mapping_by_address_run k task t address T)).
  destruct (memory_mapping_by_address_loop address (t_memory_mapping t))
    as [m|] eqn:F.
  - destruct (memory_mapping_by_address_loop_elem _ _ _ F) as [Hm Ha].
    destruct (shm_mapped held k I task t m T Hm) as [obj E].
    exists (SUCCESS, Some (mo_id obj)). split; [by run|]. split.
    + intros Hno. by destruct (Hno m Hm).
    + intros _ _ _. by exists m, obj.
  - exists (ERR_BAD_ADDRESS, None). split; [done|]. split; [done|].
    intros m0 Hm0 Ha0.
    destruct (memory_mapping_by_address_loop_Some address _ m0 Hm0 Ha0)
      as (m & Hm & _). congruence.
Qed.

Lemma task_shared_memory_get_handle_spec_witness :
  task_shared_memory_get_handle 1%positive 1073741824 Reference.one_mapping
  = Done (SUCCESS, Some 0) Reference.one_mapping
  ∧ task_shared_memory_get_handle 1%positive 1073741825 Reference.one_mapping
    = Done (ERR_BAD_ADDRESS, None) Reference.one_mapping.
Proof.
  split.
  - destruct (task_shared_memory_get_handle_spec [] Reference.one_mapping
                1%positive
                (Reference.sample_task 0 TASK_STATE_CANCELED None
                   [Reference.sample_mapping])
                1073741824 one_mapping_shm_inv eq_refl) as (r & R & _ & Hfound).
    destruct (Hfound Reference.sample_mapping) as (m & obj & Hm & _ & E & ->);
      [left|reflexivity|].
    apply list_elem_of_singleton in Hm. subst m.
    injection E as <-. exact R.
  - destruct (task_shared_memory_get_handle_spec [] Reference.one_mapping
                1%positive
                (Reference.sample_task 0 TASK_STATE_CANCELED None
                   [Reference.sample_mapping])
                1073741825 one_mapping_shm_inv eq_refl) as (r & R & Hnone & _).
    rewrite Hnone in R; [exact R|].
    intros m Hm. apply list_elem_of_singleton in Hm. by subst m.
Defined.

(** ** Including an object by handle *)

Lemma first_object_with_id_None heap id l :
  Forall (λ o, is_Some (heap !! o)) l →
  (∀ o obj, o ∈ l → heap !! o = Some obj → mo_id obj ≠ id) →
  first_object_with_id heap id l = None.
Proof.
  induction 1 as [|x l [obj E] _ IH]; intros Hno; [done|]. cbn. rewrite E.
  rewrite bool_decide_eq_false_2 by (apply (Hno x); [left|done]).
  apply IH. intros o obj' Ho. apply Hno. by right.
Qed.

Lemma first_object_with_id_present heap id l o0 obj0 :
  Forall (λ o, is_Some (heap !! o)) l →
  o0 ∈ l → heap !! o0 = Some obj0 → mo_id obj0 = id →
  ∃ o, first_object_with_id heap id l = Some o.
Proof.
  induction 1 as [|x l [obj E] _ IH]; intros Hin E0 Hid;
    [by apply elem_of_nil in Hin|].
  cbn. rewrite E. case_bool_decide; [by eexists|].
  apply elem_of_cons in Hin as [->|Hin]; [congruence|]. by apply IH.
Qed.

Lemma first_object_with_id_elem heap id l o :
  first_object_with_id heap id l = Some o → o ∈ l.
Proof.
  induction l as [|x l IH]; [done|]. cbn.
  destruct (heap !! x); [|done]. case_bool_decide.
  - intros [= <-]. left.
  - intros ?%IH. by right.
Qed.

Lemma with_refcount_round (obj : MemoryObject) :
  with_refcount (λ n, n - 1) (with_refcount (λ n, n + 1) obj) = obj.
Proof. destruct obj. unfold with_refcount. cbn. f_equal. lia. Qed.

Lemma task_shared_memory_include_found `{Externals} (k : Kernel) task t handle o obj :
  shm_inv [] k →
  tasks k !! task = Some t →
  first_object_with_id (objects k) handle (_memory_objects k) = Some o →
  objects k !! o = Some obj →
  ∃ m k',
    task_shared_memory_include task handle k
    = Done (SUCCESS, Some (mm_address m, mo_size obj)) k'
    ∧ mm_object m = o
    ∧ tasks k' = <[task := with_memory_mapping (t_memory_mapping t ++ [m]) t]>
                   (tasks k)
    ∧ objects k' = <[o := with_refcount (λ n, n + 1) obj]> (objects k)
    ∧ _memory_objects k' = _memory_objects k
    ∧ shm_inv [] k'.
Proof.
  intros I T F E.
  pose proof (memory_object_by_id_run [] k handle I) as R.
  rewrite F, E in R. unfold task_shared_memory_include.
  rewrite (bind_run _ _ _ _ _ R).
  set (obj1 := with_refcount (λ n, n + 1) obj) in *.
  set (k1 := set_objects _ k) in *.
  assert (I1 : shm_inv [o] k1) by (by apply referenced_inv).
  assert (E1 : objects k1 !! o = Some obj1).
  { subst k1. cbn. apply lookup_insert_eq. }
  assert (T1 : tasks k1 !! task = Some t) by done.
  rewrite (bind_run _ _ _ _ _ (task_memory_mapping_create_run k1 task t o obj1 T1 E1)).
  set (k2 := mapping_created task t o obj1 k1).
  assert (E2 : objects k2 !! o = Some (with_refcount (λ n, n + 1) obj1)).
  { subst k2. unfold mapping_created. cbn. apply lookup_insert_eq. }
  assert (L2 : _memory_objects_lock k2 = false) by apply (shm_unlocked [] k I).
  rewrite (bind_run _ _ _ _ _ (memory_object_deref_run k2 o _ L2 E2)).
  assert (I3 : shm_inv [] (dereferenced o (with_refcount (λ n, n + 1) obj1) k2)).
  { apply dereferenced_inv; [|done]. by apply mapping_created_inv. }
  pose proof (shm_refcount [] k I o obj E) as C.
  assert (Hnz : bool_decide (mo_refcount (with_refcount (λ n, n + 1) obj1) - 1 = 0)
                = false).
  { apply bool_decide_eq_false_2. cbn. lia. }
  exists (created_mapping t o obj1 k1),
    (dereferenced o (with_refcount (λ n, n + 1) obj1) k2).
  split; [done|]. split; [done|]. unfold dereferenced in *. rewrite Hnz in *. cbn.
  split; [done|]. split; [|done].
  by rewrite !insert_insert_eq, with_refcount_round.
Qed.

(** X11: [task_shared_memory_include] answers BAD_ADDRESS, and leaves the
    kernel as it was, when no registered object has the handle as its id.
    Otherwise it maps a registered object with that id into the task: the
    answer carries the address of the new mapping and the size of the object,
    the mapping is appended to the task's list, the object's reference count
    grows by exactly one (the reference of the lookup is given back), and the
    registry of objects is unchanged. *)
Theorem task_shared_memory_include_spec `{Externals} (k : Kernel) task t handle :
  shm_inv [] k →
  tasks k !! task = Some t →
  ((∀ o obj, o ∈ _memory_objects k → objects k !! o = Some obj → mo_id obj ≠ handle) →
   task_shared_memory_include task handle k = Done (ERR_BAD_ADDRESS, None) k)
  ∧ (∀ o0 obj0,
       o0 ∈ _memory_objects k → objects k !! o0 = Some obj0 → mo_id obj0 = handle →
       ∃ o obj m k',
         o ∈ _memory_objects k ∧ objects k !! o = Some obj ∧ mo_id obj = handle
         ∧ task_shared_memory_include task handle k
           = Done (SUCCESS, Some (mm_address m, mo_size obj)) k'
         ∧ mm_object m = o
         ∧ tasks k' = <[task := with_memory_mapping (t_memory_mapping t ++ [m]) t]>
                        (tasks k)
         ∧ objects k' = <[o := with_refcount (λ n, n + 1) obj]> (objects k)
         ∧ _memory_objects k' = _memory_objects k
         ∧ shm_inv [] k').
Proof.
  intros I T.
  assert (Hlive : Forall (λ o, is_Some (objects k !! o)) (_memory_objects k)).
  { apply Forall_forall. intros o Ho. by apply (shm_registered [] k I). }
  pose proof (memory_object_by_id_run [] k handle I) as R.
  split.
  - intros Hno. unfold task_shared_memory_include.
    rewrite (first_object_with_id_None _ _ _ Hlive Hno) in R.
    by rewrite (bind_run _ _ _ _ _ R).
  - intros o0 obj0 Hin0 E0 Hid0.
    destruct (first_object_with_id_present _ _ _ o0 obj0 Hlive Hin0 E0 Hid0)
      as [o F].
    destruct (first_object_with_id_Some _ _ _ _ F) as (obj & E & Hid).
    pose proof (first_object_with_id_elem _ _ _ _ F) as Hin.
    destruct (task_shared_memory_include_found k task t handle o obj I T F E)
      as (m & k' & Rk & Hm & Tk & Ok & Mk & Ik).
    by exists o, obj, m, k'.
Qed.

Lemma task_shared_memory_include_spec_witness :
  task_shared_memory_include 1%positive 5 Reference.one_mapping
  = Done (ERR_BAD_ADDRESS, None) Reference.one_mapping
  ∧ ∃ m k',
      task_shared_memory_include 1%positive 0 Reference.one_mapping
      = Done (SUCCESS, Some (mm_address m, 8192)) k'
      ∧ mm_object m = 7%positive
      ∧ objects k' = <[7%positive := Reference.sample_object 2]>
                       (objects Reference.one_mapping).
Proof.
  destruct (task_shared_memory_include_spec Reference.one_mapping 1%positive
              (Reference.sample_task 0 TASK_STATE_CANCELED None
                 [Reference.sample_mapping])
              5 one_mapping_shm_inv eq_refl) as [Hnone _].
  destruct (task_shared_memory_include_spec Reference.one_mapping 1%positive
              (Reference.sample_task 0 TASK_STATE_CANCELED None
                 [Reference.sample_mapping])
              0 one_mapping_shm_inv eq_refl) as [_ Hsome].
  split.
  - apply Hnone. intros o obj Ho E. cbn in Ho, E.
    apply list_elem_of_singleton in Ho. subst o. by injection E as <-.
  - destruct (Hsome 7%positive (Reference.sample_object 1))
      as (o & obj & m & k' & Ho & E & _ & R & Hm & _ & Hobj & _);
      [left|reflexivity|reflexivity|].
    cbn in Ho. apply list_elem_of_singleton in Ho. subst o.
    injection E as <-. by exists m, k'.
Defined.

(** ** Allocating and freeing again *)

Lemma list_remove_app_fresh {A} `{EqDecision A} (x : A) (l : list A) :
  x ∉ l → list_remove x (l ++ [x]) = l.
Proof.
  induction l as [|y l IH]; intros Hx; cbn.
  - by rewrite decide_True.
  - apply not_elem_of_cons in Hx as [Hne Hx].
    rewrite decide_False by done. by rewrite IH.
Qed.

Lemma memory_mapping_by_address_loop_last address l m :
  (∀ m', m' ∈ l → mm_address m' ≠ address) →
  mm_address m = address →
  memory_mapping_by_address_loop address (l ++ [m]) = Some m.
Proof.
  intros Hno Ha. induction l as [|x l IH]; cbn.
  - by rewrite bool_decide_eq_true_2.
  - rewrite bool_decide_eq_false_2 by (apply Hno; left).
    apply IH. intros m' Hm'. apply Hno. by right.
Qed.

Lemma with_memory_mapping_same `{Externals} (t : Task) l :
  with_memory_mapping (t_memory_mapping t) (with_memory_mapping l t) = t.
Proof. by destruct t. Qed.

(** X12: freeing the address that [task_shared_memory_alloc] has just
    answered undoes the allocation, provided that no older mapping of the task
    starts at that address: the task table, the object heap and the registry
    of objects are as before the allocation, and the memory manager has seen
    the physical and the virtual allocation followed by the two matching
    releases.  Only the id counter has advanced: ids are not given out
    again. *)
Theorem task_shared_memory_alloc_free `{Externals} (k : Kernel) task t sz :
  shm_inv [] k →
  tasks k !! task = Some t →
  ∃ address k1,
    task_shared_memory_alloc task sz k = Done (SUCCESS, address) k1
    ∧ ((∀ m, m ∈ t_memory_mapping t → mm_address m ≠ address) →
       ∃ k2 physical pages pages' range,
         task_shared_memory_free task address k1 = Done SUCCESS k2
         ∧ tasks k2 = tasks k
         ∧ objects k2 = objects k
         ∧ _memory_objects k2 = _memory_objects k
         ∧ _memory_object_id k2 = wrap_int (_memory_object_id k + 1)
         ∧ base range = address
         ∧ trace k2 = trace k ++
             [EvPhysicalAlloc pages physical;
              EvVirtualAlloc (t_pdir t)
                {| base := physical; size := PAGE_ALIGN_UP sz |} MEMORY_USER range;
              EvVirtualFree (t_pdir t)
                {| base := address; size := PAGE_ALIGN_UP sz |};
              EvPhysicalFree physical pages']
         ∧ shm_inv [] k2).
Proof.
  intros I T. pose proof (shm_unlocked [] k I) as L.
  pose proof (task_shared_memory_alloc_run k task t sz L T) as R. cbn zeta in R.
  pose proof (malloc_ret_free (objects k)) as Hfresh.
  set (o := malloc_ret (dom (objects k))) in *.
  set (obj := created_object sz k) in *.
  set (k1 := object_created sz k) in *.
  set (m := created_mapping t o obj k1) in *.
  set (k2 := mapping_created task t o obj k1) in *.
  set (obj2 := with_refcount (λ n, n + 1) obj) in *.
  assert (Hnz : bool_decide (mo_refcount obj2 - 1 = 0) = false) by done.
  assert (Hreg : o ∉ _memory_objects k).
  { intros Hin. apply (shm_registered [] k I) in Hin as [? ?]. congruence. }
  exists (mm_address m), (dereferenced o obj2 k2). split; [done|].
  intros Hno.
  set (k3 := dereferenced o obj2 k2) in *.
  set (t3 := with_memory_mapping (t_memory_mapping t ++ [m]) t).
  set (obj3 := with_refcount (λ n, n - 1) obj2).
  assert (T3 : tasks k3 !! task = Some t3).
  { subst k3. unfold dereferenced. rewrite Hnz. cbn. apply lookup_insert_eq. }
  assert (E3 : objects k3 !! mm_object m = Some obj3).
  { subst k3. unfold dereferenced. rewrite Hnz. cbn. apply lookup_insert_eq. }
  assert (L3 : _memory_objects_lock k3 = false).
  { subst k3. unfold dereferenced. by rewrite Hnz. }
  assert (F : memory_mapping_by_address_loop (mm_address m) (t_memory_mapping t3)
              = Some m) by (by apply memory_mapping_by_address_loop_last).
  assert (I3 : shm_inv [] k3).
  { apply dereferenced_inv; [|subst k2; unfold mapping_created; cbn;
                               apply lookup_insert_eq].
    apply mapping_created_inv; [by apply object_created_inv|done|].
    subst k1. unfold object_created. cbn. apply lookup_insert_eq. }
  assert (Hm : m ∉ t_memory_mapping t).
  { intros Hin. by apply (Hno m Hin). }
  eexists (mapping_destroyed task t3 m obj3 k3), _, _, _, _.
  split; [by apply task_shared_memory_free_found|].
  assert (Hz : bool_decide (mo_refcount obj3 - 1 = 0) = true) by done.
  unfold mapping_destroyed, dereferenced. rewrite Hz.
  subst k3. unfold dereferenced. rewrite Hnz. cbn.
  split.
  { rewrite insert_insert_eq, list_remove_app_fresh by done.
    unfold t3. rewrite with_memory_mapping_same. by apply insert_id. }
  split.
  { rewrite !insert_insert_eq, delete_insert_eq. by apply delete_id. }
  split; [by apply list_remove_app_fresh|]. split; [done|].
  split; [reflexivity|]. split.
  { rewrite <-!app_assoc. cbn. reflexivity. }
  apply (mapping_destroyed_inv [] (dereferenced o obj2 k2) task t3 m obj3) in I3.
  - unfold mapping_destroyed, dereferenced in I3. rewrite Hz, Hnz in I3. exact I3.
  - unfold dereferenced. rewrite Hnz. cbn. apply lookup_insert_eq.
  - subst t3. cbn. set_solver.
  - unfold dereferenced. rewrite Hnz. cbn. apply lookup_insert_eq.
Qed.

Lemma task_shared_memory_alloc_free_witness :
  ∃ address k1 k2,
    task_shared_memory_alloc 1%positive 1 Reference.one_mapping
    = Done (SUCCESS, address) k1
    ∧ task_shared_memory_free 1%positive address k1 = Done SUCCESS k2
    ∧ tasks k2 = tasks Reference.one_mapping
    ∧ objects k2 = objects Reference.one_mapping
    ∧ _memory_objects k2 = [7%positive].
Proof.
  destruct (task_shared_memory_alloc_free Reference.one_mapping 1%positive
              (Reference.sample_task 0 TASK_STATE_CANCELED None
                 [Reference.sample_mapping])
              1 one_mapping_shm_inv eq_refl) as (address & k1 & R & Hfree).
  pose proof (task_shared_memory_alloc_run Reference.one_mapping 1%positive
                (Reference.sample_task 0 TASK_STATE_CANCELED None
                   [Reference.sample_mapping]) 1 eq_refl eq_refl) as R'.
  cbn zeta in R'. rewrite R' in R. injection R as <- <-.
  destruct Hfree as (k2 & physical & pages & pages' & range & F & T & O & M & _).
  { intros m Hm. apply list_elem_of_singleton in Hm. subst m.
    intros Heq. vm_compute in Heq. discriminate Heq. }
  eexists _, _, k2. split; [exact R'|]. done.
Defined.

(** ** Sharing an allocation with another task *)

Lemma first_object_with_id_app_fresh (heap : gmap ptr MemoryObject) id l o obj :
  heap !! o = None →
  Forall (λ q, is_Some (heap !! q)) l →
  first_object_with_id (<[o := obj]> heap) id (l ++ [o])
  = match first_object_with_id heap id l with
    | Some q => Some q
    | None => if bool_decide (mo_id obj = id) then Some o else None
    end.
Proof.
  intros Ho. induction 1 as [|q l [x E] _ IH]; cbn.
  - by rewrite lookup_insert_eq.
  - rewrite lookup_insert_ne by (intros <-; congruence). rewrite E.
    destruct (bool_decide (mo_id x = id)); [done|apply IH].
Qed.

(** X13: the handle of a fresh allocation lets another task map the same
    object.  After [task_shared_memory_alloc] in task [a],
    [task_shared_memory_get_handle] on the answered address gives the id the
    object was created with, and [task_shared_memory_include] of that handle
    in task [b] appends to [b] a mapping of the very object that [a] maps,
    with the page-aligned size; the object then counts two references.  This
    needs the answered address to differ from the base of every older mapping
    of [a], and the id counter not to have wrapped onto the id of a live
    object. *)
Theorem task_shared_memory_share `{Externals} (k : Kernel) a ta b tb sz :
  shm_inv [] k →
  tasks k !! a = Some ta →
  tasks k !! b = Some tb →
  a ≠ b →
  (∀ o obj, objects k !! o = Some obj → mo_id obj ≠ _memory_object_id k) →
  ∃ address k1,
    task_shared_memory_alloc a sz k = Done (SUCCESS, address) k1
    ∧ ((∀ m, m ∈ t_memory_mapping ta → mm_address m ≠ address) →
       ∃ m m' k2 o obj,
         task_shared_memory_get_handle a address k1
         = Done (SUCCESS, Some (_memory_object_id k)) k1
         ∧ task_shared_memory_include b (_memory_object_id k) k1
           = Done (SUCCESS, Some (mm_address m', PAGE_ALIGN_UP sz)) k2
         ∧ tasks k2 !! a
           = Some (with_memory_mapping (t_memory_mapping ta ++ [m]) ta)
         ∧ tasks k2 !! b
           = Some (with_memory_mapping (t_memory_mapping tb ++ [m']) tb)
         ∧ mm_address m = address
         ∧ mm_object m = o
         ∧ mm_object m' = o
         ∧ objects k !! o = None
         ∧ objects k2 !! o = Some obj
         ∧ mo_refcount obj = 2
         ∧ mo_id obj = _memory_object_id k
         ∧ mo_size obj = PAGE_ALIGN_UP sz
         ∧ shm_inv [] k2).
Proof.
  intros I Ta Tb Hab Hid. pose proof (shm_unlocked [] k I) as L.
  pose proof (task_shared_memory_alloc_run k a ta sz L Ta) as R. cbn zeta in R.
  pose proof (malloc_ret_free (objects k)) as Hfresh.
  set (o := malloc_ret (dom (objects k))) in *.
  set (obj := created_object sz k) in *.
  set (k1 := object_created sz k) in *.
  set (m := created_mapping ta o obj k1) in *.
  set (k2 := mapping_created a ta o obj k1) in *.
  set (obj2 := with_refcount (λ n, n + 1) obj) in *.
  assert (Hnz : bool_decide (mo_refcount obj2 - 1 = 0) = false) by done.
  set (k3 := dereferenced o obj2 k2) in *.
  exists (mm_address m), k3. split; [done|]. intros Hno.
  assert (I3 : shm_inv [] k3).
  { apply dereferenced_inv; [|subst k2; unfold mapping_created; cbn;
                               apply lookup_insert_eq].
    apply mapping_created_inv; [by apply object_created_inv|done|].
    subst k1. unfold object_created. cbn. apply lookup_insert_eq. }
  assert (O3 : objects k3 = <[o := obj]> (objects k)).
  { subst k3. unfold dereferenced. rewrite Hnz. cbn.
    unfold obj2. by rewrite !insert_insert_eq, with_refcount_round. }
  assert (T3 : tasks k3
               = <[a := with_memory_mapping (t_memory_mapping ta ++ [m]) ta]>
                   (tasks k)).
  { subst k3. unfold dereferenced. by rewrite Hnz. }
  assert (M3 : _memory_objects k3 = _memory_objects k ++ [o]).
  { subst k3. unfold dereferenced. by rewrite Hnz. }
  assert (E3 : objects k3 !! o = Some obj) by (rewrite O3; apply lookup_insert_eq).
  assert (Ta3 : tasks k3 !! a
                = Some (with_memory_mapping (t_memory_mapping ta ++ [m]) ta))
    by (rewrite T3; apply lookup_insert_eq).
  assert (Tb3 : tasks k3 !! b = Some tb) by (by rewrite T3, lookup_insert_ne).
  assert (Hlive : Forall (λ q, is_Some (objects k !! q)) (_memory_objects k)).
  { apply Forall_forall. intros q Hq. by apply (shm_registered [] k I). }
  assert (F : first_object_with_id (objects k3) (_memory_object_id k)
                (_memory_objects k3) = Some o).
  { rewrite O3, M3, first_object_with_id_app_fresh by done.
    rewrite first_object_with_id_None; [by rewrite bool_decide_eq_true_2|done|].
    intros q x _. apply Hid. }
  destruct (task_shared_memory_include_found k3 b tb (_memory_object_id k) o obj
              I3 Tb3 F E3) as (m' & k4 & R4 & Hm' & T4 & O4 & _ & I4).
  exists m, m', k4, o, (with_refcount (λ n, n + 1) obj).
  split.
  { unfold task_shared_memory_get_handle.
    rewrite (bind_run _ _ _ _ _
               (task_memory_mapping_by_address_run k3 a _ (mm_address m) Ta3)).
    cbn [t_memory_mapping with_memory_mapping].
    rewrite memory_mapping_by_address_loop_last by done.
    change (mm_object m) with o. unfold bind, deref_object. by rewrite E3. }
  split; [done|]. split; [by rewrite T4, lookup_insert_ne|].
  split; [rewrite T4; apply lookup_insert_eq|]. split; [done|]. split; [done|].
  split; [done|]. split; [done|].
  split; [rewrite O4; apply lookup_insert_eq|]. done.
Qed.

Lemma task_shared_memory_share_witness :
  ∃ address k1 m' k2 o obj,
    task_shared_memory_alloc 1%positive 5000 Reference.two_tasks
    = Done (SUCCESS, address) k1
    ∧ task_shared_memory_get_handle 1%positive address k1 = Done (SUCCESS, Some 0) k1
    ∧ task_shared_memory_include 2%positive 0 k1
      = Done (SUCCESS, Some (mm_address m', PAGE_ALIGN_UP 5000)) k2
    ∧ mm_object m' = o
    ∧ objects k2 !! o = Some obj
    ∧ mo_refcount obj = 2.
Proof.
  destruct (task_shared_memory_share Reference.two_tasks
              1%positive (Reference.sample_task 0 TASK_STATE_RUNNING None [])
              2%positive
              (with_exit_value 42 (Reference.sample_task 1 TASK_STATE_CANCELED None []))
              5000 two_tasks_shm_inv eq_refl eq_refl)
    as (address & k1 & R & Hshare).
  - done.
  - intros o obj. cbn. by rewrite lookup_empty.
  - destruct Hshare as (m & m' & k2 & o & obj & G & Inc & _ & _ & _ & _ & Hm' & _ & E & C & _).
    { by intros m0 ?%elem_of_nil. }
    by exists address, k1, m', k2, o, obj.
Defined.

(** ** The argument vector on the stack *)

(** The bytes that the strings of an argument vector take on the stack. *)
Definition argv_bytes (argv : list string) : Z :=
  Z.of_nat (sum_list ((λ a, S (String.length a)) <$> argv)).

Lemma cstring_bytes_length (s : string) :
  length (cstring_bytes s) = S (String.length s).
Proof. induction s as [|c s IH]; cbn; [done|by rewrite IH]. Qed.

Lemma le_bytes_length n v : length (le_bytes n v) = n.
Proof. revert v. induction n as [|n IH]; intros v; cbn; [done|by rewrite IH]. Qed.

Lemma words_length (l : list Z) :
  length (mjoin (le_bytes 4 <$> l)) = (4 * length l)%nat.
Proof.
  induction l as [|x l IH]; [done|].
  change (mjoin (le_bytes 4 <$> x :: l))
    with (le_bytes 4 x ++ mjoin (le_bytes 4 <$> l)).
  rewrite length_app, le_bytes_length, IH. cbn [length]. lia.
Qed.

Lemma wrap32_sub_l x n : wrap32 (wrap32 x - n) = wrap32 (x - n).
Proof. unfold wrap32. apply Zminus_mod_idemp_l. Qed.

Lemma task_stack_push_bind `{Externals} {B} (k : Kernel) task t value
    (f : uintptr_t → Op B) :
  tasks k !! task = Some t →
  bind (task_stack_push task value) f k
  = f (wrap32 (t_stack_pointer t - Z.of_nat (length value)))
      (set_memory
         (store_bytes (wrap32 (t_stack_pointer t - Z.of_nat (length value))) value)
         (set_tasks
            <[task := with_stack_pointer
                        (wrap32 (t_stack_pointer t - Z.of_nat (length value))) t]> k)).
Proof.
  intros E. pose proof (task_stack_push_run k task t value E) as R.
  cbv zeta in R. by rewrite (bind_run _ _ _ _ _ R).
Qed.

(** The loop of [task_spawn_with_argv] pushes the first [room] strings, and
    only moves the stack pointer. *)
Lemma push_argv_layout `{Externals} (task : ptr) (room : nat) (argv : list string) :
  ∀ (k : Kernel) (t : Task),
    tasks k !! task = Some t →
    ∃ pushed k' sp,
      push_argv task room argv k = Done pushed k'
      ∧ tasks k' = <[task := with_stack_pointer sp t]> (tasks k)
      ∧ length pushed = (room `min` length argv)%nat
      ∧ wrap32 sp = wrap32 (t_stack_pointer t - argv_bytes (take room argv))
      ∧ all_tasks k' = all_tasks k
      ∧ atomic_depth k' = atomic_depth k.
Proof.
  assert (Hid : ∀ (k : Kernel) (t : Task),
             tasks k !! task = Some t →
             tasks k = <[task := with_stack_pointer (t_stack_pointer t) t]> (tasks k)).
  { intros k t E. symmetry. apply insert_id. rewrite E. f_equal. by destruct t. }
  revert argv. induction room as [|room IH]; intros argv k t E.
  - exists [], k, (t_stack_pointer t). split; [by destruct argv|].
    split; [by apply Hid|]. split; [done|]. split; [|done].
    unfold argv_bytes. cbn. by rewrite Z.sub_0_r.
  - destruct argv as [|a argv].
    { exists [], k, (t_stack_pointer t). split; [done|].
      split; [by apply Hid|]. split; [done|]. split; [|done].
      unfold argv_bytes. cbn. by rewrite Z.sub_0_r. }
    cbn [push_argv]. unfold bind at 1.
    rewrite (task_stack_push_run k task t _ E). cbn [bind_outcome].
    set (sp1 := wrap32 (t_stack_pointer t - Z.of_nat (length (cstring_bytes a)))).
    set (k1 := set_memory _ _).
    destruct (IH argv k1 (with_stack_pointer sp1 t))
      as (ps & k' & sp & R & T' & Hl & Hsp & Ha & Hd).
    { subst k1. cbn. apply lookup_insert_eq. }
    exists (sp1 :: ps), k', sp.
    unfold bind. fold (push_argv task). rewrite R. cbn [bind_outcome].
    split; [done|]. split.
    { rewrite T'. subst k1. cbn. rewrite insert_insert_eq. f_equal. }
    split; [cbn; by rewrite Hl|]. split; [|done].
    rewrite Hsp. cbn [t_stack_pointer with_stack_pointer]. subst sp1.
    rewrite wrap32_sub_l, cstring_bytes_length. f_equal.
    unfold argv_bytes.
    change (sum_list ((λ a, S (String.length a)) <$> take (S room) (a :: argv)))
      with (S (String.length a)
            + sum_list ((λ a, S (String.length a)) <$> take room argv))%nat.
    lia.
Qed.

(** X14: [task_spawn_with_argv] passes on at most PROCESS_ARG_COUNT
    arguments; further ones are dropped without an error.  The created task
    is registered with the given entry, the atomic section is closed again,
    and the four bytes at its stack pointer hold the number of arguments
    passed on.  Below the initial pointer the stack holds the strings of
    those arguments with their terminators, a table of PROCESS_ARG_COUNT
    pointers, the address of the table and the count, so the pointer has
    moved down by exactly that many bytes, modulo 2^32. *)
Theorem task_spawn_with_argv_layout `{Externals}
    (k : Kernel) parent name entry argv user cwd :
  parent_cwd k parent = Some cwd →
  ∃ task k' t,
    task_spawn_with_argv parent name entry argv user k = Done task k'
    ∧ tasks k' !! task = Some t
    ∧ all_tasks k' = all_tasks k ++ [task]
    ∧ atomic_depth k' = atomic_depth k
    ∧ t_entry t = entry
    ∧ t_state t = TASK_STATE_NONE
    ∧ (∀ i b,
         le_bytes 4 (Z.of_nat (length argv `min` PROCESS_ARG_COUNT)) !! i = Some b →
         memory k' !! (t_stack_pointer t + Z.of_nat i) = Some b)
    ∧ t_stack_pointer t
      = wrap32 (t_stack t + PROCESS_STACK_SIZE - 1
                - argv_bytes (take PROCESS_ARG_COUNT argv)
                - 4 * Z.of_nat PROCESS_ARG_COUNT - 8).
Proof.
  intros C. unfold task_spawn_with_argv.
  rewrite (bind_run atomic_begin _ k () (set_atomic_depth S k)) by done.
  destruct (task_create_fields (set_atomic_depth S k) parent name user cwd)
    as (k1 & t & R & T & Al & _ & Hst & _ & _ & _ & _ & Hsp & _ & Hd);
    [cbn; lia|done|].
  rewrite (bind_run _ _ _ _ _ R).
  set (task := malloc_ret _) in *.
  assert (E1 : tasks k1 !! task = Some t) by (rewrite T; apply lookup_insert_eq).
  set (k2 := set_tasks <[task := with_entry entry true t]> k1).
  rewrite (bind_run (task_set_entry task entry true) _ k1 () k2)
    by (unfold task_set_entry; by run).
  destruct (push_argv_layout task PROCESS_ARG_COUNT argv k2 (with_entry entry true t))
    as (ps & k3 & sp & R3 & T3 & Hl & Hsp3 & Al3 & Hd3).
  { subst k2. cbn. apply lookup_insert_eq. }
  assert (E3 : tasks k3 !! task = Some (with_stack_pointer sp (with_entry entry true t)))
    by (rewrite T3; apply lookup_insert_eq).
  rewrite (bind_run _ _ _ _ _ R3). cbv beta zeta.
  rewrite (task_stack_push_bind k3 task _ _ _ E3).
  set (sp4 := wrap32 _). set (k4 := set_memory _ _).
  assert (E4 : tasks k4 !! task
               = Some (with_stack_pointer sp4
                         (with_stack_pointer sp (with_entry entry true t))))
    by (subst k4; cbn; apply lookup_insert_eq).
  rewrite (task_stack_push_bind k4 task _ _ _ E4).
  set (sp5 := wrap32 _). set (k5 := set_memory _ _).
  assert (E5 : tasks k5 !! task
               = Some (with_stack_pointer sp5
                         (with_stack_pointer sp4
                            (with_stack_pointer sp (with_entry entry true t)))))
    by (subst k5; cbn; apply lookup_insert_eq).
  rewrite (task_stack_push_bind k5 task _ _ _ E5).
  set (sp6 := wrap32 _). set (k6 := set_memory _ _).
  rewrite (bind_run atomic_end _ k6 () (set_atomic_depth Nat.pred k6)) by done.
  unfold ret. eexists _, _, _. split; [reflexivity|].
  split; [subst k6; cbn; apply lookup_insert_eq|].
  split; [subst k6 k5 k4; cbn; by rewrite Al3|].
  split; [subst k6 k5 k4; cbn; rewrite Hd3; subst k2; cbn; by rewrite Hd|].
  split; [done|]. split; [done|]. split.
  - intros i b Hi. subst k6. cbn [memory set_atomic_depth set_memory].
    cbn [t_stack_pointer with_stack_pointer].
    apply store_bytes_inside. by rewrite Hl, Nat.min_comm.
  - cbn [t_stack_pointer with_stack_pointer t_stack with_entry].
    subst sp6 sp5 sp4. cbn [t_stack_pointer with_stack_pointer].
    rewrite !wrap32_sub_l, words_length, length_app, length_replicate, Hl.
    rewrite !le_bytes_length.
    rewrite <-(wrap32_sub_l sp), Hsp3, wrap32_sub_l.
    cbn [t_stack_pointer with_entry]. rewrite Hsp.
    set (top := t_stack t + PROCESS_STACK_SIZE - 1).
    set (strings := argv_bytes (take PROCESS_ARG_COUNT argv)).
    set (table := Z.of_nat (4 * _)).
    replace (wrap32 top - strings - table)
      with (wrap32 top - (strings + table)) by lia.
    rewrite wrap32_sub_l.
    replace (wrap32 (top - (strings + table)) - Z.of_nat 4 - Z.of_nat 4)
      with (wrap32 (top - (strings + table)) - 8) by lia.
    rewrite wrap32_sub_l. f_equal. subst table. lia.
Qed.

Lemma task_spawn_with_argv_layout_witness :
  ∃ task k' t,
    task_spawn_with_argv None "init" 4096 ["a"; "b"; "c"; "d"; "e"]%string true
      Reference.boot
    = Done task k'
    ∧ tasks k' !! task = Some t
    ∧ memory k' !! t_stack_pointer t = Some 4
    ∧ t_stack_pointer t = wrap32 (t_stack t + 16384 - 1 - 8 - 16 - 8).
Proof.
  destruct (task_spawn_with_argv_layout Reference.boot None "init" 4096
              ["a"; "b"; "c"; "d"; "e"]%string true (path_create "/") eq_refl)
    as (task & k' & t & R & E & _ & _ & _ & _ & Hmem & Hsp).
  exists task, k', t. split; [exact R|]. split; [exact E|]. split.
  - rewrite <-(Z.add_0_r (t_stack_pointer t)). apply (Hmem 0%nat 4). reflexivity.
  - exact Hsp.
Defined.

(** ** Creating a task and destroying it again *)

Lemma task_create_resources `{Externals} (k : Kernel) parent name user cwd :
  (0 < atomic_depth k)%nat →
  parent_cwd k parent = Some cwd →
  ∃ k' t,
    task_create parent name user k = Done (malloc_ret (dom (tasks k))) k'
    ∧ tasks k' = <[malloc_ret (dom (tasks k)) := t]> (tasks k)
    ∧ all_tasks k' = all_tasks k ++ [malloc_ret (dom (tasks k))]
    ∧ TID k' = wrap_int (TID k + 1)
    ∧ atomic_depth k' = atomic_depth k
    ∧ t_state t = TASK_STATE_NONE
    ∧ t_memory_mapping t = []
    ∧ t_cwd_lock t = false
    ∧ t_pdir t = (if user then memory_pdir_create_ret (trace k) else memory_kpdir)
    ∧ trace k' = trace k
                 ++ (if user then [EvMemoryPdirCreate (t_pdir t)] else [])
                 ++ [EvMemoryAlloc (t_pdir t) PROCESS_STACK_SIZE MEMORY_CLEAR (t_stack t);
                     EvArchSaveContext (malloc_ret (dom (tasks k)))].
Proof.
  intros A C. unfold task_create. run.
  destruct user, parent as [parent|]; cbn in C.
  all: try (destruct (tasks k !! parent) as [p|] eqn:E; [|done]).
  all: run.
  all: injection C as <-.
  all: eexists _, _; split; [reflexivity|]; cbn; rewrite <-?app_assoc;
    repeat split; done.
Qed.

Lemma task_destroy_no_mappings `{Externals} (k : Kernel) task t :
  tasks k !! task = Some t →
  t_state t = TASK_STATE_NONE →
  t_memory_mapping t = [] →
  t_cwd_lock t = false →
  ∃ k',
    task_destroy task k = Done () k'
    ∧ tasks k' = delete task (tasks k)
    ∧ all_tasks k' = list_remove task (all_tasks k)
    ∧ TID k' = TID k
    ∧ atomic_depth k' = atomic_depth k
    ∧ trace k' = trace k ++ destroy_release task t.
Proof.
  intros T Hs Hm Hl. rewrite (task_destroy_unlinked k task t T).
  unfold unlinked. rewrite bool_decide_eq_false_2 by (intros ?; done).
  unfold task_destroy_tail, destroy_release. run. rewrite ?Hm. cbn. run.
  rewrite ?Hl. run.
  destruct (bool_decide (t_pdir t ≠ memory_kpdir)); run.
  all: eexists; split; [reflexivity|]; cbn; rewrite <-?app_assoc;
    rewrite ?delete_insert_eq; repeat split; done.
Qed.

(** X15: a task that is created and destroyed before it ever ran leaves
    nothing behind.  The task table and the registry are as before the
    creation, only the id counter has advanced; the scheduler is told of no
    state change; and the memory manager sees the stack allocated and then
    freed with the same base and size, and the address space of a user task
    created and then destroyed.  This needs the registry to hold live tasks
    only and the memory manager not to answer the kernel's directory for a
    new one. *)
Theorem task_create_destroy `{Externals} (k : Kernel) parent name user cwd :
  (0 < atomic_depth k)%nat →
  parent_cwd k parent = Some cwd →
  registry_live k →
  memory_pdir_create_ret (trace k) ≠ memory_kpdir →
  ∃ task k1 k2 pdir stack,
    task_create parent name user k = Done task k1
    ∧ task_destroy task k1 = Done () k2
    ∧ tasks k2 = tasks k
    ∧ all_tasks k2 = all_tasks k
    ∧ TID k2 = wrap_int (TID k + 1)
    ∧ atomic_depth k2 = atomic_depth k
    ∧ pdir = (if user then memory_pdir_create_ret (trace k) else memory_kpdir)
    ∧ trace k2 = trace k
                 ++ (if user then [EvMemoryPdirCreate pdir] else [])
                 ++ [EvMemoryAlloc pdir PROCESS_STACK_SIZE MEMORY_CLEAR stack;
                     EvArchSaveContext task;
                     EvFshandleCloseAll task;
                     EvMemoryFree pdir {| base := stack; size := PROCESS_STACK_SIZE |}]
                 ++ (if user then [EvMemoryPdirDestroy pdir] else []).
Proof.
  intros A C Hlive Hpdir.
  destruct (task_create_resources k parent name user cwd A C)
    as (k1 & t & R & T & Al & Hid & Hd & Hs & Hm & Hl & Hp & Htr).
  pose proof (malloc_ret_free (tasks k)) as Hfresh.
  set (task := malloc_ret (dom (tasks k))) in *.
  assert (T1 : tasks k1 !! task = Some t) by (rewrite T; apply lookup_insert_eq).
  assert (Hout : task ∉ all_tasks k).
  { intros Hin. destruct (proj1 (Forall_forall _ _) Hlive task Hin). congruence. }
  destruct (task_destroy_no_mappings k1 task t T1 Hs Hm Hl)
    as (k2 & R2 & T2 & Al2 & Hid2 & Hd2 & Htr2).
  exists task, k1, k2, (t_pdir t), (t_stack t).
  split; [done|]. split; [done|].
  split; [rewrite T2, T, delete_insert_eq; by apply delete_id|].
  split; [rewrite Al2, Al; by apply list_remove_app_fresh|].
  split; [congruence|]. split; [congruence|]. split; [done|].
  rewrite Htr2, Htr. unfold destroy_release. rewrite <-!app_assoc. do 2 f_equal.
  cbn. do 4 f_equal. rewrite Hp. destruct user.
  - by rewrite bool_decide_eq_true_2.
  - by rewrite bool_decide_eq_false_2 by (intros ?; done).
Qed.

Lemma task_create_destroy_witness :
  ∃ task k1 k2 stack,
    task_create None "child" true (set_atomic_depth S Reference.two_tasks)
    = Done task k1
    ∧ task_destroy task k1 = Done () k2
    ∧ tasks k2 = tasks Reference.two_tasks
    ∧ all_tasks k2 = [1%positive; 2%positive]
    ∧ trace k2 = [EvMemoryPdirCreate 8192;
                  EvMemoryAlloc 8192 16384 1 stack;
                  EvArchSaveContext task;
                  EvFshandleCloseAll task;
                  EvMemoryFree 8192 {| base := stack; size := 16384 |};
                  EvMemoryPdirDestroy 8192].
Proof.
  destruct (task_create_destroy (set_atomic_depth S Reference.two_tasks)
              None "child" true (path_create "/"))
    as (task & k1 & k2 & pdir & stack & R1 & R2 & T & Al & _ & _ & -> & Htr).
  - cbn. lia.
  - reflexivity.
  - apply two_tasks_registry_live.
  - done.
  - by exists task, k1, k2, stack.
Defined.

(** ** Taking and dropping a reference *)

(** X16: [memory_object_ref] followed by [memory_object_deref] gives back
    the kernel state it started from, for an object whose count is not zero.
    Dropping a reference that is not the last one only lowers the count;
    dropping the last one takes the object off the registry, frees its pages
    once and releases the object, and leaves the registry lock free. *)
Theorem memory_object_ref_deref `{Externals} (k : Kernel) o obj :
  _memory_objects_lock k = false →
  objects k !! o = Some obj →
  NoDup (_memory_objects k) →
  ∃ k1,
    memory_object_ref o k = Done o k1
    ∧ objects k1 !! o = Some (with_refcount (λ n, n + 1) obj)
    ∧ (mo_refcount obj ≠ 0 → memory_object_deref o k1 = Done () k)
    ∧ (mo_refcount obj ≠ 1 →
       memory_object_deref o k
       = Done () (set_objects <[o := with_refcount (λ n, n - 1) obj]> k))
    ∧ (mo_refcount obj = 1 →
       ∃ k',
         memory_object_deref o k = Done () k'
         ∧ objects k' = delete o (objects k)
         ∧ (∀ q, q ∈ _memory_objects k' ↔ q ∈ _memory_objects k ∧ q ≠ o)
         ∧ _memory_objects_lock k' = false
         ∧ trace k' = trace k ++ [EvPhysicalFree (mo_address obj)
                                    (PAGE_ALIGN_UP (mo_size obj) / PAGE_SIZE)]).
Proof.
  intros L E Hnd.
  exists (set_objects <[o := with_refcount (λ n, n + 1) obj]> k).
  split; [unfold memory_object_ref; by run|].
  split; [apply lookup_insert_eq|]. split; [|split].
  - intros Hnz.
    rewrite (memory_object_deref_run _ o (with_refcount (λ n, n + 1) obj));
      [|done|apply lookup_insert_eq].
    unfold dereferenced. rewrite bool_decide_eq_false_2 by (cbn; lia).
    f_equal. kernel_eq.
    rewrite insert_insert_eq, with_refcount_round. by apply insert_id.
  - intros Hn1. rewrite (memory_object_deref_run k o obj L E).
    unfold dereferenced. by rewrite bool_decide_eq_false_2 by lia.
  - intros H1. rewrite (memory_object_deref_run k o obj L E).
    unfold dereferenced. rewrite bool_decide_eq_true_2 by lia.
    eexists. split; [reflexivity|]. cbn. split; [done|].
    split; [|done]. intros q. by apply elem_of_list_remove_NoDup.
Qed.

Lemma memory_object_ref_deref_witness :
  ∃ k1 k',
    memory_object_ref 7%positive Reference.one_mapping = Done 7%positive k1
    ∧ memory_object_deref 7%positive k1 = Done () Reference.one_mapping
    ∧ memory_object_deref 7%positive Reference.one_mapping = Done () k'
    ∧ objects k' = delete 7%positive (objects Reference.one_mapping)
    ∧ trace k' = [EvPhysicalFree 16777216 2].
Proof.
  destruct (memory_object_ref_deref Reference.one_mapping 7%positive
              (Reference.sample_object 1) eq_refl eq_refl)
    as (k1 & R1 & _ & Hback & _ & Hlast).
  - apply NoDup_singleton.
  - destruct (Hlast eq_refl) as (k' & R' & O' & _ & _ & Htr).
    exists k1, k'. split; [done|]. split; [by apply Hback|]. done.
Defined.

(** ** Suspending on a blocker *)

(** X17: when [can_unblock] answers false at installation, [task_block]
    suspends exactly once, outside of the atomic section it opened: the task is
    BLOCKED with the blocker in its slot, the scheduler has been told of the
    change before the yield, and the blocker's deadline is the no-timeout
    sentinel for a timeout of -1 and the current tick plus the timeout, modulo
    2^32, otherwise.  When the scheduler resumes it, [task_block] answers the
    result found in the blocker, releases the blocker and empties the slot,
    without touching the task's state. *)
Theorem task_block_suspends `{Externals} (k : Kernel) task t blocker b timeout :
  tasks k !! task = Some t →
  t_blocker t = None →
  blockers k !! blocker = Some b →
  b_can_unblock b (view (installed task blocker t k)) task = Some false →
  ∃ k1 resume,
    task_block task blocker timeout k = Yield k1 resume
    ∧ atomic_depth k1 = atomic_depth k
    ∧ (∃ t1, tasks k1 !! task = Some t1
             ∧ t_state t1 = TASK_STATE_BLOCKED
             ∧ t_blocker t1 = Some blocker)
    ∧ (∃ b1, blockers k1 !! blocker = Some b1
             ∧ b_timeout b1
               = (if bool_decide (wrap32 timeout = TIMEOUT_NONE) then TIMEOUT_NONE
                  else wrap32 (wrap32 (tick k) + timeout)))
    ∧ trace k1 = trace k
                 ++ [EvSchedulerDidChangeTaskState task (t_state t) TASK_STATE_BLOCKED;
                     EvSchedulerYield]
    ∧ ∀ k' b' t',
        blockers k' !! blocker = Some b' →
        tasks k' !! task = Some t' →
        ∃ kf tf,
          resume k' = Done (b_result b') kf
          ∧ blockers kf = delete blocker (blockers k')
          ∧ tasks kf !! task = Some tf
          ∧ t_blocker tf = None
          ∧ t_state tf = t_state t'.
Proof.
  intros E N B C.
  destruct (task_block_slow k task t blocker b timeout E N B C)
    as (resume & R & Hres).
  exists (blocked task blocker t b timeout k), resume.
  split; [done|]. unfold blocked. cbn. split; [done|].
  split; [eexists; split; [apply lookup_insert_eq|done]|].
  split; [eexists; split; [apply lookup_insert_eq|done]|].
  split; [by rewrite <-app_assoc|].
  intros k' b' t' B' T'. rewrite Hres. unfold resumed. rewrite B', T'.
  eexists _, _. split; [reflexivity|]. cbn. split; [done|].
  split; [apply lookup_insert_eq|done].
Qed.

Lemma task_block_suspends_witness :
  ∃ k1 resume b1,
    task_block 1%positive 5%positive 30
      (set_blockers <[5%positive := Reference.pending_blocker]>
         (Reference.one_task TASK_STATE_RUNNING None))
    = Yield k1 resume
    ∧ blockers k1 !! 5%positive = Some b1
    ∧ b_timeout b1 = 40.
Proof.
  destruct (task_block_suspends
              (set_blockers <[5%positive := Reference.pending_blocker]>
                 (Reference.one_task TASK_STATE_RUNNING None))
              1%positive (Reference.sample_task 0 TASK_STATE_RUNNING None [])
              5%positive Reference.pending_blocker 30)
    as (k1 & resume & R & _ & _ & (b1 & B1 & Hb) & _).
  - reflexivity.
  - reflexivity.
  - apply lookup_insert_eq.
  - reflexivity.
  - by exists k1, resume, b1.
Defined.

(** ** From cancellation to collection *)


